(** * ATM-events bot: the snapshot-diff-and-notify engine of [bot.py]

    A shallow embedding of [bot.py] and the properties of its diff engine,
    fetcher, notifier and snapshot store.

    Python values are the ones [json.load] and [response.json()] produce:
    [None], booleans, integers, strings, lists and dictionaries with string
    keys.  Dictionaries keep insertion order, so they are association
    lists; a Python dictionary never holds a key twice, which is the
    well-formedness predicate [wf_value].  Functions that can raise return
    a [result]; the lifecycle loop threads the [world] (the snapshot file
    and the posted payloads) and hands it back with the exception when one
    escapes.

    Outside the model: Python floats (a JSON number with a fraction or an
    exponent, [NaN], [Infinity]) and strings with a surrogate that is not
    half of a pair, which the decoder reports as [Unsupported] where it
    meets them, also in a text that is malformed further on; text that is
    not ASCII in [repr] and in [strptime], which are modelled on ASCII
    text ([ascii_text], [str_exact]); the interpreter's limits on
    recursion depth and on the length of integer literals; files that are
    not UTF-8 (text is modelled by its UTF-8 bytes); what [print] writes;
    the sleep and the daily restart of [main]. *)

From Stdlib Require Import ZArith List String Ascii Bool Lia.
From Stdlib Require Import DecimalString DecimalPos DecimalZ.
Import ListNotations.

Set Warnings "-register-all".

Local Open Scope list_scope.
Local Open Scope string_scope.

(** ** Python values, exceptions and the builtins the bot uses *)

Module Py.

Inductive value : Type :=
| VNone
| VBool (b : bool)
| VInt (n : Z)
| VStr (s : string)
| VList (l : list value)
| VDict (d : list (string * value)).

Definition dict := list (string * value).

(** The exception classes that can escape the functions of [bot.py]. *)
Inductive exn : Type :=
| KeyError (key : string)
| TypeError
| AttributeError
| JSONDecodeError   (* a ValueError *)
| Unsupported.      (* the value lies outside this model *)

Inductive result (A : Type) : Type :=
| Ok (a : A)
| Raise (e : exn).
Arguments Ok {A} a.
Arguments Raise {A} e.

Definition bind {A B} (r : result A) (k : A -> result B) : result B :=
  match r with
  | Ok a => k a
  | Raise e => Raise e
  end.

(** Association-list dictionaries: lookup, [k in d], [d[k] = v]. *)
Fixpoint dict_get {A} (k : string) (d : list (string * A)) : option A :=
  match d with
  | [] => None
  | (k', v) :: r => if String.eqb k k' then Some v else dict_get k r
  end.

Definition dict_mem {A} (k : string) (d : list (string * A)) : bool :=
  match dict_get k d with Some _ => true | None => false end.

Fixpoint dict_set {A} (k : string) (v : A) (d : list (string * A))
  : list (string * A) :=
  match d with
  | [] => [(k, v)]
  | (k', v') :: r =>
      if String.eqb k k' then (k', v) :: r else (k', v') :: dict_set k v r
  end.

Definition keys {A} (d : list (string * A)) : list string := map fst d.

(** [bool(v)] *)
Definition truthy (v : value) : bool :=
  match v with
  | VNone => false
  | VBool b => b
  | VInt n => negb (n =? 0)%Z
  | VStr s => negb (s =? "")
  | VList l => match l with [] => false | _ => true end
  | VDict d => match d with [] => false | _ => true end
  end.

(** [a == b].  [bool] is a subclass of [int]; dictionaries compare without
    regard to order. *)
Fixpoint py_eq (a b : value) {struct a} : bool :=
  match a, b with
  | VNone, VNone => true
  | VBool x, VBool y => Bool.eqb x y
  | VBool x, VInt n => ((if x then 1 else 0) =? n)%Z
  | VInt n, VBool y => (n =? (if y then 1 else 0))%Z
  | VInt n, VInt m => (n =? m)%Z
  | VStr s, VStr t => (s =? t)
  | VList l1, VList l2 =>
      (fix all2 (l1 l2 : list value) {struct l1} : bool :=
         match l1, l2 with
         | [], [] => true
         | x :: xs, y :: ys => py_eq x y && all2 xs ys
         | _, _ => false
         end) l1 l2
  | VDict d1, VDict d2 =>
      (List.length d1 =? List.length d2)%nat &&
      (fix sub (d : list (string * value)) {struct d} : bool :=
         match d with
         | [] => true
         | (k, v) :: r =>
             match dict_get k d2 with
             | Some v' => py_eq v v'
             | None => false
             end && sub r
         end) d1
  | _, _ => false
  end.

Definition py_ne (a b : value) : bool := negb (py_eq a b).

(** [v.get(k)] and [v.get(k, default)]: only dictionaries have [get]. *)
Definition py_get_default (v : value) (k : string) (dflt : value)
  : result value :=
  match v with
  | VDict d => Ok (match dict_get k d with Some x => x | None => dflt end)
  | _ => Raise AttributeError
  end.

Definition py_get (v : value) (k : string) : result value :=
  py_get_default v k VNone.

(** [v[k]] with a string subscript. *)
Definition py_getitem (v : value) (k : string) : result value :=
  match v with
  | VDict d =>
      match dict_get k d with Some x => Ok x | None => Raise (KeyError k) end
  | _ => Raise TypeError
  end.

(** [v.items()] *)
Definition py_items (v : value) : result dict :=
  match v with
  | VDict d => Ok d
  | _ => Raise AttributeError
  end.

(** [needle in hay] on strings: substring test. *)
Fixpoint is_prefix (p s : string) : bool :=
  match p, s with
  | EmptyString, _ => true
  | String a p', String b s' => Ascii.eqb a b && is_prefix p' s'
  | String _ _, EmptyString => false
  end.

Fixpoint is_substring (p s : string) : bool :=
  is_prefix p s ||
  match s with
  | EmptyString => false
  | String _ s' => is_substring p s'
  end.

(** [k in v] for a string [k]. *)
Definition py_contains (v : value) (k : string) : result bool :=
  match v with
  | VDict d => Ok (dict_mem k d)
  | VList l => Ok (existsb (py_eq (VStr k)) l)
  | VStr s => Ok (is_substring k s)
  | _ => Raise TypeError
  end.

(** [len(v)] *)
Definition py_len (v : value) : result nat :=
  match v with
  | VStr s => Ok (String.length s)
  | VList l => Ok (List.length l)
  | VDict d => Ok (List.length d)
  | _ => Raise TypeError
  end.

(** [str(n)] for an integer. *)
Definition str_of_Z (n : Z) : string := NilZero.string_of_int (Z.to_int n).

Definition hex_digit (n : nat) : ascii :=
  nth n (list_ascii_of_string "0123456789abcdef") "0"%char.

Fixpoint str_mem (c : ascii) (s : string) : bool :=
  match s with
  | EmptyString => false
  | String a r => Ascii.eqb a c || str_mem c r
  end.

Fixpoint str_concat_map (f : ascii -> string) (s : string) : string :=
  match s with
  | EmptyString => ""
  | String a r => f a ++ str_concat_map f r
  end.

(** [repr(s)] for a string: single quotes delimit it unless the text holds a
    single quote and no double quote; the delimiter and the backslash are
    escaped, control characters are written as backslash t, n, r or xNN.
    Bytes above 127 are kept: the model is exact on ASCII text
    ([ascii_value] below), CPython escapes the characters beyond ASCII
    that are not printable. *)
Definition repr_char (quote : ascii) (c : ascii) : string :=
  let n := nat_of_ascii c in
  if Ascii.eqb c quote || Ascii.eqb c "\"%char then String "\"%char (String c "")
  else if (n =? 9)%nat then "\t"
  else if (n =? 10)%nat then "\n"
  else if (n =? 13)%nat then "\r"
  else if (n <? 32)%nat || (n =? 127)%nat then
    "\x" ++ String (hex_digit (n / 16)) (String (hex_digit (n mod 16)) "")
  else String c "".

Definition repr_str (s : string) : string :=
  let quote :=
    if str_mem "'"%char s && negb (str_mem (ascii_of_nat 34) s)
    then ascii_of_nat 34 else "'"%char in
  String quote (str_concat_map (repr_char quote) s ++ String quote "").

Fixpoint join (sep : string) (l : list string) : string :=
  match l with
  | [] => ""
  | [x] => x
  | x :: r => x ++ sep ++ join sep r
  end.

(** [repr(v)] *)
Fixpoint py_repr (v : value) : string :=
  match v with
  | VNone => "None"
  | VBool true => "True"
  | VBool false => "False"
  | VInt n => str_of_Z n
  | VStr s => repr_str s
  | VList l => "[" ++ join ", " (map py_repr l) ++ "]"
  | VDict d =>
      "{" ++ join ", "
               (map (fun kv => repr_str (fst kv) ++ ": " ++ py_repr (snd kv)) d)
          ++ "}"
  end.

(** [str(v)], which is what an f-string placeholder inserts. *)
Definition py_str (v : value) : string :=
  match v with
  | VStr s => s
  | _ => py_repr v
  end.

(** ASCII text.  On it [repr] above and [strptime] below are what CPython
    computes; beyond it they are not modelled: [repr] escapes the characters
    that are not printable (U+00A0 among them), and the [\s], [\d] and
    [int] of [strptime] accept the other blanks and decimal digits of
    Unicode. *)
Fixpoint ascii_text (s : string) : bool :=
  match s with
  | EmptyString => true
  | String c r => (nat_of_ascii c <? 128)%nat && ascii_text r
  end.

(** Every text inside the value, keys included, is ASCII. *)
Fixpoint ascii_value (v : value) : bool :=
  match v with
  | VStr s => ascii_text s
  | VList l => forallb ascii_value l
  | VDict d =>
      forallb (fun kv => ascii_text (fst kv) && ascii_value (snd kv)) d
  | _ => true
  end.

(** [str(v)] is modelled exactly: [v] is a text, which [str] returns as it
    is, or a value whose [repr] is exact. *)
Definition str_exact (v : value) : bool :=
  match v with
  | VStr _ => true
  | _ => ascii_value v
  end.

(** A Python dictionary holds each key once, at every depth. *)
Fixpoint wf_value (v : value) : Prop :=
  match v with
  | VList l =>
      (fix all (l : list value) : Prop :=
         match l with [] => True | x :: r => wf_value x /\ all r end) l
  | VDict d =>
      NoDup (map fst d) /\
      (fix all (d : list (string * value)) : Prop :=
         match d with [] => True | (_, x) :: r => wf_value x /\ all r end) d
  | _ => True
  end.

End Py.

(** ** [datetime.strptime(s, "%Y-%m-%d %H:%M:%S")] and [timestamp()]

    CPython turns the format into a regular expression, one group per
    directive, matches it at the start of the text and rejects text left
    over; the date is then validated by the [datetime] constructor. *)

Module Datetime.

(** A character class is a range of character codes; an alternative is a
    sequence of classes; a directive is an ordered choice of alternatives. *)
Definition cls : Type := nat * nat.

Inductive item : Type :=
| Lit (c : ascii)                    (* the character itself *)
| Group (alts : list (list cls))     (* (?P<x>a|b|c) *)
| Spaces.                            (* \s+ , greedy *)

Definition in_cls (c : ascii) (k : cls) : bool :=
  let n := nat_of_ascii c in (fst k <=? n)%nat && (n <=? snd k)%nat.

Definition one (c : ascii) : cls := (nat_of_ascii c, nat_of_ascii c).
Definition rng (a b : ascii) : cls := (nat_of_ascii a, nat_of_ascii b).
Definition digit : cls := rng "0" "9".

(** [\s] on ASCII text; the blanks of Unicode beyond ASCII, like the
    decimal digits beyond ASCII that [\d] and [int] accept, are not
    modelled ([Py.ascii_text]). *)
Definition is_space (c : ascii) : bool :=
  let n := nat_of_ascii c in
  ((9 <=? n)%nat && (n <=? 13)%nat) || ((28 <=? n)%nat && (n <=? 32)%nat).

Definition re_Y : list (list cls) := [[digit; digit; digit; digit]].
Definition re_m : list (list cls) :=
  [[one "1"; rng "0" "2"]; [one "0"; rng "1" "9"]; [rng "1" "9"]].
Definition re_d : list (list cls) :=
  [[one "3"; rng "0" "1"]; [rng "1" "2"; digit]; [one "0"; rng "1" "9"];
   [rng "1" "9"]; [one " "; rng "1" "9"]].
Definition re_H : list (list cls) :=
  [[one "2"; rng "0" "3"]; [rng "0" "1"; digit]; [digit]].
Definition re_M : list (list cls) := [[rng "0" "5"; digit]; [digit]].
Definition re_S : list (list cls) :=
  [[one "6"; rng "0" "1"]; [rng "0" "5"; digit]; [digit]].

(** The pattern of ["%Y-%m-%d %H:%M:%S"]. *)
Definition format_regex : list item :=
  [Group re_Y; Lit "-"; Group re_m; Lit "-"; Group re_d; Spaces;
   Group re_H; Lit ":"; Group re_M; Lit ":"; Group re_S].

(** Match a sequence of classes at the start of [s]: the matched text and
    the rest. *)
Fixpoint take_classes (cs : list cls) (s : string) : option (string * string) :=
  match cs with
  | [] => Some ("", s)
  | k :: cs' =>
      match s with
      | String a r =>
          if in_cls a k then
            match take_classes cs' r with
            | Some (m, rest) => Some (String a m, rest)
            | None => None
            end
          else None
      | EmptyString => None
      end
  end.

(** Backtracking match of the pattern at the start of [s]: the groups, in
    order, and the unmatched rest.  Alternatives are tried left to right,
    [Spaces] takes as many blanks as it can and gives them back one by one. *)
Fixpoint re_match (p : list item) (s : string) : option (list string * string) :=
  match p with
  | [] => Some ([], s)
  | Lit c :: p' =>
      match s with
      | String a r => if Ascii.eqb a c then re_match p' r else None
      | EmptyString => None
      end
  | Group alts :: p' =>
      (fix try (alts : list (list cls)) : option (list string * string) :=
         match alts with
         | [] => None
         | alt :: more =>
             match take_classes alt s with
             | Some (m, r) =>
                 match re_match p' r with
                 | Some (gs, rest) => Some (m :: gs, rest)
                 | None => try more
                 end
             | None => try more
             end
         end) alts
  | Spaces :: p' =>
      (fix blanks (s : string) : option (list string * string) :=
         match s with
         | String a r =>
             if is_space a then
               match blanks r with
               | Some res => Some res
               | None => re_match p' r
               end
             else None
         | EmptyString => None
         end) s
  end.

(** [int(text)] for a matched group: decimal digits, blanks skipped. *)
Fixpoint int_of_group (acc : Z) (s : string) : Z :=
  match s with
  | EmptyString => acc
  | String a r =>
      if in_cls a digit
      then int_of_group (10 * acc + (Z.of_nat (nat_of_ascii a) - 48)) r
      else int_of_group acc r
  end.

Record datetime : Type := mk_datetime
  { year : Z; month : Z; day : Z; hour : Z; minute : Z; second : Z }.

Definition is_leap (y : Z) : bool :=
  ((y mod 4 =? 0) && (negb (y mod 100 =? 0) || (y mod 400 =? 0)))%Z.

Definition days_in_month (y m : Z) : Z :=
  if (m =? 2)%Z then (if is_leap y then 29 else 28)
  else if ((m =? 4) || (m =? 6) || (m =? 9) || (m =? 11))%Z then 30 else 31.

Definition days_before_month (y m : Z) : Z :=
  nth (Z.to_nat m) [-1; 0; 31; 59; 90; 120; 151; 181; 212; 243; 273; 304; 334]%Z
      0%Z
  + (if (2 <? m)%Z && is_leap y then 1 else 0)%Z.

Definition days_before_year (y : Z) : Z :=
  let y' := (y - 1)%Z in (y' * 365 + y' / 4 - y' / 100 + y' / 400)%Z.

Definition ymd2ord (y m d : Z) : Z :=
  (days_before_year y + days_before_month y m + d)%Z.

(** The checks of the [datetime] constructor. *)
Definition valid (dt : datetime) : bool :=
  ((1 <=? year dt) && (year dt <=? 9999) &&
   (1 <=? month dt) && (month dt <=? 12) &&
   (1 <=? day dt) && (day dt <=? days_in_month (year dt) (month dt)) &&
   (0 <=? hour dt) && (hour dt <=? 23) &&
   (0 <=? minute dt) && (minute dt <=? 59) &&
   (0 <=? second dt) && (second dt <=? 59))%Z.

(** [None] stands for the [ValueError] that [strptime] raises. *)
Definition strptime (s : string) : option datetime :=
  match re_match format_regex s with
  | Some ([gY; gm; gd; gH; gM; gS], EmptyString) =>
      let dt := mk_datetime (int_of_group 0 gY) (int_of_group 0 gm)
                            (int_of_group 0 gd) (int_of_group 0 gH)
                            (int_of_group 0 gM) (int_of_group 0 gS) in
      if valid dt then Some dt else None
  | _ => None
  end.

(** [int(dt.replace(tzinfo=timezone.utc).timestamp())]: seconds since
    1970-01-01, whose ordinal is 719163. *)
Definition timestamp (dt : datetime) : Z :=
  ((ymd2ord (year dt) (month dt) (day dt) - 719163) * 86400
   + hour dt * 3600 + minute dt * 60 + second dt)%Z.

End Datetime.

(** ** [json.dumps(v, indent=2, ensure_ascii=False)] and [json.loads]

    The encoder and the decoder of CPython's [json] package on the values of
    this model. *)

Module Json.
Import Py.

Definition dq : ascii := ascii_of_nat 34.     (* the double quote *)
Definition bsl : ascii := ascii_of_nat 92.    (* the backslash *)
Definition nl : string := String (ascii_of_nat 10) "".

(** *** Encoder *)

(** [ESCAPE_DCT]: the quote, the backslash and the control characters. *)
Definition escape_char (c : ascii) : string :=
  let n := nat_of_ascii c in
  if (n =? 34)%nat then String bsl (String dq "")
  else if (n =? 92)%nat then String bsl (String bsl "")
  else if (n =? 10)%nat then String bsl "n"
  else if (n =? 13)%nat then String bsl "r"
  else if (n =? 9)%nat then String bsl "t"
  else if (n =? 8)%nat then String bsl "b"
  else if (n =? 12)%nat then String bsl "f"
  else if (n <? 32)%nat then
    String bsl ("u00" ++ String (hex_digit (n / 16))
                               (String (hex_digit (n mod 16)) ""))
  else String c "".

Definition encode_str (s : string) : string :=
  String dq (str_concat_map escape_char s ++ String dq "").

Fixpoint blanks (n : nat) : string :=
  match n with
  | O => ""
  | S n' => String " " (blanks n')
  end.

(** ['\n' + indent * level] with [indent = 2] *)
Definition newline_indent (level : nat) : string := nl ++ blanks (2 * level).

(** [_iterencode] at nesting depth [level]. *)
Fixpoint encode (level : nat) (v : value) : string :=
  match v with
  | VNone => "null"
  | VBool true => "true"
  | VBool false => "false"
  | VInt n => str_of_Z n
  | VStr s => encode_str s
  | VList [] => "[]"
  | VList l =>
      "[" ++ newline_indent (S level)
          ++ join ("," ++ newline_indent (S level)) (map (encode (S level)) l)
          ++ newline_indent level ++ "]"
  | VDict [] => "{}"
  | VDict d =>
      "{" ++ newline_indent (S level)
          ++ join ("," ++ newline_indent (S level))
               (map (fun kv => encode_str (fst kv) ++ ": "
                               ++ encode (S level) (snd kv)) d)
          ++ newline_indent level ++ "}"
  end.

Definition dumps (v : value) : string := encode 0 v.

(** *** Decoder *)

Definition is_ws (c : ascii) : bool :=
  let n := nat_of_ascii c in
  (n =? 32)%nat || (n =? 9)%nat || (n =? 10)%nat || (n =? 13)%nat.

Fixpoint skip_ws (s : string) : string :=
  match s with
  | String c r => if is_ws c then skip_ws r else s
  | EmptyString => s
  end.

Definition is_digit (c : ascii) : bool :=
  let n := nat_of_ascii c in (48 <=? n)%nat && (n <=? 57)%nat.

Definition hex_val (c : ascii) : option N :=
  let n := N_of_ascii c in
  (if (48 <=? n) && (n <=? 57) then Some (n - 48)
   else if (97 <=? n) && (n <=? 102) then Some (n - 87)
   else if (65 <=? n) && (n <=? 70) then Some (n - 55)
   else None)%N.

Definition hex4 (a b c d : ascii) : option N :=
  match hex_val a, hex_val b, hex_val c, hex_val d with
  | Some x, Some y, Some z, Some w =>
      Some (((x * 16 + y) * 16 + z) * 16 + w)%N
  | _, _, _, _ => None
  end.

Definition byte (n : N) : string := String (ascii_of_N n) "".

(** The UTF-8 bytes of a code point that is not a surrogate. *)
Definition utf8 (cp : N) : string :=
  if (cp <? 128)%N then byte cp
  else if (cp <? 2048)%N then
    byte (192 + cp / 64) ++ byte (128 + cp mod 64)
  else if (cp <? 65536)%N then
    byte (224 + cp / 4096) ++ byte (128 + (cp / 64) mod 64)
      ++ byte (128 + cp mod 64)
  else
    byte (240 + cp / 262144) ++ byte (128 + (cp / 4096) mod 64)
      ++ byte (128 + (cp / 64) mod 64) ++ byte (128 + cp mod 64).

Definition is_high_surrogate (cp : N) : bool :=
  ((55296 <=? cp) && (cp <=? 56319))%N.
Definition is_low_surrogate (cp : N) : bool :=
  ((56320 <=? cp) && (cp <=? 57343))%N.

(** [BACKSLASH]: the one-letter escapes. *)
Definition unescape (e : ascii) : option ascii :=
  let n := nat_of_ascii e in
  if (n =? 34)%nat then Some dq
  else if (n =? 92)%nat then Some bsl
  else if (n =? 47)%nat then Some "/"%char
  else if (n =? 98)%nat then Some (ascii_of_nat 8)
  else if (n =? 102)%nat then Some (ascii_of_nat 12)
  else if (n =? 110)%nat then Some (ascii_of_nat 10)
  else if (n =? 114)%nat then Some (ascii_of_nat 13)
  else if (n =? 116)%nat then Some (ascii_of_nat 9)
  else None.

Definition prepend (p : string) (r : result (string * string))
  : result (string * string) :=
  match r with
  | Ok (s, rest) => Ok (p ++ s, rest)
  | Raise e => Raise e
  end.

(** [scanstring], strict: the text after the opening quote, up to and
    including the closing quote.  A surrogate that is not half of a pair has
    no UTF-8 form and is reported as outside the model where it is met; as in
    the C scanner, a pair is joined only when a character follows it. *)
Fixpoint scan_string (s : string) : result (string * string) :=
  match s with
  | EmptyString => Raise JSONDecodeError
  | String c r =>
      if Ascii.eqb c dq then Ok ("", r)
      else if Ascii.eqb c bsl then
        match r with
        | EmptyString => Raise JSONDecodeError
        | String e r1 =>
            if Ascii.eqb e "u" then
              match r1 with
              | String h1 (String h2 (String h3 (String h4 r2))) =>
                  match hex4 h1 h2 h3 h4 with
                  | None => Raise JSONDecodeError
                  | Some cp =>
                      if is_high_surrogate cp then
                        match r2 with
                        | String b (String u (String k1 (String k2
                            (String k3 (String k4 ((String _ _) as r3)))))) =>
                            if Ascii.eqb b bsl && Ascii.eqb u "u" then
                              match hex4 k1 k2 k3 k4 with
                              | None => Raise JSONDecodeError
                              | Some cp2 =>
                                  if is_low_surrogate cp2 then
                                    prepend
                                      (utf8 (65536 + (cp - 55296) * 1024
                                             + (cp2 - 56320))%N)
                                      (scan_string r3)
                                  else Raise Unsupported
                              end
                            else Raise Unsupported
                        | _ => Raise Unsupported
                        end
                      else if is_low_surrogate cp then Raise Unsupported
                      else prepend (utf8 cp) (scan_string r2)
                  end
              | _ => Raise JSONDecodeError
              end
            else
              match unescape e with
              | Some ch => prepend (String ch "") (scan_string r1)
              | None => Raise JSONDecodeError
              end
        end
      else if (nat_of_ascii c <? 32)%nat then Raise JSONDecodeError
      else prepend (String c "") (scan_string r)
  end.

(** The longest run of digits at the start of the text. *)
Fixpoint span_digits (s : string) : string * string :=
  match s with
  | String c r =>
      if is_digit c
      then let (ds, rest) := span_digits r in (String c ds, rest)
      else ("", s)
  | EmptyString => ("", "")
  end.

(** What follows the integer part makes the number a float when it is a
    fraction (a dot and a digit) or an exponent (e or E, an optional sign
    and a digit). *)
Definition starts_float_tail (s : string) : bool :=
  match s with
  | String c (String d r) =>
      (Ascii.eqb c "." && is_digit d) ||
      ((Ascii.eqb c "e" || Ascii.eqb c "E") &&
       (is_digit d ||
        ((Ascii.eqb d "+" || Ascii.eqb d "-") &&
         match r with String x _ => is_digit x | EmptyString => false end)))
  | _ => false
  end.

(** [NUMBER_RE]: an optional minus sign, then a single zero or a run of
    digits that does not start with zero, then the optional float tail.
    [None] when the text does not start a number.  A float is reported as
    outside the model where it is met. *)
Definition scan_unsigned (neg : bool) (s1 : string)
  : option (result (value * string)) :=
  match s1 with
  | String c r =>
      if is_digit c then
        let (ds, rest) :=
          if Ascii.eqb c "0" then ("0", r) else span_digits s1 in
        if starts_float_tail rest then Some (Raise Unsupported)
        else
          match NilEmpty.uint_of_string ds with
          | Some d =>
              let n := Z.of_uint d in
              Some (Ok (VInt (if neg then - n else n)%Z, rest))
          | None => Some (Raise Unsupported)
          end
      else None
  | EmptyString => None
  end.

Definition scan_number (s : string) : option (result (value * string)) :=
  match s with
  | String c r =>
      if Ascii.eqb c "-" then scan_unsigned true r else scan_unsigned false s
  | EmptyString => None
  end.

(** [s.startswith(p)], with the rest of the text. *)
Fixpoint strip_prefix (p s : string) : option string :=
  match p, s with
  | EmptyString, _ => Some s
  | String a p', String b s' =>
      if Ascii.eqb a b then strip_prefix p' s' else None
  | String _ _, EmptyString => None
  end.

(** [dict(pairs)]: a later pair of the same key replaces the value. *)
Definition dict_of_pairs (pairs : list (string * value)) : dict :=
  fold_left (fun d kv => dict_set (fst kv) (snd kv) d) pairs [].

(** [scan_once], [JSONArray] and [JSONObject].  A character is consumed
    at least every second call, so [loads] gives twice the length of the
    text as fuel; running out of fuel is reported as outside the model. *)
Fixpoint parse_value (fuel : nat) (s : string) {struct fuel}
  : result (value * string) :=
  match fuel with
  | O => Raise Unsupported
  | S f =>
      match s with
      | EmptyString => Raise JSONDecodeError
      | String c r =>
          if Ascii.eqb c dq then
            bind (scan_string r) (fun '(str, rest) => Ok (VStr str, rest))
          else if Ascii.eqb c "{" then
            match skip_ws r with
            | String c1 r1 =>
                if Ascii.eqb c1 "}" then Ok (VDict [], r1)
                else if Ascii.eqb c1 dq then
                  bind (parse_members f r1)
                       (fun '(pairs, rest) => Ok (VDict (dict_of_pairs pairs), rest))
                else Raise JSONDecodeError
            | EmptyString => Raise JSONDecodeError
            end
          else if Ascii.eqb c "[" then
            match skip_ws r with
            | String c1 r1 =>
                if Ascii.eqb c1 "]" then Ok (VList [], r1)
                else
                  bind (parse_elements f (String c1 r1))
                       (fun '(vs, rest) => Ok (VList vs, rest))
            | EmptyString => Raise JSONDecodeError
            end
          else
            match strip_prefix "null" s, strip_prefix "true" s,
                  strip_prefix "false" s with
            | Some rest, _, _ => Ok (VNone, rest)
            | _, Some rest, _ => Ok (VBool true, rest)
            | _, _, Some rest => Ok (VBool false, rest)
            | None, None, None =>
                match scan_number s with
                | Some res => res
                | None =>
                    match strip_prefix "NaN" s, strip_prefix "Infinity" s,
                          strip_prefix "-Infinity" s with
                    | None, None, None => Raise JSONDecodeError
                    | _, _, _ => Raise Unsupported
                    end
                end
            end
      end
  end

(** The elements of an array, from the start of an element to the closing
    bracket. *)
with parse_elements (fuel : nat) (s : string) {struct fuel}
  : result (list value * string) :=
  match fuel with
  | O => Raise Unsupported
  | S f =>
      bind (parse_value f s) (fun '(v, s1) =>
      match skip_ws s1 with
      | String c r =>
          if Ascii.eqb c "]" then Ok ([v], r)
          else if Ascii.eqb c "," then
            bind (parse_elements f (skip_ws r))
                 (fun '(vs, rest) => Ok (v :: vs, rest))
          else Raise JSONDecodeError
      | EmptyString => Raise JSONDecodeError
      end)
  end

(** The members of an object, from just after the opening quote of a key to
    the closing brace. *)
with parse_members (fuel : nat) (s : string) {struct fuel}
  : result (list (string * value) * string) :=
  match fuel with
  | O => Raise Unsupported
  | S f =>
      bind (scan_string s) (fun '(key, s1) =>
      match skip_ws s1 with
      | String c r =>
          if Ascii.eqb c ":" then
            bind (parse_value f (skip_ws r)) (fun '(v, s2) =>
            match skip_ws s2 with
            | String c2 r2 =>
                if Ascii.eqb c2 "}" then Ok ([(key, v)], r2)
                else if Ascii.eqb c2 "," then
                  match skip_ws r2 with
                  | String c3 r3 =>
                      if Ascii.eqb c3 dq then
                        bind (parse_members f r3)
                             (fun '(ps, rest) => Ok ((key, v) :: ps, rest))
                      else Raise JSONDecodeError
                  | EmptyString => Raise JSONDecodeError
                  end
                else Raise JSONDecodeError
            | EmptyString => Raise JSONDecodeError
            end)
          else Raise JSONDecodeError
      | EmptyString => Raise JSONDecodeError
      end)
  end.

(** [json.loads]: blanks, one value, blanks, end of text. *)
Definition loads (s : string) : result value :=
  bind (parse_value (2 * String.length s + 2) (skip_ws s)) (fun '(v, rest) =>
  match skip_ws rest with
  | EmptyString => Ok v
  | String _ _ => Raise JSONDecodeError
  end).

End Json.

(** ** The functions of [bot.py] *)

Module Bot.
Import Py Datetime.

Notation "x <- e ;; k" := (bind e (fun x => k))
  (at level 61, e at next level, right associativity).
Notation "' p <- e ;; k" := (bind e (fun p => k))
  (at level 61, p pattern, e at next level, right associativity).

Definition nl : string := Json.nl.

(** [d.get(k)] on a value known to be a dictionary. *)
Definition dget (d : dict) (k : string) : value :=
  match dict_get k d with Some x => x | None => VNone end.

(** *** Snapshot store

    The world the bot acts on: the file [events_db.json] ([None] when it
    does not exist) and the payloads posted to the webhook, oldest first. *)
Record world : Type := mk_world
  { db_file : option string; posted : list value }.

(** [load_db]: a missing file and a [JSONDecodeError] both give the empty
    dictionary. *)
Definition load_db (w : world) : result value :=
  match db_file w with
  | None => Ok (VDict [])
  | Some text =>
      match Json.loads text with
      | Ok v => Ok v
      | Raise JSONDecodeError => Ok (VDict [])
      | Raise e => Raise e
      end
  end.

(** [save_db]: the file is overwritten with the encoded data. *)
Definition save_db (data : value) (w : world) : world :=
  mk_world (Some (Json.dumps data)) (posted w).

(** *** Source fetcher *)

(** What [requests.get] does: it raises a [RequestException] or returns a
    response with a status code and a body. *)
Inductive http_result : Type :=
| RequestException
| Response (status_code : Z) (text : string).

(** The dictionary comprehension [{str(ev["id"]): ev for ev in events}]. *)
Fixpoint index_by_id (events : list value) (acc : dict) : result dict :=
  match events with
  | [] => Ok acc
  | ev :: rest =>
      id <- py_getitem ev "id" ;;
      index_by_id rest (dict_set (py_str id) ev acc)
  end.

(** [fetch_events].  The two debug prints that can raise are kept as the
    calls they make: [data.keys()] and [len(data['response'])]. *)
Definition fetch_events (r : http_result) : result value :=
  match r with
  | RequestException => Ok (VDict [])
  | Response status_code text =>
      if negb (status_code =? 200)%Z then Ok (VDict [])
      else
        match Json.loads text with
        | Raise JSONDecodeError => Ok (VDict [])
        | Raise e => Raise e
        | Ok data =>
            _ <- py_items data ;;
            error <- py_get data "error" ;;
            response <- py_get data "response" ;;
            if negb (truthy error) && truthy response then
              _ <- py_len response ;;
              match response with
              | VList events =>
                  d <- index_by_id events [] ;; Ok (VDict d)
              | _ => Raise TypeError
              end
            else Ok (VDict [])
        end
  end.

(** *** Timestamp rendering *)

(** [discord_timestamp(dt_str, style)]: every exception of the body is
    caught (a [TypeError] when [dt_str] is not a string, a [ValueError] when
    it does not parse) and [dt_str] is handed back. *)
Definition discord_timestamp (dt_str : value) (style : string) : value :=
  match dt_str with
  | VStr s =>
      match strptime s with
      | Some dt =>
          let unix_ts := timestamp dt in
          VStr ("<t:" ++ str_of_Z unix_ts ++ ":" ++ style ++ ">")
      | None => dt_str
      end
  | _ => dt_str
  end.

(** *** Diff engine *)

(** The field-level diff: label to (old, new), in insertion order. *)
Definition diff_map : Type := list (string * (value * value)).

Definition fields_to_check : list (string * string) :=
  [("name", "Name");
   ("start_at", "Start Time");
   ("meetup_at", "Meetup Time");
   ("server", "Server");
   ("map", "Map");
   ("banner", "Banner");
   ("departure", "Start Location");
   ("arrive", "End Location");
   ("description", "Description")].

Definition norm_server (v : value) : value :=
  match v with
  | VDict d => dget d "name"
  | _ => v
  end.

Definition norm_location (v : value) : value :=
  match v with
  | VDict d =>
      VStr (py_str (dget d "city") ++ " (" ++ py_str (dget d "location") ++ ")")
  | _ => v
  end.

Definition norm_time (v : value) : value :=
  if truthy v then discord_timestamp v "F" else v.

(** The three normalisation blocks of the loop body, in source order. *)
Definition normalize (key : string) (v : value) : value :=
  let v := if key =? "server" then norm_server v else v in
  let v := if (key =? "departure") || (key =? "arrive")
           then norm_location v else v in
  let v := if (key =? "start_at") || (key =? "meetup_at")
           then norm_time v else v in
  v.

(** One iteration of the loop of [compare_events].  The [print] of the
    description branch is kept as the two subscripts its f-string
    evaluates, which can raise [KeyError]. *)
Definition compare_field (old_event new_event : value) (key label : string)
    (diffs : diff_map) : result diff_map :=
  old_val <- py_get old_event key ;;
  new_val <- py_get new_event key ;;
  let old_val := normalize key old_val in
  let new_val := normalize key new_val in
  if key =? "description" then
    if py_ne old_val new_val then
      _ <- py_getitem new_event "id" ;;
      _ <- py_getitem new_event "name" ;;
      Ok (dict_set label (old_val, new_val) diffs)
    else Ok diffs
  else
    if py_ne old_val new_val
    then Ok (dict_set label (old_val, new_val) diffs)
    else Ok diffs.

Fixpoint compare_loop (old_event new_event : value)
    (fields : list (string * string)) (diffs : diff_map) : result diff_map :=
  match fields with
  | [] => Ok diffs
  | (key, label) :: rest =>
      diffs' <- compare_field old_event new_event key label diffs ;;
      compare_loop old_event new_event rest diffs'
  end.

Definition compare_events (old_event new_event : value) : result diff_map :=
  compare_loop old_event new_event fields_to_check [].

(** A change record is the tuple [(change_type, event, diffs)]. *)
Definition change : Type := string * value * option diff_map.

(** First loop of [detect_changes], over [new_db.items()]. *)
Fixpoint scan_new (old_db : value) (items : dict) (changes : list change)
  : result (list change) :=
  match items with
  | [] => Ok changes
  | (event_id, event) :: rest =>
      present <- py_contains old_db event_id ;;
      if negb present then
        scan_new old_db rest (changes ++ [("created", event, None)])%list
      else
        old_event <- py_getitem old_db event_id ;;
        diffs <- compare_events old_event event ;;
        match diffs with
        | _ :: _ =>
            scan_new old_db rest
                     (changes ++ [("updated", event, Some diffs)])%list
        | [] => scan_new old_db rest changes
        end
  end.

(** Second loop, over [old_db.items()]. *)
Fixpoint scan_old (new_db : value) (items : dict) (changes : list change)
  : result (list change) :=
  match items with
  | [] => Ok changes
  | (event_id, event) :: rest =>
      present <- py_contains new_db event_id ;;
      if negb present then
        scan_old new_db rest (changes ++ [("removed", event, None)])%list
      else scan_old new_db rest changes
  end.

Definition detect_changes (old_db new_db : value) : result (list change) :=
  new_items <- py_items new_db ;;
  changes <- scan_new old_db new_items [] ;;
  old_items <- py_items old_db ;;
  scan_old new_db old_items changes.

(** The same two loops, each record paired with the loop variable
    [event_id] it was appended under.  [detect_changes] forgets the
    pairing (lemma [detect_changes_ids_erase]). *)
Fixpoint scan_new_ids (old_db : value) (items : dict)
    (changes : list (string * change)) : result (list (string * change)) :=
  match items with
  | [] => Ok changes
  | (event_id, event) :: rest =>
      present <- py_contains old_db event_id ;;
      if negb present then
        scan_new_ids old_db rest
          (changes ++ [(event_id, ("created", event, None))])%list
      else
        old_event <- py_getitem old_db event_id ;;
        diffs <- compare_events old_event event ;;
        match diffs with
        | _ :: _ =>
            scan_new_ids old_db rest
              (changes ++ [(event_id, ("updated", event, Some diffs))])%list
        | [] => scan_new_ids old_db rest changes
        end
  end.

Fixpoint scan_old_ids (new_db : value) (items : dict)
    (changes : list (string * change)) : result (list (string * change)) :=
  match items with
  | [] => Ok changes
  | (event_id, event) :: rest =>
      present <- py_contains new_db event_id ;;
      if negb present then
        scan_old_ids new_db rest
          (changes ++ [(event_id, ("removed", event, None))])%list
      else scan_old_ids new_db rest changes
  end.

Definition detect_changes_ids (old_db new_db : value)
  : result (list (string * change)) :=
  new_items <- py_items new_db ;;
  changes <- scan_new_ids old_db new_items [] ;;
  old_items <- py_items old_db ;;
  scan_old_ids new_db old_items changes.

(** *** Notifier *)

(** [event[a][b]] *)
Definition getitem2 (event : value) (a b : string) : result value :=
  x <- py_getitem event a ;; py_getitem x b.

(** The line of the Changes field for one entry of [diffs]. *)
Definition diff_line (entry : string * (value * value)) : string :=
  let '(field, (old, new)) := entry in
  if field =? "Description" then "📝 **Description changed**"
  else "**" ++ field ++ ":** `" ++ py_str old ++ "` -> `" ++ py_str new ++ "`".

Definition field (name : string) (v : string) (inline : bool) : value :=
  VDict [("name", VStr name); ("value", VStr v); ("inline", VBool inline)].

(** The field appended for an update with a non-empty [diffs]. *)
Definition changes_field (diffs : diff_map) : value :=
  let diff_text := join nl (map diff_line diffs) in
  field "🔧 Changes" (if diff_text =? "" then "No details" else diff_text)
        false.

(** What the last block of [build_embed] appends to the fields: the
    Changes field, for an update with a non-empty [diffs]. *)
Definition appended_fields (change_type : string) (diffs : option diff_map)
  : list value :=
  match diffs with
  | Some ((_ :: _) as ds) =>
      if change_type =? "updated" then [changes_field ds] else []
  | _ => []
  end.

(** [build_embed(event, change_type, diffs)]; [utcnow] is the text of
    [datetime.utcnow().isoformat()]. *)
Definition build_embed (utcnow : string) (event : value)
    (change_type : string) (diffs : option diff_map) : result value :=
  meetup_at <- py_get event "meetup_at" ;;
  meetup_time <-
    (if truthy meetup_at
     then (v <- py_getitem event "meetup_at" ;; Ok (discord_timestamp v "F"))
     else Ok (VStr "Not specified")) ;;
  start_at <- py_get event "start_at" ;;
  departure_time <-
    (if truthy start_at
     then (v <- py_getitem event "start_at" ;; Ok (discord_timestamp v "F"))
     else Ok (VStr "Not specified")) ;;
  start_raw <- py_getitem event "start_at" ;;
  let event_date := discord_timestamp start_raw "F" in
  dep_city <- getitem2 event "departure" "city" ;;
  dep_loc <- getitem2 event "departure" "location" ;;
  let start_location := py_str dep_city ++ " (" ++ py_str dep_loc ++ ")" in
  arr_city <- getitem2 event "arrive" "city" ;;
  arr_loc <- getitem2 event "arrive" "location" ;;
  let end_location := py_str arr_city ++ " (" ++ py_str arr_loc ++ ")" in
  name <- py_getitem event "name" ;;
  let '(title, color) :=
    if change_type =? "created"
    then ("🆕 Event Added: **" ++ py_str name ++ "**", 3066993%Z)
    else if change_type =? "removed"
    then ("❌ Event Removed: **" ++ py_str name ++ "**", 15158332%Z)
    else ("🔄 Event Updated: **" ++ py_str name ++ "**", 15105570%Z) in
  url <- py_getitem event "url" ;;
  vtc_name <- getitem2 event "vtc" "name" ;;
  game <- py_getitem event "game" ;;
  url' <- py_getitem event "url" ;;
  server_name <- getitem2 event "server" "name" ;;
  map_url <- py_get_default event "map" (VStr "") ;;
  banner_url <- py_get_default event "banner" (VStr "") ;;
  id <- py_getitem event "id" ;;
  let fields :=
    [field "📅 Date" (py_str event_date) false;
     field "🕒 Meetup Time" (py_str meetup_time) true;
     field "🚦 Departure Time" (py_str departure_time) true;
     field "🌍 Server" ("**" ++ py_str server_name ++ "**") false;
     field "🚩 Start Location" start_location false;
     field "🏁 End Location" end_location false] in
  let fields := (fields ++ appended_fields change_type diffs)%list in
  Ok (VDict
        [("username", VStr "TruckersMP Events Bot");
         ("embeds",
          VList
            [VDict
               [("title", VStr title);
                ("url", VStr ("https://truckersmp.com" ++ py_str url));
                ("color", VInt color);
                ("description",
                 VStr ("✨ **Organized by:** " ++ py_str vtc_name ++ nl
                       ++ "🎮 **Game:** " ++ py_str game ++ nl
                       ++ "🔗 [View Event on TruckersMP](https://truckersmp.com"
                       ++ py_str url' ++ ")"));
                ("fields", VList fields);
                ("image", VDict [("url", map_url)]);
                ("thumbnail", VDict [("url", banner_url)]);
                ("footer",
                 VDict [("text",
                         VStr ("Event ID: " ++ py_str id
                               ++ " | TruckersMP API"))]);
                ("timestamp", VStr utcnow)]])]).

(** [send_to_discord]: the payload is built outside the [try]; the post is
    recorded whatever its outcome, which only changes what is printed. *)
Definition send_to_discord (utcnow : string) (event : value)
    (change_type : string) (diffs : option diff_map) (w : world)
  : result unit * world :=
  match build_embed utcnow event change_type diffs with
  | Ok embed => (Ok tt, mk_world (db_file w) (posted w ++ [embed])%list)
  | Raise e => (Raise e, w)
  end.

(** *** Lifecycle loop *)

(** [for change_type, event, diffs in changes: send_to_discord(...)].
    [clock n] is the text [utcnow] gives when [n] payloads have been
    posted. *)
Fixpoint notify_all (clock : nat -> string) (changes : list change)
    (w : world) : result unit * world :=
  match changes with
  | [] => (Ok tt, w)
  | (change_type, event, diffs) :: rest =>
      match send_to_discord (clock (List.length (posted w)))
                            event change_type diffs w with
      | (Ok _, w') => notify_all clock rest w'
      | (Raise e, w') => (Raise e, w')
      end
  end.

(** The start of [main], before the loop.  The debug print is kept as the
    two calls it makes, [len(old_db)] and [len(new_db)]. *)
Definition bootstrap (clock : nat -> string) (r : http_result) (w : world)
  : result unit * world :=
  match load_db w with
  | Raise e => (Raise e, w)
  | Ok old_db =>
      match fetch_events r with
      | Raise e => (Raise e, w)
      | Ok new_db =>
          match (_ <- py_len old_db ;; py_len new_db) with
          | Raise e => (Raise e, w)
          | Ok _ =>
              if negb (truthy old_db) then (Ok tt, save_db new_db w)
              else
                match detect_changes old_db new_db with
                | Raise e => (Raise e, w)
                | Ok changes =>
                    match notify_all clock changes w with
                    | (Raise e, w') => (Raise e, w')
                    | (Ok _, w') =>
                        match changes with
                        | _ :: _ => (Ok tt, save_db new_db w')
                        | [] => (Ok tt, w')
                        end
                    end
                end
          end
      end
  end.

(** One iteration of the [while True] loop, from [load_db] to [save_db]. *)
Definition poll_cycle (clock : nat -> string) (r : http_result) (w : world)
  : result unit * world :=
  match load_db w with
  | Raise e => (Raise e, w)
  | Ok old_db =>
      match fetch_events r with
      | Raise e => (Raise e, w)
      | Ok new_db =>
          match detect_changes old_db new_db with
          | Raise e => (Raise e, w)
          | Ok changes =>
              match changes with
              | _ :: _ =>
                  match notify_all clock changes w with
                  | (Raise e, w') => (Raise e, w')
                  | (Ok _, w') => (Ok tt, save_db new_db w')
                  end
              | [] => (Ok tt, w)
              end
          end
      end
  end.

End Bot.

(** ** Vocabulary of the properties *)

Module Spec.
Import Py Datetime Bot.

(** Forgetting the ids of a list of paired records. *)
Definition erase {A} (r : result (list (string * A))) : result (list A) :=
  match r with
  | Ok l => Ok (map snd l)
  | Raise e => Raise e
  end.

(** The record the first loop appends for one item of [new_db], with the
    id it belongs to: nothing when the field diff is empty or raises. *)
Definition new_side_ids (old : dict) (kv : string * value)
  : list (string * change) :=
  let '(k, ev) := kv in
  if negb (dict_mem k old) then [(k, ("created", ev, None))]
  else
    match compare_events (dget old k) ev with
    | Ok ((_ :: _) as ds) => [(k, ("updated", ev, Some ds))]
    | _ => []
    end.

(** The record the second loop appends for one item of [old_db]. *)
Definition old_side_ids (new : dict) (kv : string * value)
  : list (string * change) :=
  let '(k, ev) := kv in
  if negb (dict_mem k new) then [(k, ("removed", ev, None))] else [].

Definition new_side (old : dict) (kv : string * value) : list change :=
  map snd (new_side_ids old kv).

Definition old_side (new : dict) (kv : string * value) : list change :=
  map snd (old_side_ids new kv).

Definition kind_of (c : change) : string := fst (fst c).
Definition event_of (c : change) : value := snd (fst c).
Definition diffs_of (c : change) : option diff_map := snd c.

(** The record of a removal. *)
Definition removed (kv : string * value) : change :=
  ("removed", snd kv, None).

(** What a record says about its id. *)
Definition record_ok (old new : dict) (kc : string * change) : Prop :=
  let '(k, c) := kc in
  (kind_of c = "created" /\ dict_mem k old = false /\
   In (k, event_of c) new /\ diffs_of c = None) \/
  (kind_of c = "updated" /\ dict_mem k old = true /\
   In (k, event_of c) new /\
   exists ds, diffs_of c = Some ds /\ ds <> [] /\
              compare_events (dget old k) (event_of c) = Ok ds) \/
  (kind_of c = "removed" /\ dict_mem k new = false /\
   In (k, event_of c) old /\ diffs_of c = None).

(** An event the notifier and the description log can name: a dictionary
    with the keys [id] and [name]. *)
Definition is_event (v : value) : bool :=
  match v with
  | VDict d => dict_mem "id" d && dict_mem "name" d
  | _ => false
  end.

(** The entry of the field diff for one tracked field. *)
Definition field_entry (o n : dict) (kl : string * string)
  : list (string * (value * value)) :=
  let '(key, label) := kl in
  let old_val := normalize key (dget o key) in
  let new_val := normalize key (dget n key) in
  if py_ne old_val new_val then [(label, (old_val, new_val))] else [].

(** Two events agree on the tracked fields as [compare_events] reads
    them: under each tracked key the two normalised values are equal by
    [==]. *)
Definition same_tracked (eo en : value) : Prop :=
  exists o n, eo = VDict o /\ en = VDict n /\
    forall key label, In (key, label) fields_to_check ->
      py_eq (normalize key (dget o key)) (normalize key (dget n key)) = true.


(** Fuel that lets the decoder read back the encoding of a value. *)
Fixpoint fuel_needed (v : value) : nat :=
  match v with
  | VList l =>
      S ((fix sum (l : list value) : nat :=
            match l with
            | [] => 0
            | x :: r => S (fuel_needed x + sum r)
            end) l)
  | VDict d =>
      S ((fix sum (d : list (string * value)) : nat :=
            match d with
            | [] => 0
            | (_, x) :: r => S (fuel_needed x + sum r)
            end) d)
  | _ => 1
  end.

(** What the encoder writes after a value: nothing, a comma or a line
    break. *)
Definition terminated (rest : string) : bool :=
  match rest with
  | EmptyString => true
  | String c _ => Ascii.eqb c "," || Ascii.eqb c (ascii_of_nat 10)
  end.

(** The first character of a decimal numeral is a digit or the sign. *)
Definition starts_number (s : string) : bool :=
  match s with
  | String c _ => Json.is_digit c || Ascii.eqb c "-"
  | EmptyString => false
  end.

(** The fuel for the elements of an array and the members of an object. *)
Definition fuel_elems (l : list value) : nat :=
  fold_right (fun x acc => S (fuel_needed x + acc)) 0 l.

Definition fuel_members (d : dict) : nat :=
  fold_right (fun kv acc => S (fuel_needed (snd kv) + acc)) 0 d.

(** The text starts like an encoded value: not with a blank and not with a
    closing bracket. *)
Definition value_head (s : string) : bool :=
  match s with
  | String c _ => negb (Json.is_ws c) && negb (Ascii.eqb c "]")
  | EmptyString => false
  end.

(** One member of an object as the encoder writes it. *)
Definition member_text (level : nat) (kv : string * value) : string :=
  Json.encode_str (fst kv) ++ ": " ++ Json.encode (S level) (snd kv).

(** The decoder reads back the encoding of [x], at any depth and before
    any text the encoder can write next. *)
Definition reads_back (x : value) : Prop :=
  forall level fuel rest,
    wf_value x -> fuel_needed x <= fuel -> terminated rest = true ->
    Json.parse_value fuel (Json.encode level x ++ rest) = Ok (x, rest).

(** The fields of the payload [build_embed] returns. *)
Definition embed_fields (embed : value) : result value :=
  match py_getitem embed "embeds" with
  | Ok (VList (e :: _)) => py_getitem e "fields"
  | Ok _ => Raise TypeError
  | Raise e => Raise e
  end.

(** The fetch failed: the request raised, the status is not 200, or the
    body is not JSON. *)
Definition fetch_failed (r : http_result) : Prop :=
  match r with
  | RequestException => True
  | Response status_code text =>
      status_code <> 200%Z \/ Json.loads text = Raise JSONDecodeError
  end.

End Spec.

(** ** Sample events and snapshots *)

Module Examples.
Import Py Bot.

Definition place (city location : string) : value :=
  VDict [("city", VStr city); ("location", VStr location)].

(** An event as the API lists it, without [meetup_at]. *)
Definition event_fields (id : Z) (name start_at description : string)
  : dict :=
  [("id", VInt id); ("name", VStr name); ("start_at", VStr start_at);
   ("departure", place "Paris" "Depot"); ("arrive", place "Rome" "Port");
   ("url", VStr "/events/1"); ("vtc", VDict [("name", VStr "ATM")]);
   ("game", VStr "ETS2"); ("server", VDict [("name", VStr "Simulation 1")]);
   ("description", VStr description)].

Definition event (id : Z) (name start_at description : string) : value :=
  VDict (event_fields id name start_at description).

Definition evA : value := event 1 "X" "2024-01-01 10:00:00" "old text".
Definition evA' : value := event 1 "X" "2024-01-01 10:00:00" "new text".
Definition evB : value := event 2 "Y" "2024-02-01 18:30:00" "convoy".
Definition evC : value := event 3 "Z" "2024-03-01 18:30:00" "night run".

(** An event without [start_at]. *)
Definition no_start_fields : dict :=
  [("id", VInt 4); ("name", VStr "W");
   ("departure", place "Paris" "Depot"); ("arrive", place "Rome" "Port");
   ("url", VStr "/events/4"); ("vtc", VDict [("name", VStr "ATM")]);
   ("game", VStr "ETS2"); ("server", VDict [("name", VStr "Simulation 1")])].

Definition ev_no_start : value := VDict no_start_fields.

(** [evA] with the same tracked fields, another key order and other
    values under the keys that are not tracked. *)
Definition evA_elsewhere : value :=
  VDict
    [("name", VStr "X"); ("id", VInt 1);
     ("description", VStr "old text");
     ("start_at", VStr "2024-01-01 10:00:00");
     ("arrive", place "Rome" "Port"); ("departure", place "Paris" "Depot");
     ("url", VStr "/events/1-renamed"); ("vtc", VDict [("name", VStr "VTC")]);
     ("game", VStr "ATS"); ("server", VDict [("name", VStr "Simulation 1")])].

(** [evA] with its start written without the leading zeros, and one second
    later. *)
Definition evA_short : value := event 1 "X" "2024-1-1 10:0:0" "old text".
Definition evA_later : value := event 1 "X" "2024-01-01 10:00:01" "old text".

Definition clock0 : nat -> string := fun _ => "2024-01-01T00:00:00".



End Examples.

(** ** Vocabulary of the further properties *)

Module Behaviour.
Import Py Datetime Bot Spec.

(** The record of a creation. *)
Definition created (kv : string * value) : change :=
  ("created", snd kv, None).

(** An event of a snapshot: a dictionary in which no dictionary holds a
    key twice. *)
Definition wf_event (v : value) : Prop :=
  exists o, v = VDict o /\ wf_value (VDict o).

(** The text a location object is compared by. *)
Definition display (d : dict) : string :=
  py_str (dget d "city") ++ " (" ++ py_str (dget d "location") ++ ")".

(** The display text of the location object is modelled exactly. *)
Definition exact_display (d : dict) : bool :=
  str_exact (dget d "city") && str_exact (dget d "location").

(** [event[a][b]] can be evaluated. *)
Definition has2 (d : dict) (a b : string) : bool :=
  match dict_get a d with
  | Some (VDict x) => dict_mem b x
  | _ => false
  end.

(** The subscripts [build_embed] evaluates, in the order it evaluates
    them. *)
Definition notifiable (d : dict) : bool :=
  dict_mem "start_at" d
  && has2 d "departure" "city" && has2 d "departure" "location"
  && has2 d "arrive" "city" && has2 d "arrive" "location"
  && dict_mem "name" d && dict_mem "url" d
  && has2 d "vtc" "name" && dict_mem "game" d
  && has2 d "server" "name" && dict_mem "id" d.

(** What [fetch_events] returns: each key once, and under each key an
    event whose [id], as text, is the key. *)
Definition keyed_by_id (d : dict) : Prop :=
  NoDup (keys d) /\
  forall k ev, In (k, ev) d ->
    exists fields id, ev = VDict fields /\
                      dict_get "id" fields = Some id /\ k = py_str id.

(** The text of a date and time in the fixed format, zero padded. *)
Definition digit_char (n : Z) : ascii := ascii_of_nat (48 + Z.to_nat n).

Definition pad2 (n : Z) : string :=
  String (digit_char (n / 10)) (String (digit_char (n mod 10)) "").

Definition pad4 (n : Z) : string :=
  String (digit_char (n / 1000))
    (String (digit_char ((n / 100) mod 10)) (pad2 (n mod 100))).

Definition padded_text (dt : datetime) : string :=
  pad4 (year dt) ++ "-" ++ pad2 (month dt) ++ "-" ++ pad2 (day dt) ++ " "
  ++ pad2 (hour dt) ++ ":" ++ pad2 (minute dt) ++ ":" ++ pad2 (second dt).

(** [evA] under another server object with the same name, and with its
    [map] given as [null]. *)
Definition evA_other_server : value :=
  VDict
    [("id", VInt 1); ("name", VStr "X");
     ("start_at", VStr "2024-01-01 10:00:00");
     ("departure", Examples.place "Paris" "Depot");
     ("arrive", Examples.place "Rome" "Port");
     ("url", VStr "/events/1"); ("vtc", VDict [("name", VStr "ATM")]);
     ("game", VStr "ETS2");
     ("server", VDict [("id", VInt 9); ("name", VStr "Simulation 1")]);
     ("map", VNone);
     ("description", VStr "old text")].

(** Two events whose departure objects differ and display alike. *)
Definition loc1_fields : dict :=
  [("id", VInt 5); ("name", VStr "L");
   ("departure", Examples.place "Lyon (Gare" "Sud")].

Definition loc2_fields : dict :=
  [("id", VInt 5); ("name", VStr "L");
   ("departure", Examples.place "Lyon" "Gare (Sud")].

(** A change record [send_to_discord] can build the payload of. *)
Definition sendable (c : change) : bool :=
  match event_of c with
  | VDict d => notifiable d
  | _ => false
  end.

(** The exceptions of a subscript. *)
Definition lookup_error (e : exn) : Prop :=
  e = TypeError \/ exists k, e = KeyError k.

(** A group put in front of the groups of the rest of a match. *)
Definition with_group (g : string) (r : option (list string * string))
  : option (list string * string) :=
  match r with
  | Some (gs, rest) => Some (g :: gs, rest)
  | None => None
  end.

End Behaviour.

(** ** Properties *)

Import Py Datetime Bot Spec.

(** *** Dictionaries *)

Lemma dict_mem_get {A} (k : string) (d : list (string * A)) :
  dict_mem k d = true -> exists v, dict_get k d = Some v.
Proof.
  unfold dict_mem. destruct (dict_get k d); [eauto | discriminate].
Qed.

Lemma dict_get_In {A} (k : string) (v : A) (d : list (string * A)) :
  dict_get k d = Some v -> In (k, v) d.
Proof.
  induction d as [|[k' v'] r IH]; simpl; [discriminate|].
  destruct (String.eqb_spec k k') as [->|_].
  - intros [= ->]. now left.
  - intros H. right. auto.
Qed.

Lemma dict_mem_In {A} (k : string) (d : list (string * A)) :
  dict_mem k d = true <-> In k (map fst d).
Proof.
  unfold dict_mem.
  induction d as [|[k' v'] r IH]; simpl.
  - split; [discriminate | tauto].
  - destruct (String.eqb_spec k k') as [->|Hne].
    + split; auto.
    + rewrite IH. split; [auto | intros [H|H]; congruence].
Qed.

Lemma dict_mem_false_In {A} (k : string) (d : list (string * A)) :
  dict_mem k d = false <-> ~ In k (map fst d).
Proof.
  rewrite <- dict_mem_In. destruct (dict_mem k d); split; congruence.
Qed.

Lemma In_dict_get_NoDup {A} (k : string) (v : A) (d : list (string * A)) :
  NoDup (map fst d) -> In (k, v) d -> dict_get k d = Some v.
Proof.
  induction d as [|[k' v'] r IH]; simpl; [tauto|].
  intros Hnd [H|H].
  - injection H as -> ->. now rewrite String.eqb_refl.
  - inversion Hnd as [|? ? Hnot Hnd']; subst.
    destruct (String.eqb_spec k k') as [->|_]; [|auto].
    exfalso. apply Hnot. change k' with (fst (k', v)). now apply in_map.
Qed.

Lemma dict_set_fresh {A} (k : string) (v : A) (d : list (string * A)) :
  dict_mem k d = false -> dict_set k v d = (d ++ [(k, v)])%list.
Proof.
  unfold dict_mem.
  induction d as [|[k' v'] r IH]; simpl; [reflexivity|].
  destruct (String.eqb_spec k k'); [discriminate|].
  intros H. now rewrite IH.
Qed.

Lemma dict_mem_app {A} (k : string) (d1 d2 : list (string * A)) :
  dict_mem k (d1 ++ d2) = dict_mem k d1 || dict_mem k d2.
Proof.
  unfold dict_mem.
  induction d1 as [|[k' v'] r IH]; simpl; [reflexivity|].
  destruct (String.eqb k k'); [reflexivity | exact IH].
Qed.

(** *** The two loops of [detect_changes] *)

Section DiffLoops.

Variables old new : dict.

Lemma scan_old_ids_spec (items : dict) (acc : list (string * change)) :
  scan_old_ids (VDict new) items acc
  = Ok (acc ++ flat_map (old_side_ids new) items)%list.
Proof.
  revert acc. induction items as [|[k ev] r IH]; intros acc; simpl.
  - now rewrite app_nil_r.
  - destruct (dict_mem k new); simpl; rewrite IH; [reflexivity|].
    now rewrite <- app_assoc.
Qed.

(** The first loop either returns what [new_side_ids] lists, or stops at
    the first field diff that raises. *)
Lemma scan_new_ids_spec (items : dict) (acc : list (string * change)) :
  match scan_new_ids (VDict old) items acc with
  | Ok cs => cs = (acc ++ flat_map (new_side_ids old) items)%list
  | Raise e =>
      exists k ev, In (k, ev) items /\ dict_mem k old = true /\
                   compare_events (dget old k) ev = Raise e
  end.
Proof.
  revert acc. induction items as [|[k ev] r IH]; intros acc; simpl.
  - now rewrite app_nil_r.
  - destruct (dict_mem k old) eqn:Hm; simpl.
    + unfold dget. destruct (dict_mem_get _ _ Hm) as [eo Heo].
      rewrite Heo. simpl.
      destruct (compare_events eo ev) as [[|d ds]|e] eqn:Hc; simpl.
      * specialize (IH acc).
        destruct (scan_new_ids (VDict old) r acc); [exact IH|].
        destruct IH as (k' & ev' & Hin & H). exists k', ev'. tauto.
      * specialize (IH (acc ++ [(k, ("updated", ev, Some (d :: ds)))])%list).
        destruct (scan_new_ids (VDict old) r _).
        -- now rewrite IH, <- app_assoc.
        -- destruct IH as (k' & ev' & Hin & H). exists k', ev'. tauto.
      * exists k, ev. unfold dget. rewrite Heo. auto.
    + specialize (IH (acc ++ [(k, ("created", ev, None))])%list).
      destruct (scan_new_ids (VDict old) r _).
      * now rewrite IH, <- app_assoc.
      * destruct IH as (k' & ev' & Hin & H). exists k', ev'. tauto.
Qed.

(** When every field diff returns, so does the loop. *)
Lemma scan_new_ids_total (items : dict) (acc : list (string * change)) :
  (forall k ev, In (k, ev) items -> dict_mem k old = true ->
                exists ds, compare_events (dget old k) ev = Ok ds) ->
  scan_new_ids (VDict old) items acc
  = Ok (acc ++ flat_map (new_side_ids old) items)%list.
Proof.
  intros Hok. pose proof (scan_new_ids_spec items acc) as H.
  destruct (scan_new_ids (VDict old) items acc) as [cs|e]; [now subst|].
  destruct H as (k & ev & Hin & Hm & Hc).
  destruct (Hok k ev Hin Hm) as [ds Hds]. congruence.
Qed.

End DiffLoops.

(** Forgetting the ids gives the loops of the source. *)

Lemma scan_new_erase (old_db : value) (items : dict)
    (acc : list (string * change)) :
  scan_new old_db items (map snd acc)
  = erase (scan_new_ids old_db items acc).
Proof.
  revert acc. induction items as [|[k ev] r IH]; intros acc; simpl.
  - reflexivity.
  - destruct (py_contains old_db k) as [[|]|e]; simpl; try reflexivity.
    + destruct (py_getitem old_db k) as [eo|e]; simpl; [|reflexivity].
      destruct (compare_events eo ev) as [[|d ds]|e]; simpl;
        [apply IH | | reflexivity].
      rewrite <- IH. now rewrite map_app.
    + rewrite <- IH. now rewrite map_app.
Qed.

Lemma scan_old_erase (new_db : value) (items : dict)
    (acc : list (string * change)) :
  scan_old new_db items (map snd acc)
  = erase (scan_old_ids new_db items acc).
Proof.
  revert acc. induction items as [|[k ev] r IH]; intros acc; simpl.
  - reflexivity.
  - destruct (py_contains new_db k) as [[|]|e]; simpl; try reflexivity.
    + apply IH.
    + rewrite <- IH. now rewrite map_app.
Qed.

Lemma detect_changes_ids_erase (old_db new_db : value) :
  detect_changes old_db new_db = erase (detect_changes_ids old_db new_db).
Proof.
  unfold detect_changes, detect_changes_ids.
  destruct (py_items new_db) as [ni|e]; simpl; [|reflexivity].
  change (@nil change) with (map snd (@nil (string * change))).
  rewrite scan_new_erase.
  destruct (scan_new_ids old_db ni []) as [cs|e]; simpl; [|reflexivity].
  destruct (py_items old_db) as [oi|e]; simpl; [|reflexivity].
  apply scan_old_erase.
Qed.

(** [detect_changes] on two dictionaries, with the ids. *)
Lemma detect_changes_ids_spec (old new : dict) :
  match detect_changes_ids (VDict old) (VDict new) with
  | Ok cs =>
      cs = (flat_map (new_side_ids old) new
            ++ flat_map (old_side_ids new) old)%list
  | Raise e =>
      exists k ev, In (k, ev) new /\ dict_mem k old = true /\
                   compare_events (dget old k) ev = Raise e
  end.
Proof.
  unfold detect_changes_ids. simpl.
  pose proof (scan_new_ids_spec old new []) as H.
  destruct (scan_new_ids (VDict old) new []) as [cs|e]; simpl; [|exact H].
  subst cs. simpl. now rewrite scan_old_ids_spec.
Qed.

Lemma flat_map_map_snd {A B C} (f : A -> list (B * C)) (l : list A) :
  map snd (flat_map f l) = flat_map (fun a => map snd (f a)) l.
Proof.
  induction l as [|a r IH]; simpl; [reflexivity|].
  now rewrite map_app, IH.
Qed.

Lemma detect_changes_spec (old new : dict) :
  match detect_changes (VDict old) (VDict new) with
  | Ok cs =>
      cs = (flat_map (new_side old) new ++ flat_map (old_side new) old)%list
  | Raise e =>
      exists k ev, In (k, ev) new /\ dict_mem k old = true /\
                   compare_events (dget old k) ev = Raise e
  end.
Proof.
  rewrite detect_changes_ids_erase.
  pose proof (detect_changes_ids_spec old new) as H.
  destruct (detect_changes_ids (VDict old) (VDict new)) as [cs|e]; simpl;
    [|exact H].
  subst cs. now rewrite map_app, !flat_map_map_snd.
Qed.

(** *** Order of the change records *)

Lemma new_side_kinds (old : dict) (kv : string * value) :
  Forall (fun c => kind_of c = "created" \/ kind_of c = "updated")
         (new_side old kv).
Proof.
  destruct kv as [k ev]. unfold new_side, new_side_ids.
  destruct (dict_mem k old); simpl.
  - destruct (compare_events (dget old k) ev) as [[|d ds]|e]; simpl;
      try apply Forall_nil.
    apply Forall_cons; [now right | apply Forall_nil].
  - apply Forall_cons; [now left | apply Forall_nil].
Qed.

Lemma old_side_kinds (new : dict) (kv : string * value) :
  Forall (fun c => kind_of c = "removed") (old_side new kv).
Proof.
  destruct kv as [k ev]. unfold old_side, old_side_ids.
  destruct (dict_mem k new); simpl; repeat constructor.
Qed.

Lemma Forall_flat_map_intro {A B} (P : B -> Prop) (f : A -> list B)
    (l : list A) :
  (forall a, Forall P (f a)) -> Forall P (flat_map f l).
Proof.
  intros H. induction l as [|a r IH]; simpl; [constructor|].
  apply Forall_app. split; auto.
Qed.

(** C6.  Whenever [detect_changes] returns on two snapshots, its list is
    the Created and Updated records, one pass over the new snapshot in its
    iteration order, followed by the Removed records, one pass over the old
    snapshot in its iteration order.  It returns unless the field diff of
    an event present in both snapshots raises, and then it raises the
    same. *)
Theorem detect_changes_order (old new : dict) :
  match detect_changes (VDict old) (VDict new) with
  | Ok cs =>
      exists upd rem,
        cs = (upd ++ rem)%list /\
        upd = flat_map (new_side old) new /\
        rem = flat_map (old_side new) old /\
        Forall (fun c => kind_of c = "created" \/ kind_of c = "updated") upd /\
        Forall (fun c => kind_of c = "removed") rem
  | Raise e =>
      exists k ev, In (k, ev) new /\ dict_mem k old = true /\
                   compare_events (dget old k) ev = Raise e
  end.
Proof.
  pose proof (detect_changes_spec old new) as H.
  destruct (detect_changes (VDict old) (VDict new)) as [cs|e]; [|exact H].
  exists (flat_map (new_side old) new), (flat_map (old_side new) old).
  repeat split; auto.
  - apply Forall_flat_map_intro, new_side_kinds.
  - apply Forall_flat_map_intro, old_side_kinds.
Qed.

(** *** One record per id *)

Lemma flat_map_keys {A B} (f : string * A -> list (string * B))
    (l : list (string * A)) :
  (forall kv, f kv = [] \/ exists b, f kv = [(fst kv, b)]) ->
  NoDup (map fst l) ->
  NoDup (map fst (flat_map f l)) /\
  (forall k, In k (map fst (flat_map f l)) -> In k (map fst l)).
Proof.
  intros Hf. induction l as [|kv r IH]; simpl; intros Hnd.
  - split; [constructor | tauto].
  - inversion Hnd as [|? ? Hnot Hnd']; subst.
    destruct (IH Hnd') as [IH1 IH2].
    destruct (Hf kv) as [->|[b ->]]; simpl.
    + split; auto.
    + split.
      * constructor; auto.
      * intros k [H|H]; auto.
Qed.

Lemma new_side_ids_shape (old : dict) (kv : string * value) :
  new_side_ids old kv = [] \/ exists c, new_side_ids old kv = [(fst kv, c)].
Proof.
  destruct kv as [k ev]. unfold new_side_ids.
  destruct (dict_mem k old); simpl; [|eauto].
  destruct (compare_events (dget old k) ev) as [[|d ds]|e]; eauto.
Qed.

Lemma old_side_ids_shape (new : dict) (kv : string * value) :
  old_side_ids new kv = [] \/ exists c, old_side_ids new kv = [(fst kv, c)].
Proof.
  destruct kv as [k ev]. unfold old_side_ids.
  destruct (dict_mem k new); simpl; eauto.
Qed.

Lemma new_side_ids_ok (old new : dict) (kv : string * value) :
  In kv new -> Forall (record_ok old new) (new_side_ids old kv).
Proof.
  destruct kv as [k ev]. intros Hin. unfold new_side_ids.
  destruct (dict_mem k old) eqn:Hm; simpl.
  - destruct (compare_events (dget old k) ev) as [[|d ds]|e] eqn:Hc;
      try apply Forall_nil.
    apply Forall_cons; [|apply Forall_nil].
    right; left. simpl. repeat split; auto.
    exists (d :: ds). repeat split; auto. discriminate.
  - apply Forall_cons; [|apply Forall_nil]. left. simpl. auto.
Qed.

Lemma old_side_ids_ok (old new : dict) (kv : string * value) :
  In kv old -> Forall (record_ok old new) (old_side_ids new kv).
Proof.
  destruct kv as [k ev]. intros Hin. unfold old_side_ids.
  destruct (dict_mem k new) eqn:Hm; simpl; [apply Forall_nil|].
  apply Forall_cons; [|apply Forall_nil].
  right; right. simpl. auto.
Qed.

Lemma Forall_flat_map_In {A B} (P : B -> Prop) (f : A -> list B)
    (l : list A) :
  (forall a, In a l -> Forall P (f a)) -> Forall P (flat_map f l).
Proof.
  induction l as [|a r IH]; simpl; intros H; [constructor|].
  apply Forall_app. split; auto.
Qed.

Lemma old_side_ids_absent (new : dict) (l : dict) (k : string) :
  In k (map fst (flat_map (old_side_ids new) l)) -> dict_mem k new = false.
Proof.
  induction l as [|[k' ev] r IH]; simpl; [tauto|].
  rewrite map_app, in_app_iff. intros [H|H]; auto.
  unfold old_side_ids in H.
  destruct (dict_mem k' new) eqn:Hm; simpl in H; [tauto|].
  destruct H as [<-|[]]. exact Hm.
Qed.

(** C8.  On two snapshots, the records of [detect_changes] carry pairwise
    different ids; a record is Created only for an id absent from the old
    snapshot, Updated only for an id present in both, Removed only for an
    id absent from the new one. *)
Theorem change_ids_unique (old new : dict) (cs : list (string * change)) :
  NoDup (keys old) -> NoDup (keys new) ->
  detect_changes_ids (VDict old) (VDict new) = Ok cs ->
  detect_changes (VDict old) (VDict new) = Ok (map snd cs) /\
  NoDup (map fst cs) /\
  Forall (record_ok old new) cs.
Proof.
  intros Hold Hnew Hcs.
  split; [|split].
  - rewrite detect_changes_ids_erase, Hcs. reflexivity.
  - pose proof (detect_changes_ids_spec old new) as H. rewrite Hcs in H.
    subst cs. rewrite map_app.
    destruct (flat_map_keys (new_side_ids old) new
                (new_side_ids_shape old) Hnew) as [N1 S1].
    destruct (flat_map_keys (old_side_ids new) old
                (old_side_ids_shape new) Hold) as [N2 S2].
    apply NoDup_app; auto.
    intros k Hk1 Hk2.
    apply old_side_ids_absent in Hk2.
    apply S1 in Hk1. apply dict_mem_In in Hk1. congruence.
  - pose proof (detect_changes_ids_spec old new) as H. rewrite Hcs in H.
    subst cs. apply Forall_app. split.
    + apply Forall_flat_map_In. intros kv Hin. now apply new_side_ids_ok.
    + apply Forall_flat_map_In. intros kv Hin. now apply old_side_ids_ok.
Qed.

(** *** The field diff on two dictionaries *)

Lemma normalize_description (v : value) : normalize "description" v = v.
Proof. reflexivity. Qed.

Lemma compare_field_dict (o n : dict) (key label : string) (acc : diff_map) :
  dict_mem label acc = false ->
  match compare_field (VDict o) (VDict n) key label acc with
  | Ok ds => ds = (acc ++ field_entry o n (key, label))%list
  | Raise e =>
      key = "description" /\ is_event (VDict n) = false /\
      py_ne (dget o "description") (dget n "description") = true
  end.
Proof.
  intros Hfresh. unfold compare_field, field_entry. simpl.
  fold (dget o key) (dget n key).
  destruct (String.eqb_spec key "description") as [->|Hk].
  - rewrite !normalize_description.
    destruct (py_ne (dget o "description") (dget n "description")) eqn:Hne.
    + unfold dict_mem.
      destruct (dict_get "id" n) as [i|] eqn:Hid; simpl.
      * destruct (dict_get "name" n) as [m|] eqn:Hnm; simpl.
        -- now apply dict_set_fresh.
        -- repeat split; auto.
      * repeat split; auto.
    + now rewrite app_nil_r.
  - destruct (py_ne (normalize key (dget o key)) (normalize key (dget n key))).
    + now apply dict_set_fresh.
    + now rewrite app_nil_r.
Qed.

Lemma field_entry_keys (o n : dict) (kl : string * string) (l : string) :
  In l (map fst (field_entry o n kl)) -> l = snd kl.
Proof.
  destruct kl as [key label]. unfold field_entry.
  destruct (py_ne _ _); simpl; [|tauto]. intros [H|[]]. now subst.
Qed.

Lemma compare_loop_dict (o n : dict) (fields : list (string * string))
    (acc : diff_map) :
  NoDup (map snd fields) ->
  (forall l, In l (map snd fields) -> dict_mem l acc = false) ->
  match compare_loop (VDict o) (VDict n) fields acc with
  | Ok ds => ds = (acc ++ flat_map (field_entry o n) fields)%list
  | Raise e =>
      is_event (VDict n) = false /\
      py_ne (dget o "description") (dget n "description") = true
  end.
Proof.
  revert acc. induction fields as [|[key label] r IH]; intros acc Hnd Hfresh.
  - simpl. now rewrite app_nil_r.
  - cbn [compare_loop]. simpl in Hnd. inversion Hnd as [|? ? Hnot Hnd']; subst.
    pose proof (compare_field_dict o n key label acc) as Hstep.
    destruct (compare_field (VDict o) (VDict n) key label acc) as [ds|e];
      cbn [bind].
    + rewrite (Hstep (Hfresh label (or_introl eq_refl))).
      specialize (IH (acc ++ field_entry o n (key, label))%list Hnd').
      destruct (compare_loop (VDict o) (VDict n) r _) as [ds'|e'].
      * cbn [flat_map]. rewrite app_assoc. apply IH.
        intros l Hl. rewrite dict_mem_app.
        rewrite (Hfresh l (or_intror Hl)). simpl.
        apply dict_mem_false_In. intros Hin.
        apply (field_entry_keys o n (key, label) l) in Hin.
        simpl in Hin. now subst.
      * apply IH.
        intros l Hl. rewrite dict_mem_app.
        rewrite (Hfresh l (or_intror Hl)). simpl.
        apply dict_mem_false_In. intros Hin.
        apply (field_entry_keys o n (key, label) l) in Hin.
        simpl in Hin. now subst.
    + apply Hstep. apply Hfresh. now left.
Qed.

Lemma fields_to_check_labels : NoDup (map snd fields_to_check).
Proof.
  simpl. repeat (constructor; [simpl; intuition discriminate|]). constructor.
Qed.

(** [compare_events] on two dictionaries lists, in the order of the tracked
    fields, the fields whose normalised values differ; it raises only from
    the description log, when the descriptions differ and the new event
    lacks [id] or [name]. *)
Lemma compare_events_dict (o n : dict) :
  match compare_events (VDict o) (VDict n) with
  | Ok ds => ds = flat_map (field_entry o n) fields_to_check
  | Raise e =>
      is_event (VDict n) = false /\
      py_ne (dget o "description") (dget n "description") = true
  end.
Proof.
  unfold compare_events.
  apply (compare_loop_dict o n fields_to_check []).
  - exact fields_to_check_labels.
  - reflexivity.
Qed.

Lemma compare_events_event (o n : dict) :
  is_event (VDict n) = true ->
  compare_events (VDict o) (VDict n)
  = Ok (flat_map (field_entry o n) fields_to_check).
Proof.
  intros He. pose proof (compare_events_dict o n) as H.
  destruct (compare_events (VDict o) (VDict n)) as [ds|e]; [now subst|].
  destruct H as [H _]. congruence.
Qed.

Lemma compare_events_same_description (o n : dict) :
  py_ne (dget o "description") (dget n "description") = false ->
  compare_events (VDict o) (VDict n)
  = Ok (flat_map (field_entry o n) fields_to_check).
Proof.
  intros He. pose proof (compare_events_dict o n) as H.
  destruct (compare_events (VDict o) (VDict n)) as [ds|e]; [now subst|].
  destruct H as [_ H]. congruence.
Qed.

(** *** Equality of well-formed values *)

Lemma value_ind' (P : value -> Prop) :
  P VNone -> (forall b, P (VBool b)) -> (forall n, P (VInt n)) ->
  (forall s, P (VStr s)) ->
  (forall l, Forall P l -> P (VList l)) ->
  (forall d, Forall (fun kv => P (snd kv)) d -> P (VDict d)) ->
  forall v, P v.
Proof.
  intros HN HB HI HS HL HD. fix IH 1. intros [ |b|n|s|l|d].
  - exact HN.
  - apply HB.
  - apply HI.
  - apply HS.
  - apply HL. induction l as [|x r IHr]; constructor; [apply IH | exact IHr].
  - apply HD. induction d as [|[k x] r IHr]; constructor;
      [apply IH | exact IHr].
Qed.

Lemma wf_value_list (l : list value) :
  wf_value (VList l) <-> Forall wf_value l.
Proof.
  simpl. induction l as [|x r IH]; split; intros H.
  - constructor.
  - exact I.
  - destruct H as [Hx Hr]. constructor; [exact Hx | now apply IH].
  - inversion H; subst. split; [assumption | now apply IH].
Qed.

Lemma wf_value_dict (d : dict) :
  wf_value (VDict d)
  <-> NoDup (map fst d) /\ Forall (fun kv => wf_value (snd kv)) d.
Proof.
  simpl.
  assert (E : (fix all (d : list (string * value)) : Prop :=
                 match d with
                 | [] => True
                 | (_, x) :: r => wf_value x /\ all r
                 end) d <-> Forall (fun kv => wf_value (snd kv)) d).
  { induction d as [|[k x] r IH]; split; intros H.
    - constructor.
    - exact I.
    - destruct H as [Hx Hr]. constructor; [exact Hx | now apply IH].
    - inversion H; subst. split; [assumption | now apply IH]. }
  now rewrite E.
Qed.

Lemma py_eq_refl (v : value) : wf_value v -> py_eq v v = true.
Proof.
  induction v as [ |b|n|s|l IH|d IH] using value_ind'; intros Hwf; simpl.
  - reflexivity.
  - now destruct b.
  - apply Z.eqb_refl.
  - apply String.eqb_refl.
  - apply wf_value_list in Hwf.
    induction l as [|x r IHr]; [reflexivity|].
    inversion IH; subst. inversion Hwf; subst.
    rewrite H1 by assumption. simpl. now apply IHr.
  - apply wf_value_dict in Hwf. destruct Hwf as [Hnd Hall].
    rewrite Nat.eqb_refl. simpl.
    assert (G : forall d', (forall k x, In (k, x) d' -> In (k, x) d) ->
              (fix sub (d0 : list (string * value)) : bool :=
                 match d0 with
                 | [] => true
                 | (k, v) :: r =>
                     match dict_get k d with
                     | Some v' => py_eq v v'
                     | None => false
                     end && sub r
                 end) d' = true).
    { induction d' as [|[k x] r IHr]; intros Hsub; [reflexivity|].
      rewrite (In_dict_get_NoDup k x d Hnd) by (apply Hsub; now left).
      rewrite Forall_forall in IH, Hall.
      assert (Hkx : In (k, x) d) by (apply Hsub; now left).
      pose proof (IH (k, x) Hkx (Hall (k, x) Hkx)) as Hx. simpl in Hx.
      rewrite Hx. simpl. apply IHr. intros k' x' Hin. apply Hsub. now right. }
    apply G. auto.
Qed.

Lemma py_ne_refl (v : value) : wf_value v -> py_ne v v = false.
Proof. intros H. unfold py_ne. now rewrite py_eq_refl. Qed.

Lemma wf_dget (d : dict) (k : string) :
  wf_value (VDict d) -> wf_value (dget d k).
Proof.
  intros H. apply wf_value_dict in H. destruct H as [_ H].
  unfold dget. destruct (dict_get k d) as [x|] eqn:E; [|exact I].
  apply dict_get_In in E. rewrite Forall_forall in H. exact (H (k, x) E).
Qed.

Lemma wf_discord_timestamp (v : value) (style : string) :
  wf_value v -> wf_value (discord_timestamp v style).
Proof.
  intros H. destruct v; simpl; auto. destruct (strptime s); exact I.
Qed.

Lemma wf_normalize (key : string) (v : value) :
  wf_value v -> wf_value (normalize key v).
Proof.
  intros H. unfold normalize.
  assert (H1 : wf_value (if key =? "server" then norm_server v else v)).
  { destruct (key =? "server"); [|exact H].
    destruct v; simpl; auto. now apply wf_dget. }
  set (v1 := if key =? "server" then norm_server v else v) in *.
  assert (H2 : wf_value (if (key =? "departure") || (key =? "arrive")
                         then norm_location v1 else v1)).
  { destruct ((key =? "departure") || (key =? "arrive")); [|exact H1].
    destruct v1; simpl; auto. }
  set (v2 := if (key =? "departure") || (key =? "arrive")
             then norm_location v1 else v1) in *.
  destruct ((key =? "start_at") || (key =? "meetup_at")); [|exact H2].
  unfold norm_time. destruct (truthy v2); [|exact H2].
  now apply wf_discord_timestamp.
Qed.

(** *** Snapshots of events *)

(** [detect_changes] returns on snapshots whose new events are
    dictionaries with [id] and [name] and whose old events are
    dictionaries. *)
Lemma detect_changes_total (old new : dict) :
  Forall (fun kv => is_event (snd kv) = true) new ->
  Forall (fun kv => exists d, snd kv = VDict d) old ->
  detect_changes (VDict old) (VDict new)
  = Ok (flat_map (new_side old) new ++ flat_map (old_side new) old)%list.
Proof.
  intros Hnew Hold. rewrite Forall_forall in Hnew, Hold.
  pose proof (detect_changes_spec old new) as H.
  destruct (detect_changes (VDict old) (VDict new)) as [cs|e];
    [now subst|].
  destruct H as (k & ev & Hin & Hm & Hc). exfalso.
  destruct (dict_mem_get _ _ Hm) as [eo Heo].
  unfold dget in Hc. rewrite Heo in Hc.
  destruct (Hold (k, eo) (dict_get_In _ _ _ Heo)) as [o Ho].
  cbn [snd] in Ho. subst eo.
  pose proof (Hnew (k, ev) Hin) as He. cbn [snd] in He.
  destruct ev as [ | | | | |n]; try discriminate He.
  rewrite (compare_events_event o n He) in Hc. discriminate Hc.
Qed.

(** *** Equal snapshots *)

Lemma field_entry_same (o n : dict) (kl : string * string) :
  py_eq (normalize (fst kl) (dget o (fst kl)))
        (normalize (fst kl) (dget n (fst kl))) = true ->
  field_entry o n kl = [].
Proof.
  destruct kl as [key label]. simpl. intros E. unfold field_entry, py_ne.
  now rewrite E.
Qed.

Lemma flat_map_nil {A B} (f : A -> list B) (l : list A) :
  (forall a, In a l -> f a = []) -> flat_map f l = [].
Proof.
  induction l as [|a r IH]; simpl; intros H; [reflexivity|].
  rewrite (H a) by now left. apply IH. intros b Hb. apply H. now right.
Qed.

Lemma compare_events_same_tracked (eo en : value) :
  same_tracked eo en -> compare_events eo en = Ok [].
Proof.
  intros (o & n & -> & -> & H).
  rewrite compare_events_same_description.
  - f_equal. apply flat_map_nil. intros [key label] Hin.
    apply field_entry_same. exact (H key label Hin).
  - assert (E : py_eq (normalize "description" (dget o "description"))
                      (normalize "description" (dget n "description"))
                = true).
    { apply (H "description" "Description"). simpl. tauto. }
    rewrite !normalize_description in E. unfold py_ne. now rewrite E.
Qed.



(** *** Inserting one id *)

Lemma filter_flat_map_other {A B} (k : string)
    (f : string * A -> list (string * B)) (l : list (string * A)) :
  (forall kv, f kv = [] \/ exists b, f kv = [(fst kv, b)]) ->
  ~ In k (map fst l) ->
  filter (fun kc => fst kc =? k) (flat_map f l) = [].
Proof.
  intros Hf. induction l as [|kv r IH]; simpl; intros Hnot; [reflexivity|].
  rewrite filter_app, IH by tauto.
  destruct (Hf kv) as [->|[b ->]]; simpl; [reflexivity|].
  destruct (String.eqb_spec (fst kv) k); [tauto | reflexivity].
Qed.

(** C5.  When the new snapshot is the old one with one event inserted,
    anywhere, under an id the old one does not hold, the records of
    [detect_changes] that carry this id are one Created record for the
    inserted event, and nothing else.  [detect_changes] returns unless the
    field diff of an event of the old snapshot against itself raises. *)
Theorem created_once (l1 l2 : dict) (k : string) (ev : value) :
  dict_mem k (l1 ++ l2)%list = false ->
  match detect_changes_ids (VDict (l1 ++ l2)%list) (VDict (l1 ++ (k, ev) :: l2)%list) with
  | Ok cs =>
      filter (fun kc => fst kc =? k) cs = [(k, ("created", ev, None))] /\
      detect_changes (VDict (l1 ++ l2)%list) (VDict (l1 ++ (k, ev) :: l2)%list)
      = Ok (map snd cs)
  | Raise e =>
      exists k' ev', In (k', ev') (l1 ++ l2)%list /\
                     compare_events (dget (l1 ++ l2)%list k') ev' = Raise e
  end.
Proof.
  intros Hk.
  pose proof (detect_changes_ids_spec (l1 ++ l2)%list (l1 ++ (k, ev) :: l2)%list) as H.
  pose proof (detect_changes_ids_erase (VDict (l1 ++ l2)%list)
                (VDict (l1 ++ (k, ev) :: l2)%list)) as He.
  destruct (detect_changes_ids _ _) as [cs|e].
  - split; [|exact He]. subst cs.
    apply dict_mem_false_In in Hk. rewrite map_app, in_app_iff in Hk.
    rewrite flat_map_app. cbn [flat_map]. rewrite !filter_app.
    rewrite (filter_flat_map_other k (new_side_ids (l1 ++ l2)%list) l1)
      by (auto using new_side_ids_shape).
    rewrite (filter_flat_map_other k (new_side_ids (l1 ++ l2)%list) l2)
      by (auto using new_side_ids_shape).
    rewrite (filter_flat_map_other k (old_side_ids (l1 ++ (k, ev) :: l2)%list)
               (l1 ++ l2)%list)
      by (auto using old_side_ids_shape; rewrite map_app, in_app_iff; tauto).
    unfold new_side_ids.
    assert (Hm : dict_mem k (l1 ++ l2)%list = false).
    { apply dict_mem_false_In. rewrite map_app, in_app_iff. tauto. }
    rewrite Hm. simpl. now rewrite String.eqb_refl.
  - destruct H as (k' & ev' & Hin & Hm & Hc).
    exists k', ev'. split; [|exact Hc].
    apply in_app_iff in Hin. apply in_app_iff.
    destruct Hin as [Hin|[Hin|Hin]]; auto.
    injection Hin as <- <-. congruence.
Qed.

(** *** Sample runs of the diff engine *)

Ltac nodup_strings :=
  repeat (apply NoDup_cons; [simpl; intuition discriminate|]); apply NoDup_nil.

Lemma change_ids_unique_witness :
  let old := [("1", Examples.evA); ("2", Examples.evB)] in
  let new := [("1", Examples.evA'); ("3", Examples.evC)] in
  let cs :=
    [("1", ("updated", Examples.evA',
            Some [("Description", (VStr "old text", VStr "new text"))]));
     ("3", ("created", Examples.evC, None));
     ("2", ("removed", Examples.evB, None))] in
  detect_changes (VDict old) (VDict new) = Ok (map snd cs) /\
  NoDup (map fst cs) /\
  Forall (record_ok old new) cs.
Proof.
  intros old new cs.
  apply (change_ids_unique old new cs).
  - unfold keys. simpl. nodup_strings.
  - unfold keys. simpl. nodup_strings.
  - vm_compute. reflexivity.
Defined.

Lemma created_once_witness :
  match detect_changes_ids
          (VDict ([("1", Examples.evA)] ++ [("3", Examples.evC)])%list)
          (VDict ([("1", Examples.evA)]
                    ++ ("2", Examples.evB) :: [("3", Examples.evC)])%list) with
  | Ok cs =>
      filter (fun kc => fst kc =? "2") cs
      = [("2", ("created", Examples.evB, None))] /\
      detect_changes
        (VDict ([("1", Examples.evA)] ++ [("3", Examples.evC)])%list)
        (VDict ([("1", Examples.evA)]
                  ++ ("2", Examples.evB) :: [("3", Examples.evC)])%list)
      = Ok (map snd cs)
  | Raise e =>
      exists k' ev',
        In (k', ev') ([("1", Examples.evA)] ++ [("3", Examples.evC)])%list /\
        compare_events
          (dget ([("1", Examples.evA)] ++ [("3", Examples.evC)])%list k') ev'
        = Raise e
  end.
Proof.
  apply (created_once [("1", Examples.evA)] [("3", Examples.evC)] "2"
                      Examples.evB).
  reflexivity.
Defined.

Ltac in_cases H :=
  repeat (destruct H as [H|H]; [injection H as <- <- | ]); try destruct H.




(** *** The entries of one label in the field diff *)

Lemma filter_field_entry_self (o n : dict) (key label : string) :
  filter (fun e => fst e =? label) (field_entry o n (key, label))
  = field_entry o n (key, label).
Proof.
  unfold field_entry. destruct (py_ne _ _); simpl; [|reflexivity].
  now rewrite String.eqb_refl.
Qed.

Lemma filter_field_entry_other (o n : dict) (key label l : string) :
  label <> l ->
  filter (fun e => fst e =? l) (field_entry o n (key, label)) = [].
Proof.
  intros Hne. unfold field_entry. destruct (py_ne _ _); simpl; [|reflexivity].
  destruct (String.eqb_spec label l); [tauto | reflexivity].
Qed.

Lemma filter_field_entries (o n : dict) (fields : list (string * string))
    (key label : string) :
  NoDup (map snd fields) -> In (key, label) fields ->
  filter (fun e => fst e =? label) (flat_map (field_entry o n) fields)
  = field_entry o n (key, label).
Proof.
  induction fields as [|[k' l'] r IH]; cbn [flat_map map snd In]; [tauto|].
  intros Hnd Hin. inversion Hnd as [|? ? Hnot Hnd']; subst.
  rewrite filter_app. destruct Hin as [E|Hin].
  - injection E as -> ->. rewrite filter_field_entry_self.
    assert (R : filter (fun e => fst e =? label)
                       (flat_map (field_entry o n) r) = []).
    { clear IH Hnd Hnd'. induction r as [|[k2 l2] r2 IH2]; [reflexivity|].
      cbn [flat_map]. cbn [map snd In] in Hnot.
      rewrite filter_app, filter_field_entry_other by tauto.
      apply IH2. tauto. }
    rewrite R. apply app_nil_r.
  - rewrite filter_field_entry_other.
    + now apply IH.
    + intros ->. apply Hnot. change label with (snd (key, label)).
      now apply in_map.
Qed.

Lemma compare_events_label (o n : dict) (key label : string) :
  In (key, label) fields_to_check ->
  match compare_events (VDict o) (VDict n) with
  | Ok ds =>
      filter (fun e => fst e =? label) ds = field_entry o n (key, label)
  | Raise e =>
      is_event (VDict n) = false /\
      py_ne (dget o "description") (dget n "description") = true
  end.
Proof.
  intros Hin. pose proof (compare_events_dict o n) as H.
  destruct (compare_events (VDict o) (VDict n)) as [ds|e]; [|exact H].
  subst ds. apply filter_field_entries; [exact fields_to_check_labels|exact Hin].
Qed.

(** *** The Description entry *)

(** The field diff of two sample events that differ in their description
    holds both texts under the label Description. *)
Lemma compare_events_echoes_description :
  py_get Examples.evA "description" = Ok (VStr "old text") /\
  py_get Examples.evA' "description" = Ok (VStr "new text") /\
  compare_events Examples.evA Examples.evA'
  = Ok [("Description", (VStr "old text", VStr "new text"))].
Proof. split; [|split]; vm_compute; reflexivity. Qed.

Lemma changes_field_description (ds1 ds2 : diff_map) (x y x' y' : value) :
  changes_field (ds1 ++ ("Description", (x, y)) :: ds2)%list
  = changes_field (ds1 ++ ("Description", (x', y')) :: ds2)%list.
Proof.
  unfold changes_field. now rewrite !map_app.
Qed.

Lemma appended_fields_description (change_type : string)
    (ds1 ds2 : diff_map) (x y x' y' : value) :
  appended_fields change_type
                  (Some (ds1 ++ ("Description", (x, y)) :: ds2)%list)
  = appended_fields change_type
                    (Some (ds1 ++ ("Description", (x', y')) :: ds2)%list).
Proof.
  unfold appended_fields.
  rewrite (changes_field_description ds1 ds2 x y x' y').
  destruct ds1; reflexivity.
Qed.

Lemma build_embed_description (utcnow : string) (event : value)
    (change_type : string) (ds1 ds2 : diff_map) (x y x' y' : value) :
  build_embed utcnow event change_type
              (Some (ds1 ++ ("Description", (x, y)) :: ds2)%list)
  = build_embed utcnow event change_type
                (Some (ds1 ++ ("Description", (x', y')) :: ds2)%list).
Proof.
  unfold build_embed.
  now rewrite (appended_fields_description change_type ds1 ds2 x y x' y').
Qed.

(** C2, amended.  When the descriptions of two events differ, the field
    diff holds under the label Description the pair of the old and the new
    description as they are; [compare_events] returns it unless the new
    event lacks [id] or [name].  It is [build_embed] that writes such an
    entry as the fixed line, whatever the two texts: the payload of the
    notification does not depend on them. *)
Theorem description_diff_entry (o n : dict) :
  py_ne (dget o "description") (dget n "description") = true ->
  match compare_events (VDict o) (VDict n) with
  | Ok ds =>
      filter (fun e => fst e =? "Description") ds
      = [("Description", (dget o "description", dget n "description"))] /\
      diff_line ("Description", (dget o "description", dget n "description"))
      = "📝 **Description changed**" /\
      forall utcnow event change_type ds1 ds2 x y,
        build_embed utcnow event change_type
          (Some (ds1 ++ ("Description",
                         (dget o "description", dget n "description"))
                     :: ds2)%list)
        = build_embed utcnow event change_type
            (Some (ds1 ++ ("Description", (x, y)) :: ds2)%list)
  | Raise e => is_event (VDict n) = false
  end.
Proof.
  intros Hne.
  pose proof (compare_events_label o n "description" "Description") as H.
  destruct (compare_events (VDict o) (VDict n)) as [ds|e].
  - rewrite H by (simpl; tauto). unfold field_entry.
    rewrite !normalize_description, Hne.
    split; [reflexivity|]. split; [reflexivity|].
    intros. apply build_embed_description.
  - apply H. simpl. tauto.
Qed.

Lemma description_diff_entry_witness :
  match compare_events Examples.evA Examples.evA' with
  | Ok ds =>
      filter (fun e => fst e =? "Description") ds
      = [("Description", (VStr "old text", VStr "new text"))] /\
      diff_line ("Description", (VStr "old text", VStr "new text"))
      = "📝 **Description changed**" /\
      forall utcnow event change_type ds1 ds2 x y,
        build_embed utcnow event change_type
          (Some (ds1 ++ ("Description", (VStr "old text", VStr "new text"))
                     :: ds2)%list)
        = build_embed utcnow event change_type
            (Some (ds1 ++ ("Description", (x, y)) :: ds2)%list)
  | Raise e => is_event Examples.evA' = false
  end.
Proof.
  apply (description_diff_entry
           (Examples.event_fields 1 "X" "2024-01-01 10:00:00" "old text")
           (Examples.event_fields 1 "X" "2024-01-01 10:00:00" "new text")).
  reflexivity.
Defined.

(** *** Timestamps compare on their rendered form *)

Lemma norm_time_str (a : string) :
  norm_time (VStr a) = discord_timestamp (VStr a) "F".
Proof.
  unfold norm_time. simpl. destruct (String.eqb_spec a "") as [->|_];
    reflexivity.
Qed.

Lemma normalize_time_key (key label : string) (a : string) :
  (key, label) = ("start_at", "Start Time") \/
  (key, label) = ("meetup_at", "Meetup Time") ->
  normalize key (VStr a) = discord_timestamp (VStr a) "F".
Proof.
  intros [E|E]; injection E as -> ->; unfold normalize; simpl;
    apply norm_time_str.
Qed.

Lemma str_of_Z_inj (n m : Z) : str_of_Z n = str_of_Z m -> n = m.
Proof.
  unfold str_of_Z. intros E. apply DecimalZ.to_int_inj.
  assert (Hnil : forall z, Z.to_int z <> Decimal.Pos Decimal.Nil /\
                           Z.to_int z <> Decimal.Neg Decimal.Nil).
  { intros [|p|p]; simpl; split; try discriminate;
      intros [= H]; now apply DecimalPos.Unsigned.to_uint_nonnil in H. }
  destruct (Hnil n) as [Hn1 Hn2]. destruct (Hnil m) as [Hm1 Hm2].
  pose proof (NilZero.isi _ Hn1 Hn2) as In.
  pose proof (NilZero.isi _ Hm1 Hm2) as Im.
  rewrite E in In. congruence.
Qed.

Lemma string_app_length (x y : string) :
  String.length (x ++ y) = String.length x + String.length y.
Proof. induction x; simpl; congruence. Qed.

Lemma string_app_inv_tail (x y s : string) : x ++ s = y ++ s -> x = y.
Proof.
  revert y. induction x as [|a x IH]; intros [|b y] E; simpl in E.
  - reflexivity.
  - apply (f_equal String.length) in E. simpl in E.
    rewrite string_app_length in E. lia.
  - apply (f_equal String.length) in E. simpl in E.
    rewrite string_app_length in E. lia.
  - injection E as -> E. f_equal. now apply IH.
Qed.

Lemma discord_timestamp_parsed (a style : string) (dt : datetime) :
  strptime a = Some dt ->
  discord_timestamp (VStr a) style
  = VStr ("<t:" ++ str_of_Z (timestamp dt) ++ ":" ++ style ++ ">").
Proof. intros H. simpl. now rewrite H. Qed.

Lemma discord_timestamp_is_str (a style : string) :
  exists s, discord_timestamp (VStr a) style = VStr s.
Proof. simpl. destruct (strptime a); eauto. Qed.

(** Two texts that parse to the same date and time of day up to the
    second, with different seconds, render differently. *)
Lemma discord_timestamp_seconds (a b style : string) (dta dtb : datetime) :
  strptime a = Some dta -> strptime b = Some dtb ->
  year dta = year dtb -> month dta = month dtb -> day dta = day dtb ->
  hour dta = hour dtb -> minute dta = minute dtb ->
  second dta <> second dtb ->
  discord_timestamp (VStr a) style <> discord_timestamp (VStr b) style.
Proof.
  intros Ha Hb Ey Em Ed Eh Emi Hs.
  rewrite (discord_timestamp_parsed a style dta Ha).
  rewrite (discord_timestamp_parsed b style dtb Hb).
  intros [= E]. apply string_app_inv_tail in E. apply str_of_Z_inj in E.
  unfold timestamp in E. rewrite Ey, Em, Ed, Eh, Emi in E. lia.
Qed.

Lemma py_ne_str (s t : string) : py_ne (VStr s) (VStr t) = negb (s =? t).
Proof. reflexivity. Qed.

(** C7.  For Start Time and Meetup Time the field diff compares the
    rendered forms of the two raw texts (ASCII texts, on which [strptime]
    is modelled): when they render to the same
    display string there is no entry under the label; when they render
    differently there is exactly one, the pair of the two rendered forms;
    and they do render differently when they parse to the same date, hour
    and minute with different seconds.  [compare_events]
    returns unless the descriptions differ and the new event lacks [id] or
    [name]. *)
Theorem timestamp_fields_compare_rendered (o n : dict) (key label : string)
    (a b : string) :
  (key, label) = ("start_at", "Start Time") \/
  (key, label) = ("meetup_at", "Meetup Time") ->
  dict_get key o = Some (VStr a) -> dict_get key n = Some (VStr b) ->
  ascii_text a = true -> ascii_text b = true ->
  match compare_events (VDict o) (VDict n) with
  | Ok ds =>
      (discord_timestamp (VStr a) "F" = discord_timestamp (VStr b) "F" ->
       filter (fun e => fst e =? label) ds = []) /\
      (discord_timestamp (VStr a) "F" <> discord_timestamp (VStr b) "F" ->
       filter (fun e => fst e =? label) ds
       = [(label, (discord_timestamp (VStr a) "F",
                   discord_timestamp (VStr b) "F"))]) /\
      (forall dta dtb,
         strptime a = Some dta -> strptime b = Some dtb ->
         year dta = year dtb -> month dta = month dtb -> day dta = day dtb ->
         hour dta = hour dtb -> minute dta = minute dtb ->
         second dta <> second dtb ->
         filter (fun e => fst e =? label) ds
         = [(label, (discord_timestamp (VStr a) "F",
                     discord_timestamp (VStr b) "F"))])
  | Raise e =>
      is_event (VDict n) = false /\
      py_ne (dget o "description") (dget n "description") = true
  end.
Proof.
  intros Hkey Ha Hb _ _.
  assert (Hin : In (key, label) fields_to_check).
  { destruct Hkey as [->| ->]; simpl; tauto. }
  pose proof (compare_events_label o n key label Hin) as H.
  destruct (compare_events (VDict o) (VDict n)) as [ds|e]; [|exact H].
  rewrite H. unfold field_entry, dget. rewrite Ha, Hb.
  rewrite !(normalize_time_key key label) by exact Hkey.
  destruct (discord_timestamp_is_str a "F") as [ra Hra].
  destruct (discord_timestamp_is_str b "F") as [rb Hrb].
  assert (Hdiff : discord_timestamp (VStr a) "F"
                  <> discord_timestamp (VStr b) "F" ->
                  (if py_ne (discord_timestamp (VStr a) "F")
                            (discord_timestamp (VStr b) "F")
                   then [(label, (discord_timestamp (VStr a) "F",
                                  discord_timestamp (VStr b) "F"))]
                   else [])
                  = [(label, (discord_timestamp (VStr a) "F",
                              discord_timestamp (VStr b) "F"))]).
  { intros Hne. rewrite Hra, Hrb in Hne |- *. rewrite py_ne_str.
    destruct (String.eqb_spec ra rb) as [->|_]; [congruence | reflexivity]. }
  split; [|split].
  - intros E. rewrite E, Hrb, py_ne_str, String.eqb_refl. reflexivity.
  - exact Hdiff.
  - intros dta dtb Pa Pb Ey Em Ed Eh Emi Hs. apply Hdiff.
    exact (discord_timestamp_seconds a b "F" dta dtb
             Pa Pb Ey Em Ed Eh Emi Hs).
Qed.

Lemma timestamp_fields_compare_rendered_witness :
  "2024-01-01 10:00:00" <> "2024-1-1 10:0:0" /\
  (exists ds, compare_events Examples.evA Examples.evA_short = Ok ds /\
              filter (fun e => fst e =? "Start Time") ds = []) /\
  (exists ds, compare_events Examples.evA Examples.evA_later = Ok ds /\
              filter (fun e => fst e =? "Start Time") ds
              = [("Start Time",
                  (VStr "<t:1704103200:F>", VStr "<t:1704103201:F>"))]).
Proof.
  split; [discriminate|]. split.
  - pose proof (timestamp_fields_compare_rendered
                  (Examples.event_fields 1 "X" "2024-01-01 10:00:00" "old text")
                  (Examples.event_fields 1 "X" "2024-1-1 10:0:0" "old text")
                  "start_at" "Start Time"
                  "2024-01-01 10:00:00" "2024-1-1 10:0:0"
                  (or_introl eq_refl) eq_refl eq_refl eq_refl eq_refl) as H.
    unfold Examples.evA, Examples.evA_short, Examples.event.
    destruct (compare_events _ _) as [ds|e].
    + exists ds. split; [reflexivity|]. apply H. reflexivity.
    + destruct H as [H _]. discriminate H.
  - pose proof (timestamp_fields_compare_rendered
                  (Examples.event_fields 1 "X" "2024-01-01 10:00:00" "old text")
                  (Examples.event_fields 1 "X" "2024-01-01 10:00:01" "old text")
                  "start_at" "Start Time"
                  "2024-01-01 10:00:00" "2024-01-01 10:00:01"
                  (or_introl eq_refl) eq_refl eq_refl eq_refl eq_refl) as H.
    unfold Examples.evA, Examples.evA_later, Examples.event.
    destruct (compare_events _ _) as [ds|e].
    + exists ds. split; [reflexivity|].
      destruct H as (_ & _ & H).
      apply (H (mk_datetime 2024 1 1 10 0 0) (mk_datetime 2024 1 1 10 0 1));
        try reflexivity.
      simpl. discriminate.
    + destruct H as [H _]. discriminate H.
Defined.

(** *** Events without [start_at] *)

Lemma build_embed_no_start_at (utcnow : string) (d : dict)
    (change_type : string) (diffs : option diff_map) :
  dict_get "start_at" d = None ->
  build_embed utcnow (VDict d) change_type diffs
  = Raise (KeyError "start_at").
Proof.
  intros Hs. unfold build_embed. cbn [py_get py_get_default bind].
  destruct (truthy match dict_get "meetup_at" d with
                   | Some x => x
                   | None => VNone
                   end) eqn:Hm.
  - cbn [py_getitem].
    destruct (dict_get "meetup_at" d) as [m|]; [|discriminate Hm].
    cbn [bind]. rewrite Hs. reflexivity.
  - cbn [bind]. rewrite Hs. cbn [truthy bind py_getitem]. rewrite Hs.
    reflexivity.
Qed.


Lemma build_embed_no_meetup_at (utcnow : string) (d : dict)
    (change_type : string) (diffs : option diff_map) (embed : value) :
  dict_get "meetup_at" d = None ->
  build_embed utcnow (VDict d) change_type diffs = Ok embed ->
  exists fields,
    embed_fields embed = Ok (VList fields) /\
    nth_error fields 1 = Some (field "🕒 Meetup Time" "Not specified" true).
Proof.
  intros Hm Hb. unfold build_embed in Hb.
  cbn [py_get py_get_default bind] in Hb. rewrite Hm in Hb.
  cbn [truthy bind] in Hb.
  repeat match type of Hb with
         | bind ?a _ = _ => destruct a; cbn [bind] in Hb; [|discriminate Hb]
         end.
  destruct (change_type =? "created");
    [|destruct (change_type =? "removed")];
    repeat match type of Hb with
           | bind ?a _ = _ => destruct a; cbn [bind] in Hb; [|discriminate Hb]
           end;
    injection Hb as <-; eexists; split; reflexivity.
Qed.

(** C9.  For an event dictionary without the key [start_at],
    [build_embed] raises [KeyError] on the unconditional subscript that
    renders the event date, and so does [send_to_discord], which posts
    nothing; an absent [meetup_at], in contrast, is rendered as the text
    Not specified in the Meetup Time field of the payload. *)
Theorem notification_needs_start_at (utcnow : string) (d : dict)
    (change_type : string) (diffs : option diff_map) (w : world) :
  dict_get "start_at" d = None ->
  build_embed utcnow (VDict d) change_type diffs
  = Raise (KeyError "start_at") /\
  send_to_discord utcnow (VDict d) change_type diffs w
  = (Raise (KeyError "start_at"), w) /\
  (forall d' embed,
     dict_get "meetup_at" d' = None ->
     build_embed utcnow (VDict d') change_type diffs = Ok embed ->
     exists fields,
       embed_fields embed = Ok (VList fields) /\
       nth_error fields 1
       = Some (field "🕒 Meetup Time" "Not specified" true)).
Proof.
  intros Hs. split; [|split].
  - now apply build_embed_no_start_at.
  - unfold send_to_discord. now rewrite build_embed_no_start_at.
  - intros d' embed. apply build_embed_no_meetup_at.
Qed.

Lemma notification_needs_start_at_witness :
  send_to_discord "now" Examples.ev_no_start "created" None
                  (mk_world None [])
  = (Raise (KeyError "start_at"), mk_world None []) /\
  exists embed fields,
    build_embed "now" Examples.evA "created" None = Ok embed /\
    embed_fields embed = Ok (VList fields) /\
    nth_error fields 1 = Some (field "🕒 Meetup Time" "Not specified" true).
Proof.
  destruct (notification_needs_start_at "now" Examples.no_start_fields
              "created" None (mk_world None []) eq_refl) as (_ & Hsend & Hm).
  split; [exact Hsend|].
  destruct (build_embed "now" Examples.evA "created" None) as [embed|e]
    eqn:Hb; [|discriminate Hb].
  destruct (Hm (Examples.event_fields 1 "X" "2024-01-01 10:00:00" "old text")
               embed eq_refl Hb) as (fields & Hf & Hn).
  exists embed, fields. auto.
Defined.

(** *** Failed fetches *)

(** A request that raises, a status other than 200 and a body that is not
    JSON all give the empty dictionary. *)
Lemma fetch_events_failed (r : http_result) :
  fetch_failed r -> fetch_events r = Ok (VDict []).
Proof.
  destruct r as [|status_code text]; simpl; [reflexivity|].
  intros [Hs|Hj].
  - destruct (Z.eqb_spec status_code 200); [contradiction | reflexivity].
  - destruct (status_code =? 200)%Z; [|reflexivity]. now rewrite Hj.
Qed.

(** C3.  A response with status 200 whose body is valid JSON but not an
    object escapes [fetch_events] as an exception: [data.keys()] raises
    [AttributeError] on the array [[]].  So do an object whose [response]
    is a number ([len] raises [TypeError]), whose [response] lists a
    non-object ([TypeError]) and whose [response] lists an object without
    [id] ([KeyError]). *)
Theorem fetch_events_non_object_raises :
  Json.loads "[]" = Ok (VList []) /\
  fetch_events (Response 200 "[]") = Raise AttributeError /\
  fetch_events
    (Response 200 (Json.dumps (VDict [("response", VInt 7)])))
  = Raise TypeError /\
  fetch_events
    (Response 200 (Json.dumps (VDict [("response", VList [VInt 7])])))
  = Raise TypeError /\
  fetch_events
    (Response 200 (Json.dumps (VDict [("response", VList [VDict []])])))
  = Raise (KeyError "id").
Proof. repeat split; vm_compute; reflexivity. Qed.

Lemma old_side_empty (old : dict) :
  flat_map (old_side []) old = map removed old.
Proof.
  induction old as [|[k ev] r IH]; [reflexivity|].
  cbn [flat_map map]. rewrite IH. reflexivity.
Qed.

Lemma detect_changes_all_removed (old : dict) :
  detect_changes (VDict old) (VDict []) = Ok (map removed old).
Proof.
  pose proof (detect_changes_spec old []) as H.
  destruct (detect_changes (VDict old) (VDict [])) as [cs|e].
  - subst cs. simpl. now rewrite old_side_empty.
  - destruct H as (k & ev & [] & _).
Qed.

Lemma notify_all_posts (clock : nat -> string) (changes : list change)
    (w w' : world) :
  notify_all clock changes w = (Ok tt, w') ->
  db_file w' = db_file w /\
  exists sent, posted w' = (posted w ++ sent)%list /\
               List.length sent = List.length changes.
Proof.
  revert w. induction changes as [|[[ct ev] ds] r IH]; intros w; simpl.
  - intros [= <-]. split; [reflexivity|]. exists []. now rewrite app_nil_r.
  - unfold send_to_discord.
    destruct (build_embed _ ev ct ds) as [embed|e]; [|discriminate].
    intros H. destruct (IH _ H) as [Hf (sent & Hp & Hl)]. simpl in Hf, Hp.
    split; [exact Hf|]. exists (embed :: sent). split.
    + now rewrite Hp, <- app_assoc.
    + simpl. now rewrite Hl.
Qed.

(** The sample run: the store holds one event and the request raises. *)
Lemma failed_fetch_sends_removed :
  let w := mk_world (Some (Json.dumps (VDict [("1", Examples.evA)]))) [] in
  load_db w = Ok (VDict [("1", Examples.evA)]) /\
  fetch_events RequestException = Ok (VDict []) /\
  detect_changes (VDict [("1", Examples.evA)]) (VDict [])
  = Ok [("removed", Examples.evA, None)] /\
  exists embed,
    build_embed (Examples.clock0 0) Examples.evA "removed" None = Ok embed /\
    poll_cycle Examples.clock0 RequestException w
    = (Ok tt, mk_world (Some "{}") [embed]).
Proof.
  repeat split; try (vm_compute; reflexivity).
  eexists. split; vm_compute; reflexivity.
Qed.

(** C1, amended.  In a polling cycle whose fetch fails while the store
    holds a non-empty snapshot, [detect_changes] returns one Removed record
    per event of the old snapshot, in its order; the cycle sends a
    notification for each and, when all were built, saves the empty
    snapshot. *)
Theorem failed_fetch_removes_all (clock : nat -> string) (r : http_result)
    (w : world) (old : dict) :
  fetch_failed r -> load_db w = Ok (VDict old) -> old <> [] ->
  detect_changes (VDict old) (VDict []) = Ok (map removed old) /\
  poll_cycle clock r w
  = (match notify_all clock (map removed old) w with
     | (Ok _, w') => (Ok tt, save_db (VDict []) w')
     | (Raise e, w') => (Raise e, w')
     end) /\
  (forall w', notify_all clock (map removed old) w = (Ok tt, w') ->
     db_file (save_db (VDict []) w') = Some "{}" /\
     exists sent, posted (save_db (VDict []) w') = (posted w ++ sent)%list /\
                  List.length sent = List.length old).
Proof.
  intros Hr Hl Hne. split; [apply detect_changes_all_removed|]. split.
  - unfold poll_cycle.
    rewrite Hl, (fetch_events_failed r Hr), detect_changes_all_removed.
    destruct old as [|kv rest]; [contradiction|]. reflexivity.
  - intros w' Hn. split; [reflexivity|].
    destruct (notify_all_posts _ _ _ _ Hn) as [_ (sent & Hp & Hlen)].
    exists sent. simpl. split; [exact Hp|].
    now rewrite Hlen, length_map.
Qed.

Lemma failed_fetch_removes_all_witness :
  let w := mk_world (Some (Json.dumps (VDict [("1", Examples.evA)]))) [] in
  detect_changes (VDict [("1", Examples.evA)]) (VDict [])
  = Ok (map removed [("1", Examples.evA)]) /\
  poll_cycle Examples.clock0 RequestException w
  = (match notify_all Examples.clock0 (map removed [("1", Examples.evA)]) w
     with
     | (Ok _, w') => (Ok tt, save_db (VDict []) w')
     | (Raise e, w') => (Raise e, w')
     end) /\
  (forall w',
     notify_all Examples.clock0 (map removed [("1", Examples.evA)]) w
     = (Ok tt, w') ->
     db_file (save_db (VDict []) w') = Some "{}" /\
     exists sent, posted (save_db (VDict []) w') = (posted w ++ sent)%list /\
                  List.length sent = List.length [("1", Examples.evA)]).
Proof.
  intros w.
  apply (failed_fetch_removes_all Examples.clock0 RequestException w
           [("1", Examples.evA)]).
  - exact I.
  - vm_compute. reflexivity.
  - discriminate.
Defined.

(** *** The decoder reads back what the encoder writes *)

Lemma string_app_assoc (x y z : string) : (x ++ y) ++ z = x ++ (y ++ z).
Proof. induction x; simpl; congruence. Qed.

(** Strings *)

Lemma scan_string_escape (c : ascii) (tail : string) :
  Json.scan_string (Json.escape_char c ++ tail)
  = Json.prepend (String c "") (Json.scan_string tail).
Proof.
  destruct c as [[] [] [] [] [] [] [] []]; reflexivity.
Qed.

Lemma scan_string_encoded (s rest : string) :
  Json.scan_string (str_concat_map Json.escape_char s ++ String Json.dq rest)
  = Ok (s, rest).
Proof.
  induction s as [|c s IH]; [reflexivity|].
  cbn [str_concat_map]. rewrite string_app_assoc, scan_string_escape, IH.
  reflexivity.
Qed.

Lemma encode_str_app (s rest : string) :
  Json.encode_str s ++ rest
  = String Json.dq
      (str_concat_map Json.escape_char s ++ String Json.dq rest).
Proof.
  unfold Json.encode_str. cbn [append]. now rewrite string_app_assoc.
Qed.

(** Blanks and line breaks *)

Lemma skip_ws_blanks (n : nat) (s : string) :
  Json.skip_ws (Json.blanks n ++ s) = Json.skip_ws s.
Proof. induction n as [|n IH]; [reflexivity | exact IH]. Qed.

Lemma skip_ws_newline_indent (level : nat) (s : string) :
  Json.skip_ws (Json.newline_indent level ++ s) = Json.skip_ws s.
Proof.
  unfold Json.newline_indent. rewrite string_app_assoc.
  cbn [Json.nl append Json.skip_ws]. apply skip_ws_blanks.
Qed.

(** Integers *)

Lemma pos_to_uint_head (p : positive) (d : Decimal.uint) :
  Pos.to_uint p <> Decimal.D0 d.
Proof.
  intros E.
  assert (U : Decimal.unorm (Pos.to_uint p) = Pos.to_uint p).
  { rewrite <- (DecimalPos.Unsigned.to_of (Pos.to_uint p)).
    now rewrite DecimalPos.Unsigned.of_to. }
  assert (Hnz : Decimal.nzhead (Pos.to_uint p) <> Decimal.Nil).
  { intros Hn. apply DecimalFacts.unorm_0 in Hn. rewrite U in Hn.
    now apply DecimalPos.Unsigned.to_uint_nonzero in Hn. }
  rewrite (DecimalFacts.unorm_nzhead _ Hnz) in U.
  rewrite E in U. now apply DecimalFacts.nzhead_nonzero in U.
Qed.

Lemma terminated_no_digit (rest : string) :
  terminated rest = true ->
  Json.span_digits rest = ("", rest) /\ Json.starts_float_tail rest = false.
Proof.
  destruct rest as [|c r]; [now split|]. cbn [terminated].
  intros H. apply orb_true_iff in H.
  destruct H as [H|H]; apply Ascii.eqb_eq in H; subst c.
  - split; [reflexivity|]. destruct r; reflexivity.
  - split; [reflexivity|]. destruct r; reflexivity.
Qed.

Lemma span_digits_uint (d : Decimal.uint) (rest : string) :
  Json.span_digits rest = ("", rest) ->
  Json.span_digits (NilEmpty.string_of_uint d ++ rest)
  = (NilEmpty.string_of_uint d, rest).
Proof.
  intros Hr. induction d; cbn [NilEmpty.string_of_uint append];
    [exact Hr | ..];
    cbn [Json.span_digits]; rewrite IHd; reflexivity.
Qed.

Lemma scan_unsigned_uint (neg : bool) (d : Decimal.uint) (rest : string) :
  d <> Decimal.Nil -> (forall d', d <> Decimal.D0 d') ->
  terminated rest = true ->
  Json.scan_unsigned neg (NilEmpty.string_of_uint d ++ rest)
  = Some (Ok (VInt (if neg then - Z.of_uint d else Z.of_uint d)%Z, rest)).
Proof.
  intros Hnil Hzero Ht.
  destruct (terminated_no_digit rest Ht) as [Hspan Hfloat].
  pose proof (span_digits_uint d rest Hspan) as Hd.
  pose proof (NilEmpty.usu d) as Hu.
  destruct d; try contradiction; try (now exfalso; eapply Hzero);
    cbn [NilEmpty.string_of_uint append] in Hd |- *;
    unfold Json.scan_unsigned;
    cbn [Json.is_digit nat_of_ascii Ascii.eqb Bool.eqb andb];
    (match goal with
     | |- context [if ?b then _ else None] =>
         change b with true; cbv iota
     end);
    rewrite Hd, Hfloat; cbn [NilEmpty.string_of_uint] in Hu; rewrite Hu;
    reflexivity.
Qed.

Lemma string_of_uint_nonnil (d : Decimal.uint) :
  d <> Decimal.Nil ->
  NilZero.string_of_uint d = NilEmpty.string_of_uint d.
Proof. destruct d; [contradiction | reflexivity ..]. Qed.

Lemma string_of_uint_starts (d : Decimal.uint) (rest : string) :
  d <> Decimal.Nil ->
  starts_number (NilEmpty.string_of_uint d ++ rest) = true.
Proof. destruct d; [contradiction | reflexivity ..]. Qed.

Lemma scan_number_Z (n : Z) (rest : string) :
  terminated rest = true ->
  Json.scan_number (str_of_Z n ++ rest) = Some (Ok (VInt n, rest)) /\
  starts_number (str_of_Z n ++ rest) = true.
Proof.
  intros Ht. unfold str_of_Z. destruct n as [|p|p]; cbn [Z.to_int].
  - destruct (terminated_no_digit rest Ht) as [_ Hf].
    split; [|reflexivity].
    cbn. now rewrite Hf.
  - cbn [NilZero.string_of_int].
    pose proof (DecimalPos.Unsigned.to_uint_nonnil p) as Hn.
    rewrite (string_of_uint_nonnil _ Hn).
    split; [|now apply string_of_uint_starts].
    assert (E : exists c r,
               NilEmpty.string_of_uint (Pos.to_uint p) ++ rest = String c r /\
               Ascii.eqb c "-" = false).
    { pose proof (pos_to_uint_head p) as Hz.
      destruct (Pos.to_uint p); [contradiction | ..];
        cbn [NilEmpty.string_of_uint append]; eexists _, _;
        (split; [reflexivity|reflexivity]). }
    destruct E as (c & r & E & Hc).
    unfold Json.scan_number. rewrite E, Hc, <- E.
    rewrite (scan_unsigned_uint false) by
      (auto using DecimalPos.Unsigned.to_uint_nonnil, pos_to_uint_head).
    repeat f_equal.
    exact (DecimalZ.of_to (Zpos p)).
  - cbn [NilZero.string_of_int].
    pose proof (DecimalPos.Unsigned.to_uint_nonnil p) as Hn.
    rewrite (string_of_uint_nonnil _ Hn).
    split; [|reflexivity].
    cbn [append]. unfold Json.scan_number.
    change (Ascii.eqb "-" "-") with true. cbv iota.
    rewrite (scan_unsigned_uint true) by
      (auto using DecimalPos.Unsigned.to_uint_nonnil, pos_to_uint_head).
    repeat f_equal.
    exact (DecimalZ.of_to (Zneg p)).
Qed.

Lemma parse_value_number (f : nat) (s : string)
    (res : result (value * string)) :
  starts_number s = true -> Json.scan_number s = Some res ->
  Json.parse_value (S f) s = res.
Proof.
  destruct s as [|c r]; [discriminate|].
  intros Hc Hn.
  assert (E : Json.parse_value (S f) (String c r)
              = match Json.scan_number (String c r) with
                | Some res => res
                | None =>
                    match Json.strip_prefix "NaN" (String c r),
                          Json.strip_prefix "Infinity" (String c r),
                          Json.strip_prefix "-Infinity" (String c r) with
                    | None, None, None => Raise JSONDecodeError
                    | _, _, _ => Raise Unsupported
                    end
                end).
  { cbn [starts_number] in Hc. clear Hn.
    destruct c as [[] [] [] [] [] [] [] []];
      try discriminate Hc; reflexivity. }
  rewrite E, Hn. reflexivity.
Qed.

Lemma parse_value_int (f : nat) (n : Z) (rest : string) :
  terminated rest = true ->
  Json.parse_value (S f) (str_of_Z n ++ rest) = Ok (VInt n, rest).
Proof.
  intros Ht. destruct (scan_number_Z n rest Ht) as [Hs Hh].
  now apply parse_value_number.
Qed.

Lemma parse_value_str (f : nat) (s rest : string) :
  Json.parse_value (S f) (Json.encode_str s ++ rest) = Ok (VStr s, rest).
Proof.
  rewrite encode_str_app. cbn [Json.parse_value].
  change (Ascii.eqb Json.dq Json.dq) with true. cbv iota.
  now rewrite scan_string_encoded.
Qed.

(** Heads of the encodings *)

Lemma starts_number_head (s : string) :
  starts_number s = true -> value_head s = true.
Proof.
  destruct s as [|c r]; [discriminate|]. cbn [starts_number value_head].
  destruct c as [[] [] [] [] [] [] [] []]; try discriminate; reflexivity.
Qed.

Lemma str_of_Z_starts (n : Z) (rest : string) :
  starts_number (str_of_Z n ++ rest) = true.
Proof.
  unfold str_of_Z. destruct n as [|p|p]; cbn [Z.to_int];
    try reflexivity.
  cbn [NilZero.string_of_int].
  pose proof (DecimalPos.Unsigned.to_uint_nonnil p) as Hn.
  rewrite (string_of_uint_nonnil _ Hn). now apply string_of_uint_starts.
Qed.

Lemma encode_head (level : nat) (v : value) (rest : string) :
  value_head (Json.encode level v ++ rest) = true.
Proof.
  destruct v as [ |[]|n|s|[|x l]|[|kv d]]; try reflexivity.
  cbn [Json.encode]. apply starts_number_head, str_of_Z_starts.
Qed.

Lemma value_head_skip_ws (s : string) :
  value_head s = true -> Json.skip_ws s = s.
Proof.
  destruct s as [|c r]; [discriminate|]. cbn [value_head Json.skip_ws].
  destruct (Json.is_ws c); [discriminate | reflexivity].
Qed.

Lemma value_head_not_bracket (s : string) :
  value_head s = true ->
  exists c r, s = String c r /\ Ascii.eqb c "]" = false.
Proof.
  destruct s as [|c r]; [discriminate|]. cbn [value_head].
  intros H. exists c, r. split; [reflexivity|].
  destruct (Ascii.eqb c "]"); [|reflexivity].
  now rewrite andb_false_r in H.
Qed.

(** Fuel *)

Lemma fuel_needed_list (l : list value) :
  fuel_needed (VList l) = S (fuel_elems l).
Proof.
  destruct l; reflexivity.
Qed.

Lemma fuel_needed_dict (d : dict) :
  fuel_needed (VDict d) = S (fuel_members d).
Proof.
  cbn [fuel_needed]. f_equal.
  induction d as [|[k x] r IH]; [reflexivity|].
  cbn [fuel_members fold_right snd]. fold (fuel_members r).
  now rewrite <- IH.
Qed.

(** [dict(pairs)] on pairs with different keys *)

Lemma fold_dict_set_fresh (d acc : dict) :
  NoDup (map fst d) ->
  (forall k, In k (map fst d) -> dict_mem k acc = false) ->
  fold_left (fun a kv => dict_set (fst kv) (snd kv) a) d acc
  = (acc ++ d)%list.
Proof.
  revert acc. induction d as [|[k x] r IH]; intros acc Hnd Hfresh.
  - cbn. now rewrite app_nil_r.
  - cbn [fold_left fst snd]. inversion Hnd as [|? ? Hnot Hnd']; subst.
    rewrite dict_set_fresh by (apply Hfresh; now left).
    assert (Hacc : forall k', In k' (map fst r) ->
                     dict_mem k' (acc ++ [(k, x)])%list = false).
    { intros k' Hk'. rewrite dict_mem_app.
      rewrite (Hfresh k') by now right.
      unfold dict_mem. cbn [dict_get orb].
      destruct (String.eqb_spec k' k) as [->|_];
        [contradiction | reflexivity]. }
    rewrite (IH _ Hnd' Hacc). now rewrite <- app_assoc.
Qed.

Lemma dict_of_pairs_nodup (d : dict) :
  NoDup (map fst d) -> Json.dict_of_pairs d = d.
Proof.
  intros Hnd. unfold Json.dict_of_pairs.
  now rewrite fold_dict_set_fresh.
Qed.

(** Arrays and objects *)

Lemma skip_ws_close (c : ascii) (rest : string) :
  Json.is_ws c = false -> Json.skip_ws (String c rest) = String c rest.
Proof. intros H. cbn [Json.skip_ws]. now rewrite H. Qed.

Lemma terminated_newline_indent (level : nat) (s : string) :
  terminated (Json.newline_indent level ++ s) = true.
Proof. reflexivity. Qed.

Lemma parse_elements_encoded (level : nat) (l : list value) :
  Forall reads_back l -> Forall wf_value l -> l <> [] ->
  forall fuel rest, fuel_elems l <= fuel ->
    Json.parse_elements fuel
      (join ("," ++ Json.newline_indent (S level))
            (map (Json.encode (S level)) l)
       ++ Json.newline_indent level ++ "]" ++ rest)
    = Ok (l, rest).
Proof.
  induction l as [|x r IHr]; [contradiction|].
  intros Hrb Hwf _ fuel rest Hfuel.
  inversion Hrb as [|? ? Hx Hr]; subst.
  inversion Hwf as [|? ? Wx Wr]; subst.
  cbn [fuel_elems fold_right] in Hfuel. fold (fuel_elems r) in Hfuel.
  destruct fuel as [|f]; [lia|].
  cbn [Json.parse_elements].
  destruct r as [|y r'].
  - cbn [map join].
    rewrite (Hx (S level) f) by
      (auto using terminated_newline_indent; cbn in Hfuel; lia).
    cbn [bind]. rewrite skip_ws_newline_indent.
    reflexivity.
  - change (join ("," ++ Json.newline_indent (S level))
                 (map (Json.encode (S level)) (x :: y :: r')))
      with (Json.encode (S level) x
            ++ ("," ++ Json.newline_indent (S level))
            ++ join ("," ++ Json.newline_indent (S level))
                    (map (Json.encode (S level)) (y :: r'))).
    rewrite !string_app_assoc.
    rewrite (Hx (S level) f) by (auto; lia).
    cbn [bind append Json.skip_ws]. 
    change (Json.is_ws ",") with false. cbv iota.
    change (Ascii.eqb "," "]") with false.
    change (Ascii.eqb "," ",") with true. cbv iota.
    rewrite skip_ws_newline_indent.
    match goal with
    | |- context [Json.skip_ws ?t] =>
        assert (Hhead : value_head t = true)
    end.
    { destruct r'; cbn [map join]; rewrite ?string_app_assoc;
        apply encode_head. }
    rewrite (value_head_skip_ws _ Hhead).
    assert (HI := IHr Hr Wr ltac:(discriminate) f rest ltac:(lia)).
    cbn [append] in HI. rewrite HI.
    reflexivity.
Qed.

Lemma members_head (level : nat) (d : dict) (tail : string) :
  d <> [] ->
  exists X,
    join ("," ++ Json.newline_indent (S level)) (map (member_text level) d)
    ++ tail
    = String Json.dq X.
Proof.
  destruct d as [|[k x] [|kv r]]; [contradiction | |]; intros _;
    cbn [map join]; unfold member_text at 1; cbn [fst snd];
    rewrite !string_app_assoc, encode_str_app; eexists; reflexivity.
Qed.

Lemma string_cons_inj (c c' : ascii) (a b : string) :
  String c a = String c' b -> a = b.
Proof. now intros [= _ E]. Qed.

(** One member: the key, the colon, the value. *)
Lemma parse_members_step (f : nat) (k : string) (text : string) :
  Json.parse_members (S f)
    (str_concat_map Json.escape_char k ++ String Json.dq (": " ++ text))
  = bind (Json.parse_value f (Json.skip_ws text)) (fun '(v, s2) =>
      match Json.skip_ws s2 with
      | String c2 r2 =>
          if Ascii.eqb c2 "}" then Ok ([(k, v)], r2)
          else if Ascii.eqb c2 "," then
            match Json.skip_ws r2 with
            | String c3 r3 =>
                if Ascii.eqb c3 Json.dq then
                  bind (Json.parse_members f r3)
                       (fun '(ps, rest) => Ok ((k, v) :: ps, rest))
                else Raise JSONDecodeError
            | EmptyString => Raise JSONDecodeError
            end
          else Raise JSONDecodeError
      | EmptyString => Raise JSONDecodeError
      end).
Proof.
  cbn [Json.parse_members]. rewrite scan_string_encoded. reflexivity.
Qed.

Lemma parse_members_encoded (level : nat) (d : dict) :
  Forall (fun kv => reads_back (snd kv)) d ->
  Forall (fun kv => wf_value (snd kv)) d -> d <> [] ->
  forall fuel rest X, fuel_members d <= fuel ->
    join ("," ++ Json.newline_indent (S level)) (map (member_text level) d)
    ++ Json.newline_indent level ++ "}" ++ rest
    = String Json.dq X ->
    Json.parse_members fuel X = Ok (d, rest).
Proof.
  induction d as [|[k x] r IHr]; [contradiction|].
  intros Hrb Hwf _ fuel rest X Hfuel Htext.
  inversion Hrb as [|? ? Hx Hr]; subst.
  inversion Hwf as [|? ? Wx Wr]; subst.
  cbn [snd] in Hx, Wx.
  cbn [fuel_members fold_right snd] in Hfuel. fold (fuel_members r) in Hfuel.
  destruct fuel as [|f]; [lia|].
  destruct r as [|kv r'].
  - cbn [map join] in Htext. unfold member_text in Htext.
    cbn [fst snd] in Htext.
    rewrite !string_app_assoc, encode_str_app in Htext.
    apply string_cons_inj in Htext. subst X.
    rewrite parse_members_step.
    rewrite (value_head_skip_ws _ (encode_head _ _ _)).
    rewrite (Hx (S level) f) by
      (auto using terminated_newline_indent; cbn in Hfuel; lia).
    cbn [bind]. rewrite skip_ws_newline_indent. reflexivity.
  - destruct (members_head level (kv :: r')
                (Json.newline_indent level ++ "}" ++ rest)
                ltac:(discriminate)) as [X' HX'].
    change (join ("," ++ Json.newline_indent (S level))
                 (map (member_text level) ((k, x) :: kv :: r')))
      with (member_text level (k, x)
            ++ ("," ++ Json.newline_indent (S level))
            ++ join ("," ++ Json.newline_indent (S level))
                    (map (member_text level) (kv :: r'))) in Htext.
    unfold member_text at 1 in Htext. cbn [fst snd] in Htext.
    rewrite !string_app_assoc in Htext. rewrite ?string_app_assoc in HX'.
    rewrite HX', encode_str_app in Htext.
    apply string_cons_inj in Htext. subst X.
    rewrite parse_members_step.
    rewrite (value_head_skip_ws _ (encode_head _ _ _)).
    rewrite (Hx (S level) f) by (auto; lia).
    cbn [bind append Json.skip_ws].
    change (Json.is_ws ",") with false. cbv iota.
    change (Ascii.eqb "," "}") with false.
    change (Ascii.eqb "," ",") with true. cbv iota.
    rewrite skip_ws_newline_indent.
    cbn [Json.skip_ws]. change (Json.is_ws Json.dq) with false. cbv iota.
    change (Ascii.eqb Json.dq Json.dq) with true. cbv iota.
    rewrite (IHr Hr Wr ltac:(discriminate) f rest X') by
      (try lia; exact HX').
    reflexivity.
Qed.

Lemma encode_list (level : nat) (x : value) (r : list value) :
  Json.encode level (VList (x :: r))
  = "[" ++ Json.newline_indent (S level)
        ++ join ("," ++ Json.newline_indent (S level))
                (map (Json.encode (S level)) (x :: r))
        ++ Json.newline_indent level ++ "]".
Proof. reflexivity. Qed.

Lemma encode_dict (level : nat) (kv : string * value) (r : dict) :
  Json.encode level (VDict (kv :: r))
  = "{" ++ Json.newline_indent (S level)
        ++ join ("," ++ Json.newline_indent (S level))
                (map (member_text level) (kv :: r))
        ++ Json.newline_indent level ++ "}".
Proof. reflexivity. Qed.

Lemma parse_value_open_list (f : nat) (text : string) :
  value_head text = true ->
  Json.parse_value (S f) (String "[" text)
  = bind (Json.parse_elements f text)
         (fun '(vs, rest) => Ok (VList vs, rest)).
Proof.
  intros H. cbn [Json.parse_value].
  change (Ascii.eqb "[" Json.dq) with false.
  change (Ascii.eqb "[" "{") with false.
  change (Ascii.eqb "[" "[") with true. cbv iota.
  rewrite (value_head_skip_ws _ H).
  destruct (value_head_not_bracket _ H) as (c & r & -> & Hc).
  now rewrite Hc.
Qed.

Lemma parse_value_open_dict (f : nat) (text : string) :
  Json.parse_value (S f) (String "{" (String Json.dq text))
  = bind (Json.parse_members f text)
         (fun '(pairs, rest) => Ok (VDict (Json.dict_of_pairs pairs), rest)).
Proof. reflexivity. Qed.

(** Every well-formed value is read back from its encoding. *)
Lemma encode_reads_back (v : value) : reads_back v.
Proof.
  induction v as [ |b|n|s|l IH|d IH] using value_ind';
    intros level fuel rest Hwf Hfuel Ht.
  - destruct fuel as [|f]; [cbn in Hfuel; lia | reflexivity].
  - destruct fuel as [|f]; [cbn in Hfuel; lia | destruct b; reflexivity].
  - destruct fuel as [|f]; [cbn in Hfuel; lia | now apply parse_value_int].
  - destruct fuel as [|f]; [cbn in Hfuel; lia | apply parse_value_str].
  - rewrite fuel_needed_list in Hfuel.
    destruct fuel as [|f]; [lia|].
    destruct l as [|x r]; [reflexivity|].
    rewrite encode_list, !string_app_assoc.
    change ("[" ++ ?t) with (String "[" t).
    apply wf_value_list in Hwf.
    assert (E : Json.parse_value (S f)
                  (String "["
                     (join ("," ++ Json.newline_indent (S level))
                           (map (Json.encode (S level)) (x :: r))
                      ++ Json.newline_indent level ++ "]" ++ rest))
                = Ok (VList (x :: r), rest)).
    { rewrite parse_value_open_list.
      - rewrite (parse_elements_encoded level (x :: r) IH Hwf)
          by (try discriminate; lia).
        reflexivity.
      - destruct r; cbn [map join]; rewrite ?string_app_assoc;
          apply encode_head. }
    rewrite <- E. cbn [append Json.parse_value].
    change (Ascii.eqb "[" Json.dq) with false.
    change (Ascii.eqb "[" "{") with false.
    change (Ascii.eqb "[" "[") with true. cbv iota.
    now rewrite skip_ws_newline_indent.
  - rewrite fuel_needed_dict in Hfuel.
    destruct fuel as [|f]; [lia|].
    destruct d as [|kv r]; [reflexivity|].
    rewrite encode_dict, !string_app_assoc.
    apply wf_value_dict in Hwf. destruct Hwf as [Hnd Hwf].
    destruct (members_head level (kv :: r)
                (Json.newline_indent level ++ "}" ++ rest)
                ltac:(discriminate)) as [X HX].
    rewrite HX.
    assert (E : Json.parse_value (S f) (String "{" (String Json.dq X))
                = Ok (VDict (kv :: r), rest)).
    { rewrite parse_value_open_dict.
      rewrite (parse_members_encoded level (kv :: r) IH Hwf
                 ltac:(discriminate) f rest X) by (try lia; exact HX).
      cbn [bind]. now rewrite dict_of_pairs_nodup. }
    rewrite <- E. cbn [append Json.parse_value].
    change (Ascii.eqb "{" Json.dq) with false.
    change (Ascii.eqb "{" "{") with true. cbv iota.
    now rewrite skip_ws_newline_indent.
Qed.

(** The length of the text is fuel enough *)

Lemma join_length_bound {A} (need : A -> nat) (txt : A -> string)
    (sep : string) (l : list A) :
  1 <= String.length sep ->
  Forall (fun a => need a <= String.length (txt a)) l ->
  fold_right (fun a acc => S (need a + acc)) 0 l
  <= String.length (join sep (map txt l)) + 1.
Proof.
  intros Hsep H. induction H as [|x r Hx Hr IH]; [cbn; lia|].
  cbn [fold_right]. destruct r as [|y r'].
  - cbn. lia.
  - change (join sep (map txt (x :: y :: r')))
      with (txt x ++ sep ++ join sep (map txt (y :: r'))).
    rewrite !string_app_length. lia.
Qed.

Lemma str_of_Z_length (n : Z) : 1 <= String.length (str_of_Z n).
Proof.
  pose proof (str_of_Z_starts n "") as H.
  destruct (str_of_Z n); [discriminate H | cbn; lia].
Qed.

Lemma fuel_needed_length (v : value) (level : nat) :
  fuel_needed v <= String.length (Json.encode level v).
Proof.
  revert level.
  induction v as [ |b|n|s|l IH|d IH] using value_ind'; intros level.
  - cbn. lia.
  - destruct b; cbn; lia.
  - cbn [fuel_needed Json.encode]. apply str_of_Z_length.
  - cbn. lia.
  - rewrite fuel_needed_list. destruct l as [|x r]; [cbn; lia|].
    rewrite encode_list, !string_app_length.
    assert (B : fuel_elems (x :: r)
                <= String.length
                     (join ("," ++ Json.newline_indent (S level))
                           (map (Json.encode (S level)) (x :: r))) + 1).
    { apply join_length_bound; [cbn; lia|].
      eapply Forall_impl; [|exact IH]. intros a Ha. apply Ha. }
    cbn [String.length] in *. lia.
  - rewrite fuel_needed_dict. destruct d as [|kv r]; [cbn; lia|].
    rewrite encode_dict, !string_app_length.
    assert (B : fuel_members (kv :: r)
                <= String.length
                     (join ("," ++ Json.newline_indent (S level))
                           (map (member_text level) (kv :: r))) + 1).
    { apply (join_length_bound (fun kv => fuel_needed (snd kv))
               (member_text level)); [cbn; lia|].
      eapply Forall_impl; [|exact IH]. intros a Ha. cbn beta in Ha.
      unfold member_text. rewrite !string_app_length.
      specialize (Ha (S level)). lia. }
    cbn [String.length] in *. lia.
Qed.

Lemma string_app_nil_r (s : string) : s ++ "" = s.
Proof. induction s; simpl; congruence. Qed.

(** [json.loads(json.dumps(v, indent=2, ensure_ascii=False))] is [v]. *)
Lemma loads_dumps (v : value) :
  wf_value v -> Json.loads (Json.dumps v) = Ok v.
Proof.
  intros Hwf. unfold Json.loads, Json.dumps.
  pose proof (encode_head 0 v "") as Hh. rewrite string_app_nil_r in Hh.
  rewrite (value_head_skip_ws _ Hh).
  pose proof (encode_reads_back v 0
                (2 * String.length (Json.encode 0 v) + 2) "" Hwf) as H.
  rewrite string_app_nil_r in H. rewrite H.
  - reflexivity.
  - pose proof (fuel_needed_length v 0). lia.
  - reflexivity.
Qed.

(** C10.  Saving a snapshot and loading it again gives the snapshot back:
    for every value of the model in which no dictionary holds a key twice,
    [load_db] after [save_db] returns that value, whatever the store held
    before. *)
Theorem save_load_roundtrip (data : value) (w : world) :
  wf_value data -> load_db (save_db data w) = Ok data.
Proof.
  intros Hwf. unfold load_db, save_db. cbn [db_file].
  now rewrite loads_dumps.
Qed.

Lemma save_load_roundtrip_witness :
  load_db (save_db (VDict [("1", Examples.evA); ("2", Examples.evB)])
                   (mk_world None []))
  = Ok (VDict [("1", Examples.evA); ("2", Examples.evB)]).
Proof.
  apply save_load_roundtrip.
  vm_compute. repeat split; nodup_strings.
Defined.

(** ** Further properties *)

Import Behaviour.

(** *** Removing one id *)

(** X1.  When the new snapshot is the old one without one event, the records
    of [detect_changes] that carry the id of that event are one Removed record
    for it, and nothing else. *)
Theorem removed_once (l1 l2 : dict) (k : string) (ev : value) :
  dict_mem k (l1 ++ l2)%list = false ->
  match detect_changes_ids (VDict (l1 ++ (k, ev) :: l2)%list)
                           (VDict (l1 ++ l2)%list) with
  | Ok cs =>
      filter (fun kc => fst kc =? k) cs = [(k, ("removed", ev, None))] /\
      detect_changes (VDict (l1 ++ (k, ev) :: l2)%list)
                     (VDict (l1 ++ l2)%list)
      = Ok (map snd cs)
  | Raise e =>
      exists k' ev', In (k', ev') (l1 ++ l2)%list /\
                     compare_events (dget (l1 ++ (k, ev) :: l2)%list k') ev'
                     = Raise e
  end.
Proof.
  intros Hk.
  pose proof (detect_changes_ids_spec (l1 ++ (k, ev) :: l2)%list (l1 ++ l2)%list) as H.
  pose proof (detect_changes_ids_erase (VDict (l1 ++ (k, ev) :: l2)%list)
                (VDict (l1 ++ l2)%list)) as He.
  destruct (detect_changes_ids _ _) as [cs|e].
  - split; [|exact He]. subst cs.
    pose proof Hk as Hnot. apply dict_mem_false_In in Hnot.
    rewrite map_app, in_app_iff in Hnot.
    rewrite (flat_map_app (old_side_ids (l1 ++ l2)%list)).
    cbn [flat_map]. rewrite !filter_app.
    rewrite (filter_flat_map_other k
               (new_side_ids (l1 ++ (k, ev) :: l2)%list) (l1 ++ l2)%list)
      by (auto using new_side_ids_shape; rewrite map_app, in_app_iff; tauto).
    rewrite (filter_flat_map_other k (old_side_ids (l1 ++ l2)%list) l1)
      by (auto using old_side_ids_shape).
    rewrite (filter_flat_map_other k (old_side_ids (l1 ++ l2)%list) l2)
      by (auto using old_side_ids_shape).
    unfold old_side_ids. rewrite Hk. simpl. now rewrite String.eqb_refl.
  - destruct H as (k' & ev' & Hin & Hm & Hc). exists k', ev'. auto.
Qed.

Lemma removed_once_witness :
  match detect_changes_ids
          (VDict ([("1", Examples.evA)]
                    ++ ("2", Examples.evB) :: [("3", Examples.evC)])%list)
          (VDict ([("1", Examples.evA)] ++ [("3", Examples.evC)])%list) with
  | Ok cs =>
      filter (fun kc => fst kc =? "2") cs
      = [("2", ("removed", Examples.evB, None))] /\
      detect_changes
        (VDict ([("1", Examples.evA)]
                  ++ ("2", Examples.evB) :: [("3", Examples.evC)])%list)
        (VDict ([("1", Examples.evA)] ++ [("3", Examples.evC)])%list)
      = Ok (map snd cs)
  | Raise e =>
      exists k' ev',
        In (k', ev') ([("1", Examples.evA)] ++ [("3", Examples.evC)])%list /\
        compare_events
          (dget ([("1", Examples.evA)]
                   ++ ("2", Examples.evB) :: [("3", Examples.evC)])%list k')
          ev'
        = Raise e
  end.
Proof.
  apply (removed_once [("1", Examples.evA)] [("3", Examples.evC)] "2"
                      Examples.evB).
  reflexivity.
Defined.

(** *** A snapshot against itself *)

Lemma same_tracked_refl (v : value) : wf_event v -> same_tracked v v.
Proof.
  intros (o & -> & Hwf). exists o, o. split; [reflexivity|].
  split; [reflexivity|]. intros key label _.
  now apply py_eq_refl, wf_normalize, wf_dget.
Qed.

Lemma detect_changes_unchanged (d : dict) :
  NoDup (keys d) -> Forall (fun kv => wf_event (snd kv)) d ->
  detect_changes (VDict d) (VDict d) = Ok [].
Proof.
  intros Hnd Hev. rewrite Forall_forall in Hev.
  assert (Hcmp : forall k ev, In (k, ev) d ->
                   dict_mem k d = true /\
                   compare_events (dget d k) ev = Ok []).
  { intros k ev Hin. split.
    - apply dict_mem_In. change k with (fst (k, ev)). now apply in_map.
    - unfold dget. rewrite (In_dict_get_NoDup k ev d Hnd Hin).
      apply compare_events_same_tracked, same_tracked_refl.
      exact (Hev (k, ev) Hin). }
  pose proof (detect_changes_spec d d) as H.
  destruct (detect_changes (VDict d) (VDict d)) as [cs|e].
  - subst cs. f_equal.
    rewrite !flat_map_nil; [reflexivity | |].
    + intros [k ev] Hin. unfold old_side, old_side_ids.
      now rewrite (proj1 (Hcmp k ev Hin)).
    + intros [k ev] Hin. unfold new_side, new_side_ids.
      destruct (Hcmp k ev Hin) as [-> ->]. reflexivity.
  - destruct H as (k & ev & Hin & _ & Hc).
    rewrite (proj2 (Hcmp k ev Hin)) in Hc. discriminate.
Qed.

(** *** Snapshots without a common id *)

Lemma flat_map_singleton {A B} (f : A -> list B) (g : A -> B) (l : list A) :
  (forall a, In a l -> f a = [g a]) -> flat_map f l = map g l.
Proof.
  induction l as [|a r IH]; intros H; [reflexivity|].
  cbn [flat_map map]. rewrite (H a) by now left.
  rewrite IH; [reflexivity|]. intros b Hb. apply H. now right.
Qed.

Lemma In_dict_mem {A} (k : string) (v : A) (d : list (string * A)) :
  In (k, v) d -> dict_mem k d = true.
Proof.
  intros H. apply dict_mem_In. change k with (fst (k, v)). now apply in_map.
Qed.

Lemma detect_changes_no_common_id (old new : dict) :
  (forall k, dict_mem k new = true -> dict_mem k old = false) ->
  detect_changes (VDict old) (VDict new)
  = Ok (map created new ++ map removed old)%list.
Proof.
  intros Hdis.
  pose proof (detect_changes_spec old new) as H.
  destruct (detect_changes (VDict old) (VDict new)) as [cs|e].
  - subst cs. f_equal. f_equal.
    + apply flat_map_singleton. intros [k ev] Hin.
      unfold new_side, new_side_ids.
      now rewrite (Hdis k (In_dict_mem _ _ _ Hin)).
    + apply flat_map_singleton. intros [k ev] Hin.
      unfold old_side, old_side_ids.
      destruct (dict_mem k new) eqn:Hm; [|reflexivity].
      apply Hdis in Hm. rewrite (In_dict_mem _ _ _ Hin) in Hm. discriminate.
  - destruct H as (k & ev & Hin & Hm & _).
    rewrite (Hdis k (In_dict_mem _ _ _ Hin)) in Hm. discriminate.
Qed.

(** X2.  When the two snapshots share no id, [detect_changes] compares nothing
    and cannot raise: it returns a Created record for every event of the new
    snapshot, in its order, then a Removed record for every event of the old
    one, in its order.  An empty old snapshot is the case in which every
    fetched event is announced as Created. *)
Theorem detect_changes_disjoint (old new : dict) :
  (forall k, dict_mem k new = true -> dict_mem k old = false) ->
  detect_changes (VDict old) (VDict new)
  = Ok (map created new ++ map removed old)%list /\
  (old = [] -> detect_changes (VDict old) (VDict new) = Ok (map created new)).
Proof.
  intros Hdis. rewrite (detect_changes_no_common_id old new Hdis).
  split; [reflexivity|]. intros ->. cbn [map]. now rewrite app_nil_r.
Qed.

Lemma detect_changes_disjoint_witness :
  detect_changes (VDict [("1", Examples.evA)])
                 (VDict [("2", Examples.evB); ("3", Examples.evC)])
  = Ok [("created", Examples.evB, None); ("created", Examples.evC, None);
        ("removed", Examples.evA, None)].
Proof.
  apply (detect_changes_disjoint [("1", Examples.evA)]
           [("2", Examples.evB); ("3", Examples.evC)]).
  intros k. unfold dict_mem. cbn [dict_get].
  destruct (String.eqb_spec k "2") as [->|_]; [reflexivity|].
  destruct (String.eqb_spec k "3") as [->|_]; [reflexivity|discriminate].
Defined.

(** *** What the field diff holds *)

Lemma field_entries_labels (o n : dict) (fields : list (string * string)) :
  NoDup (map snd fields) ->
  NoDup (map fst (flat_map (field_entry o n) fields)) /\
  (forall l, In l (map fst (flat_map (field_entry o n) fields)) ->
             In l (map snd fields)).
Proof.
  induction fields as [|[key label] r IH]; cbn [flat_map map snd];
    intros Hnd.
  - split; [constructor | tauto].
  - inversion Hnd as [|? ? Hnot Hnd']; subst.
    destruct (IH Hnd') as [IH1 IH2].
    rewrite map_app. unfold field_entry at 1 3.
    destruct (py_ne _ _); cbn [map fst app].
    + split.
      * constructor; auto.
      * intros l [<-|H]; [now left | right; auto].
    + split; [exact IH1|]. intros l H. right. auto.
Qed.

Lemma field_entries_differ (o n : dict) (fields : list (string * string))
    (l : string) (a b : value) :
  In (l, (a, b)) (flat_map (field_entry o n) fields) ->
  py_ne a b = true /\
  exists key, In (key, l) fields /\
              a = normalize key (dget o key) /\
              b = normalize key (dget n key).
Proof.
  intros H. apply in_flat_map in H. destruct H as ([key label] & Hin & H).
  unfold field_entry in H.
  destruct (py_ne (normalize key (dget o key)) (normalize key (dget n key)))
    eqn:Hne; [|destruct H].
  destruct H as [H|[]]. injection H as -> <- <-.
  split; [exact Hne|]. exists key. auto.
Qed.

(** X3.  The field diff that [compare_events] returns on two dictionaries
    holds each label once; every entry belongs to a tracked field, its two
    values are the normalised values of that field and they differ. *)
Theorem compare_events_entries (o n : dict) (ds : diff_map) :
  compare_events (VDict o) (VDict n) = Ok ds ->
  NoDup (map fst ds) /\
  List.length ds <= 9 /\
  forall l a b, In (l, (a, b)) ds ->
    py_ne a b = true /\
    exists key, In (key, l) fields_to_check /\
                a = normalize key (dget o key) /\
                b = normalize key (dget n key).
Proof.
  intros Hc. pose proof (compare_events_dict o n) as H. rewrite Hc in H.
  subst ds.
  destruct (field_entries_labels o n fields_to_check fields_to_check_labels)
    as [Hnd Hincl].
  split; [exact Hnd|]. split.
  - rewrite <- (length_map fst).
    apply (NoDup_incl_length Hnd (l' := map snd fields_to_check)).
    exact Hincl.
  - intros l a b. apply field_entries_differ.
Qed.

Lemma compare_events_entries_witness :
  let ds := [("Description", (VStr "old text", VStr "new text"))] in
  NoDup (map fst ds) /\
  List.length ds <= 9 /\
  forall l a b, In (l, (a, b)) ds ->
    py_ne a b = true /\
    exists key,
      In (key, l) fields_to_check /\
      a = normalize key
            (dget (Examples.event_fields 1 "X" "2024-01-01 10:00:00"
                                         "old text") key) /\
      b = normalize key
            (dget (Examples.event_fields 1 "X" "2024-01-01 10:00:00"
                                         "new text") key).
Proof.
  apply (compare_events_entries
           (Examples.event_fields 1 "X" "2024-01-01 10:00:00" "old text")
           (Examples.event_fields 1 "X" "2024-01-01 10:00:00" "new text")).
  vm_compute. reflexivity.
Defined.

(** *** What the field diff reads *)

Lemma compare_field_reads (o o' n n' : dict) (key label : string)
    (acc : diff_map) :
  dget o key = dget o' key -> dget n key = dget n' key ->
  dict_mem "id" n = dict_mem "id" n' ->
  dict_mem "name" n = dict_mem "name" n' ->
  compare_field (VDict o) (VDict n) key label acc
  = compare_field (VDict o') (VDict n') key label acc.
Proof.
  intros Ho Hn Hid Hname. unfold compare_field.
  cbn [py_get py_get_default bind].
  fold (dget o key) (dget n key) (dget o' key) (dget n' key).
  rewrite Ho, Hn.
  destruct (key =? "description"); [|reflexivity].
  destruct (py_ne _ _); [|reflexivity].
  unfold dict_mem in Hid, Hname. cbn [py_getitem].
  destruct (dict_get "id" n), (dict_get "id" n'); try discriminate Hid;
    cbn [bind]; [|reflexivity].
  destruct (dict_get "name" n), (dict_get "name" n');
    try discriminate Hname; reflexivity.
Qed.

Lemma compare_loop_reads (o o' n n' : dict)
    (fields : list (string * string)) (acc : diff_map) :
  (forall key label, In (key, label) fields ->
     dget o key = dget o' key /\ dget n key = dget n' key) ->
  dict_mem "id" n = dict_mem "id" n' ->
  dict_mem "name" n = dict_mem "name" n' ->
  compare_loop (VDict o) (VDict n) fields acc
  = compare_loop (VDict o') (VDict n') fields acc.
Proof.
  intros H Hid Hname. revert acc.
  induction fields as [|[key label] r IH]; intros acc; [reflexivity|].
  cbn [compare_loop].
  destruct (H key label (or_introl eq_refl)) as [Ho Hn].
  rewrite (compare_field_reads o o' n n' key label acc Ho Hn Hid Hname).
  destruct (compare_field (VDict o') (VDict n') key label acc) as [ds|e];
    cbn [bind]; [|reflexivity].
  apply IH. intros k l Hin. apply (H k l). now right.
Qed.

(** X4.  [compare_events] reads the two events only through [get] on the
    tracked keys and, for the description log, through the presence of [id]
    and [name] in the new event: two pairs of dictionaries that agree on these
    give the same field diff or the same exception.  Key order, untracked keys
    and the difference between an absent key and [None] do not matter. *)
Theorem compare_events_reads (o o' n n' : dict) :
  (forall key label, In (key, label) fields_to_check ->
     dget o key = dget o' key /\ dget n key = dget n' key) ->
  dict_mem "id" n = dict_mem "id" n' ->
  dict_mem "name" n = dict_mem "name" n' ->
  compare_events (VDict o) (VDict n) = compare_events (VDict o') (VDict n').
Proof.
  intros H Hid Hname. unfold compare_events.
  now apply compare_loop_reads.
Qed.

Lemma compare_events_reads_witness :
  compare_events Examples.evA Examples.evA'
  = compare_events Examples.evA_elsewhere Examples.evA'.
Proof.
  unfold Examples.evA, Examples.evA', Examples.evA_elsewhere, Examples.event.
  apply compare_events_reads; [|reflexivity|reflexivity].
  intros key label Hin. cbn [fields_to_check In] in Hin.
  in_cases Hin; split; reflexivity.
Defined.

(** *** Normalised fields *)

Lemma normalize_server (v : value) : normalize "server" v = norm_server v.
Proof. reflexivity. Qed.

Lemma normalize_location (key label : string) (v : value) :
  (key, label) = ("departure", "Start Location") \/
  (key, label) = ("arrive", "End Location") ->
  normalize key v = norm_location v.
Proof. intros [E|E]; injection E as -> ->; reflexivity. Qed.

(** X5.  The Server entry of the field diff depends on the [name] of the two
    server objects only: there is an entry, the pair of the two names, exactly
    when the names differ. *)
Theorem server_compared_by_name (o n so sn : dict) :
  dict_get "server" o = Some (VDict so) ->
  dict_get "server" n = Some (VDict sn) ->
  match compare_events (VDict o) (VDict n) with
  | Ok ds =>
      filter (fun e => fst e =? "Server") ds
      = (if py_ne (dget so "name") (dget sn "name")
         then [("Server", (dget so "name", dget sn "name"))]
         else [])
  | Raise e =>
      is_event (VDict n) = false /\
      py_ne (dget o "description") (dget n "description") = true
  end.
Proof.
  intros Ho Hn.
  pose proof (compare_events_label o n "server" "Server") as H.
  destruct (compare_events (VDict o) (VDict n)) as [ds|e].
  - rewrite H by (simpl; tauto). unfold field_entry.
    assert (Eo : dget o "server" = VDict so) by (unfold dget; now rewrite Ho).
    assert (En : dget n "server" = VDict sn) by (unfold dget; now rewrite Hn).
    rewrite Eo, En, !normalize_server. reflexivity.
  - apply H. simpl. tauto.
Qed.

Lemma server_compared_by_name_witness :
  exists ds, compare_events Examples.evA evA_other_server = Ok ds /\
             filter (fun e => fst e =? "Server") ds = [].
Proof.
  pose proof (server_compared_by_name
                (Examples.event_fields 1 "X" "2024-01-01 10:00:00" "old text")
                [("id", VInt 1); ("name", VStr "X");
                 ("start_at", VStr "2024-01-01 10:00:00");
                 ("departure", Examples.place "Paris" "Depot");
                 ("arrive", Examples.place "Rome" "Port");
                 ("url", VStr "/events/1");
                 ("vtc", VDict [("name", VStr "ATM")]);
                 ("game", VStr "ETS2");
                 ("server",
                  VDict [("id", VInt 9); ("name", VStr "Simulation 1")]);
                 ("map", VNone);
                 ("description", VStr "old text")]
                [("name", VStr "Simulation 1")]
                [("id", VInt 9); ("name", VStr "Simulation 1")]
                eq_refl eq_refl) as H.
  unfold Examples.evA, Examples.event, evA_other_server.
  destruct (compare_events _ _) as [ds|e].
  - exists ds. split; [reflexivity | exact H].
  - destruct H as [H _]. discriminate H.
Defined.

(** X6.  The Start Location and End Location entries depend on the display
    text [city (location)] of the two location objects only: there is an
    entry, the pair of the two texts, exactly when the texts differ.  Two
    different objects with the same display text give no entry.  The city
    and the location are texts, or values that hold ASCII text only, for
    which [str] is modelled. *)
Theorem location_compared_by_display (o n lo ln : dict)
    (key label : string) :
  (key, label) = ("departure", "Start Location") \/
  (key, label) = ("arrive", "End Location") ->
  dict_get key o = Some (VDict lo) -> dict_get key n = Some (VDict ln) ->
  exact_display lo = true -> exact_display ln = true ->
  match compare_events (VDict o) (VDict n) with
  | Ok ds =>
      filter (fun e => fst e =? label) ds
      = (if display lo =? display ln then []
         else [(label, (VStr (display lo), VStr (display ln)))])
  | Raise e =>
      is_event (VDict n) = false /\
      py_ne (dget o "description") (dget n "description") = true
  end.
Proof.
  intros Hkey Ho Hn _ _.
  assert (Hin : In (key, label) fields_to_check).
  { destruct Hkey as [->| ->]; simpl; tauto. }
  pose proof (compare_events_label o n key label Hin) as H.
  destruct (compare_events (VDict o) (VDict n)) as [ds|e]; [|exact H].
  rewrite H. unfold field_entry.
  assert (Eo : dget o key = VDict lo) by (unfold dget; now rewrite Ho).
  assert (En : dget n key = VDict ln) by (unfold dget; now rewrite Hn).
  rewrite Eo, En, !(normalize_location key label) by exact Hkey.
  cbn [norm_location]. fold (display lo) (display ln).
  rewrite py_ne_str. now destruct (display lo =? display ln).
Qed.

Lemma location_compared_by_display_witness :
  Examples.place "Lyon (Gare" "Sud" <> Examples.place "Lyon" "Gare (Sud" /\
  exists ds, compare_events (VDict loc1_fields) (VDict loc2_fields) = Ok ds /\
             filter (fun e => fst e =? "Start Location") ds = [].
Proof.
  split; [discriminate|].
  pose proof (location_compared_by_display loc1_fields loc2_fields
                [("city", VStr "Lyon (Gare"); ("location", VStr "Sud")]
                [("city", VStr "Lyon"); ("location", VStr "Gare (Sud")]
                "departure" "Start Location"
                (or_introl eq_refl) eq_refl eq_refl eq_refl eq_refl) as H.
  destruct (compare_events _ _) as [ds|e].
  - exists ds. split; [reflexivity | exact H].
  - destruct H as [H _]. discriminate H.
Defined.

(** *** Absent fields *)

Lemma normalize_none (key : string) : normalize key VNone = VNone.
Proof.
  unfold normalize.
  destruct (key =? "server"), ((key =? "departure") || (key =? "arrive")),
    ((key =? "start_at") || (key =? "meetup_at")); reflexivity.
Qed.

Lemma py_ne_none (v : value) : py_ne VNone v = true <-> v <> VNone.
Proof.
  unfold py_ne. destruct v; simpl; split; intros H;
    try reflexivity; try discriminate; try congruence.
Qed.

(** X7.  A tracked key that the old event does not hold, or holds as [None],
    is compared as [None]: there is no entry when the new event's value
    normalises to [None] too, in particular when it is absent or [None], and
    otherwise one entry with [None] as the old value. *)
Theorem absent_field_is_none (o n : dict) (key label : string) :
  In (key, label) fields_to_check ->
  dget o key = VNone ->
  match compare_events (VDict o) (VDict n) with
  | Ok ds =>
      (dget n key = VNone ->
       filter (fun e => fst e =? label) ds = []) /\
      (normalize key (dget n key) <> VNone ->
       filter (fun e => fst e =? label) ds
       = [(label, (VNone, normalize key (dget n key)))])
  | Raise e =>
      is_event (VDict n) = false /\
      py_ne (dget o "description") (dget n "description") = true
  end.
Proof.
  intros Hin Ho.
  pose proof (compare_events_label o n key label Hin) as H.
  destruct (compare_events (VDict o) (VDict n)) as [ds|e]; [|exact H].
  rewrite H. unfold field_entry. rewrite Ho, normalize_none. split.
  - intros ->. now rewrite normalize_none.
  - intros Hv. apply py_ne_none in Hv. now rewrite Hv.
Qed.

Lemma absent_field_is_none_witness :
  exists ds,
    compare_events Examples.evA evA_other_server = Ok ds /\
    filter (fun e => fst e =? "Map") ds = [] /\
  exists ds',
    compare_events Examples.ev_no_start Examples.evA = Ok ds' /\
    filter (fun e => fst e =? "Start Time") ds'
    = [("Start Time", (VNone, VStr "<t:1704103200:F>"))].
Proof.
  pose proof (absent_field_is_none
                (Examples.event_fields 1 "X" "2024-01-01 10:00:00" "old text")
                [("id", VInt 1); ("name", VStr "X");
                 ("start_at", VStr "2024-01-01 10:00:00");
                 ("departure", Examples.place "Paris" "Depot");
                 ("arrive", Examples.place "Rome" "Port");
                 ("url", VStr "/events/1");
                 ("vtc", VDict [("name", VStr "ATM")]);
                 ("game", VStr "ETS2");
                 ("server",
                  VDict [("id", VInt 9); ("name", VStr "Simulation 1")]);
                 ("map", VNone);
                 ("description", VStr "old text")]
                "map" "Map" ltac:(simpl; tauto) eq_refl) as H1.
  pose proof (absent_field_is_none Examples.no_start_fields
                (Examples.event_fields 1 "X" "2024-01-01 10:00:00" "old text")
                "start_at" "Start Time" ltac:(simpl; tauto) eq_refl) as H2.
  unfold Examples.evA, Examples.event, evA_other_server,
    Examples.ev_no_start.
  destruct (compare_events _ _) as [ds|e];
    [|destruct H1 as [H1 _]; discriminate H1].
  exists ds. split; [reflexivity|]. split; [apply H1; reflexivity|].
  destruct (compare_events _ _) as [ds'|e'];
    [|destruct H2 as [H2 _]; discriminate H2].
  exists ds'. split; [reflexivity|]. apply H2. discriminate.
Defined.

(** *** Rendering timestamps *)

(** Calendar arithmetic *)

Lemma days_before_year_succ (y : Z) :
  (days_before_year (y + 1)
   = days_before_year y + 365 + (if is_leap y then 1 else 0))%Z.
Proof.
  unfold days_before_year, is_leap.
  replace (y + 1 - 1)%Z with y by lia.
  destruct (y mod 4 =? 0)%Z eqn:E4; destruct (y mod 100 =? 0)%Z eqn:E100;
    destruct (y mod 400 =? 0)%Z eqn:E400; cbn [andb orb negb];
    rewrite ?Z.eqb_eq, ?Z.eqb_neq in *; cbv zeta;
    Z.to_euclidean_division_equations; lia.
Qed.

Lemma days_before_year_mono (y k : Z) :
  (0 <= k)%Z -> (days_before_year y <= days_before_year (y + k))%Z.
Proof.
  intros Hk. revert k Hk. apply natlike_ind.
  - rewrite Z.add_0_r. lia.
  - intros k Hk IH. replace (y + Z.succ k)%Z with ((y + k) + 1)%Z by lia.
    rewrite days_before_year_succ. destruct (is_leap (y + k)); lia.
Qed.

Lemma days_before_year_step (y y' : Z) :
  (y < y')%Z ->
  (days_before_year y + 365 + (if is_leap y then 1 else 0)
   <= days_before_year y')%Z.
Proof.
  intros H. rewrite <- days_before_year_succ.
  replace y' with ((y + 1) + (y' - y - 1))%Z by lia.
  apply days_before_year_mono. lia.
Qed.

Lemma month_cases (m : Z) :
  (1 <= m <= 12)%Z ->
  m = 1%Z \/ m = 2%Z \/ m = 3%Z \/ m = 4%Z \/ m = 5%Z \/ m = 6%Z \/
  m = 7%Z \/ m = 8%Z \/ m = 9%Z \/ m = 10%Z \/ m = 11%Z \/ m = 12%Z.
Proof. lia. Qed.

Ltac eval_closed :=
  repeat match goal with
         | |- context [nth ?n ?l ?d0] =>
             let v := eval vm_compute in (nth n l d0) in
             change (nth n l d0) with v
         | H : context [nth ?n ?l ?d0] |- _ =>
             let v := eval vm_compute in (nth n l d0) in
             change (nth n l d0) with v in H
         | |- context [Z.ltb ?a ?b] =>
             let v := eval vm_compute in (Z.ltb a b) in
             change (Z.ltb a b) with v
         | H : context [Z.ltb ?a ?b] |- _ =>
             let v := eval vm_compute in (Z.ltb a b) in
             change (Z.ltb a b) with v in H
         | |- context [Z.eqb ?a ?b] =>
             let v := eval vm_compute in (Z.eqb a b) in
             change (Z.eqb a b) with v
         | H : context [Z.eqb ?a ?b] |- _ =>
             let v := eval vm_compute in (Z.eqb a b) in
             change (Z.eqb a b) with v in H
         end;
  cbn [andb orb] in *.

Ltac month_split H :=
  apply month_cases in H;
  repeat (destruct H as [H|H]; [subst|]); [..|subst].

(** The day of the year of a valid date. *)
Lemma day_of_year_bounds (y m d : Z) :
  (1 <= m <= 12)%Z -> (1 <= d <= days_in_month y m)%Z ->
  (1 <= days_before_month y m + d
   <= 365 + (if is_leap y then 1 else 0))%Z.
Proof.
  intros Hm Hd. unfold days_before_month, days_in_month in *.
  remember (is_leap y) as leap eqn:El. clear El.
  month_split Hm; destruct leap; eval_closed; lia.
Qed.

Lemma day_of_year_inj (y m d m' d' : Z) :
  (1 <= m <= 12)%Z -> (1 <= d <= days_in_month y m)%Z ->
  (1 <= m' <= 12)%Z -> (1 <= d' <= days_in_month y m')%Z ->
  (days_before_month y m + d = days_before_month y m' + d')%Z ->
  m = m' /\ d = d'.
Proof.
  intros Hm Hd Hm' Hd' E. unfold days_before_month, days_in_month in *.
  remember (is_leap y) as leap eqn:El. clear El.
  month_split Hm; month_split Hm'; destruct leap; eval_closed; lia.
Qed.

Lemma valid_bounds (dt : datetime) :
  valid dt = true ->
  (1 <= year dt <= 9999 /\ 1 <= month dt <= 12 /\
   1 <= day dt <= days_in_month (year dt) (month dt) /\
   0 <= hour dt <= 23 /\ 0 <= minute dt <= 59 /\ 0 <= second dt <= 59)%Z.
Proof.
  unfold valid. rewrite !andb_true_iff, !Z.leb_le. tauto.
Qed.

Lemma ymd2ord_inj (y m d y' m' d' : Z) :
  (1 <= m <= 12)%Z -> (1 <= d <= days_in_month y m)%Z ->
  (1 <= m' <= 12)%Z -> (1 <= d' <= days_in_month y' m')%Z ->
  ymd2ord y m d = ymd2ord y' m' d' ->
  y = y' /\ m = m' /\ d = d'.
Proof.
  intros Hm Hd Hm' Hd' E. unfold ymd2ord in E.
  pose proof (day_of_year_bounds y m d Hm Hd) as B.
  pose proof (day_of_year_bounds y' m' d' Hm' Hd') as B'.
  assert (Ey : y = y').
  { destruct (Z.lt_trichotomy y y') as [H|[H|H]]; [|exact H|].
    - pose proof (days_before_year_step y y' H). lia.
    - pose proof (days_before_year_step y' y H). lia. }
  subst y'. split; [reflexivity|].
  apply (day_of_year_inj y); auto. lia.
Qed.

(** Different valid dates and times are different instants. *)
Lemma timestamp_inj (dt dt' : datetime) :
  valid dt = true -> valid dt' = true ->
  timestamp dt = timestamp dt' -> dt = dt'.
Proof.
  intros V V'. apply valid_bounds in V, V'.
  destruct dt as [y m d h mi s], dt' as [y' m' d' h' mi' s'].
  cbn [year month day hour minute second] in *.
  unfold timestamp. cbn [year month day hour minute second].
  intros E.
  assert (Eo : ymd2ord y m d = ymd2ord y' m' d') by lia.
  destruct (ymd2ord_inj y m d y' m' d') as (-> & -> & ->); try tauto.
  assert (h = h' /\ mi = mi' /\ s = s') as (-> & -> & ->) by lia.
  reflexivity.
Qed.

Lemma strptime_valid (s : string) (dt : datetime) :
  strptime s = Some dt -> valid dt = true.
Proof.
  unfold strptime.
  destruct (re_match format_regex s) as [[gs rest]|]; [|discriminate].
  destruct gs as [|gY [|gm [|gd [|gH [|gM [|gS [|? ?]]]]]]];
    try discriminate.
  destruct rest; [|discriminate].
  match goal with
  | |- (if valid ?d then _ else _) = _ -> _ =>
      destruct (valid d) eqn:V; [|discriminate]
  end.
  now intros [= <-].
Qed.

(** X8.  Two texts in the fixed format render to the same display string
    exactly when they denote the same date and time: a start that moves, by
    however little, never renders as before. *)
Theorem rendered_equal_iff_same_time (a b style : string)
    (da db : datetime) :
  strptime a = Some da -> strptime b = Some db ->
  (discord_timestamp (VStr a) style = discord_timestamp (VStr b) style
   <-> da = db).
Proof.
  intros Ha Hb.
  rewrite (discord_timestamp_parsed a style da Ha).
  rewrite (discord_timestamp_parsed b style db Hb).
  split.
  - intros [= E]. apply string_app_inv_tail, str_of_Z_inj in E.
    apply timestamp_inj; eauto using strptime_valid.
  - now intros ->.
Qed.

Lemma rendered_equal_iff_same_time_witness :
  discord_timestamp (VStr "2024-01-01 10:00:00") "F"
  = discord_timestamp (VStr "2024-1-1 10:0:0") "F" /\
  discord_timestamp (VStr "2024-01-01 10:00:00") "F"
  <> discord_timestamp (VStr "2024-01-02 10:00:00") "F".
Proof.
  split.
  - apply (rendered_equal_iff_same_time
             "2024-01-01 10:00:00" "2024-1-1 10:0:0" "F"
             (mk_datetime 2024 1 1 10 0 0) (mk_datetime 2024 1 1 10 0 0)
             eq_refl eq_refl).
    reflexivity.
  - intros E.
    apply (rendered_equal_iff_same_time
             "2024-01-01 10:00:00" "2024-01-02 10:00:00" "F"
             (mk_datetime 2024 1 1 10 0 0) (mk_datetime 2024 1 2 10 0 0)
             eq_refl eq_refl) in E.
    discriminate E.
Defined.

(** Texts in the fixed format *)

Lemma Z_range_cases (P : Z -> Prop) (k : nat) :
  Forall P (map Z.of_nat (seq 0 k)) ->
  forall n, (0 <= n < Z.of_nat k)%Z -> P n.
Proof.
  intros H n Hn. rewrite Forall_forall in H. apply H.
  apply in_map_iff. exists (Z.to_nat n). split; [lia|].
  apply in_seq. lia.
Qed.

Ltac by_cases_upto k :=
  match goal with
  | |- forall n, (0 <= n < _)%Z -> @?P n =>
      apply (Z_range_cases P k); cbn [seq map Z.of_nat Pos.of_succ_nat
                                        Pos.succ];
      repeat (apply Forall_cons; [|]); try apply Forall_nil
  end.

Lemma match_second (n : Z) :
  (0 <= n < 60)%Z ->
  re_match [Group re_S] (pad2 n) = Some ([pad2 n], "") /\
  int_of_group 0 (pad2 n) = n.
Proof.
  revert n. by_cases_upto 60%nat; split; reflexivity.
Qed.

Lemma match_minute (n : Z) :
  (0 <= n < 60)%Z ->
  (forall p tail,
     re_match (Group re_M :: Lit ":" :: p) (pad2 n ++ ":" ++ tail)
     = with_group (pad2 n) (re_match p tail)) /\
  int_of_group 0 (pad2 n) = n.
Proof.
  revert n. by_cases_upto 60%nat; split; reflexivity.
Qed.

Lemma match_hour (n : Z) :
  (0 <= n < 24)%Z ->
  (forall p tail,
     re_match (Spaces :: Group re_H :: Lit ":" :: p)
              (" " ++ pad2 n ++ ":" ++ tail)
     = with_group (pad2 n) (re_match p tail)) /\
  int_of_group 0 (pad2 n) = n.
Proof.
  revert n. by_cases_upto 24%nat; split; reflexivity.
Qed.

Lemma match_day (n : Z) :
  (0 <= n < 32)%Z -> (1 <= n)%Z ->
  (forall p tail,
     re_match (Group re_d :: Spaces :: p) (pad2 n ++ " " ++ tail)
     = with_group (pad2 n) (re_match (Spaces :: p) (" " ++ tail))) /\
  int_of_group 0 (pad2 n) = n.
Proof.
  revert n. by_cases_upto 32%nat; intros Hn; try lia; split; reflexivity.
Qed.

Lemma match_month (n : Z) :
  (0 <= n < 13)%Z -> (1 <= n)%Z ->
  (forall p tail,
     re_match (Group re_m :: Lit "-" :: p) (pad2 n ++ "-" ++ tail)
     = with_group (pad2 n) (re_match p tail)) /\
  int_of_group 0 (pad2 n) = n.
Proof.
  revert n. by_cases_upto 13%nat; intros Hn; try lia; split; reflexivity.
Qed.

Lemma digit_char_digit (k : Z) :
  (0 <= k < 10)%Z ->
  in_cls (digit_char k) digit = true /\
  (Z.of_nat (nat_of_ascii (digit_char k)) - 48)%Z = k.
Proof.
  revert k. by_cases_upto 10%nat; split; reflexivity.
Qed.

Lemma match_lit (c : ascii) (p : list item) (tail : string) :
  re_match (Lit c :: p) (String c tail) = re_match p tail.
Proof.
  cbn [re_match]. now rewrite Ascii.eqb_refl.
Qed.

Lemma match_single (alt : list cls) (p : list item) (s : string) :
  re_match (Group [alt] :: p) s
  = match take_classes alt s with
    | Some (m, r) => with_group m (re_match p r)
    | None => None
    end.
Proof.
  cbn [re_match]. destruct (take_classes alt s) as [[m r]|]; [|reflexivity].
  unfold with_group. destruct (re_match p r) as [[gs rest]|]; reflexivity.
Qed.

Lemma match_year (y : Z) :
  (0 <= y <= 9999)%Z ->
  (forall p tail,
     re_match (Group re_Y :: Lit "-" :: p) (pad4 y ++ "-" ++ tail)
     = with_group (pad4 y) (re_match p tail)) /\
  int_of_group 0 (pad4 y) = y.
Proof.
  intros Hy.
  assert (Ha : (0 <= y / 1000 < 10)%Z)
    by (Z.to_euclidean_division_equations; lia).
  assert (Hb : (0 <= (y / 100) mod 10 < 10)%Z)
    by (Z.to_euclidean_division_equations; lia).
  assert (Hc : (0 <= (y mod 100) / 10 < 10)%Z)
    by (Z.to_euclidean_division_equations; lia).
  assert (Hd : (0 <= (y mod 100) mod 10 < 10)%Z)
    by (Z.to_euclidean_division_equations; lia).
  destruct (digit_char_digit _ Ha) as [Ca Va].
  destruct (digit_char_digit _ Hb) as [Cb Vb].
  destruct (digit_char_digit _ Hc) as [Cc Vc].
  destruct (digit_char_digit _ Hd) as [Cd Vd].
  split.
  - intros p tail. unfold re_Y. rewrite match_single.
    unfold pad4, pad2. cbn [append take_classes].
    rewrite Ca, Cb, Cc, Cd. now rewrite match_lit.
  - unfold pad4, pad2. cbn [int_of_group].
    rewrite Ca, Cb, Cc, Cd, Va, Vb, Vc, Vd.
    Z.to_euclidean_division_equations; lia.
Qed.

(** Every valid date and time, written in the fixed format with leading
    zeros, is parsed back to itself. *)
Lemma strptime_padded (dt : datetime) :
  valid dt = true -> strptime (padded_text dt) = Some dt.
Proof.
  intros V. pose proof (valid_bounds dt V) as B.
  destruct dt as [y m d h mi s].
  cbn [year month day hour minute second] in B.
  destruct B as (By & Bm & Bd & Bh & Bmi & Bs).
  assert (Bd' : (d <= 31)%Z).
  { unfold days_in_month in Bd.
    destruct (m =? 2)%Z; [destruct (is_leap y)|];
      [| |destruct ((m =? 4) || (m =? 6) || (m =? 9) || (m =? 11))%Z];
      lia. }
  destruct (match_year y ltac:(lia)) as [MY IY].
  destruct (match_month m ltac:(lia) ltac:(lia)) as [Mm Im].
  destruct (match_day d ltac:(lia) ltac:(lia)) as [Md Id].
  destruct (match_hour h ltac:(lia)) as [Mh Ih].
  destruct (match_minute mi ltac:(lia)) as [Mmi Imi].
  destruct (match_second s ltac:(lia)) as [Ms Is].
  unfold strptime, padded_text, format_regex.
  cbn [year month day hour minute second].
  rewrite MY, Mm, Md, Mh, Mmi, Ms. cbn [with_group].
  rewrite IY, Im, Id, Ih, Imi, Is. now rewrite V.
Qed.

(** X9.  A text in the fixed format that denotes a valid date and time is
    always rendered, never handed back raw: the display string holds the
    number of seconds between 1970-01-01 00:00:00 and that time. *)
Theorem discord_timestamp_padded (dt : datetime) (style : string) :
  valid dt = true ->
  discord_timestamp (VStr (padded_text dt)) style
  = VStr ("<t:" ++ str_of_Z (timestamp dt) ++ ":" ++ style ++ ">") /\
  (timestamp dt
   = (ymd2ord (year dt) (month dt) (day dt)
      - ymd2ord 1970 1 1) * 86400
     + hour dt * 3600 + minute dt * 60 + second dt)%Z.
Proof.
  intros V. split.
  - apply discord_timestamp_parsed. now apply strptime_padded.
  - reflexivity.
Qed.

Lemma discord_timestamp_padded_witness :
  discord_timestamp (VStr "2024-02-29 23:59:59") "F"
  = VStr "<t:1709251199:F>".
Proof.
  apply (discord_timestamp_padded (mk_datetime 2024 2 29 23 59 59) "F").
  reflexivity.
Defined.

(** *** What the decoder returns *)

Lemma dict_set_keys {A} (k : string) (v : A) (d : list (string * A)) :
  keys (dict_set k v d)
  = if dict_mem k d then keys d else (keys d ++ [k])%list.
Proof.
  unfold keys, dict_mem.
  induction d as [|[k' v'] r IH]; cbn [dict_set dict_get map fst app];
    [reflexivity|].
  destruct (String.eqb k k'); [reflexivity|].
  cbn [map fst]. rewrite IH.
  destruct (dict_get k r); reflexivity.
Qed.

Lemma dict_set_NoDup {A} (k : string) (v : A) (d : list (string * A)) :
  NoDup (keys d) -> NoDup (keys (dict_set k v d)).
Proof.
  intros H. rewrite dict_set_keys.
  destruct (dict_mem k d) eqn:E; [exact H|].
  apply dict_mem_false_In in E.
  apply NoDup_app; [exact H | repeat constructor; intros [] | ].
  intros x Hx [<-|[]]. now apply E.
Qed.

Lemma dict_set_In {A} (k : string) (v : A) (d : list (string * A))
    (kv : string * A) :
  In kv (dict_set k v d) -> kv = (k, v) \/ In kv d.
Proof.
  induction d as [|[k' v'] r IH]; cbn [dict_set].
  - intros [<-|[]]. now left.
  - destruct (String.eqb_spec k k') as [->|_].
    + intros [<-|H]; [now left | right; now right].
    + intros [<-|H]; [right; now left|].
      destruct (IH H); [now left | right; now right].
Qed.

Lemma dict_set_get {A} (k : string) (v : A) (d : list (string * A)) :
  dict_get k (dict_set k v d) = Some v.
Proof.
  induction d as [|[k' v'] r IH]; cbn [dict_set dict_get].
  - now rewrite String.eqb_refl.
  - destruct (String.eqb k k') eqn:E; cbn [dict_get]; rewrite E;
      [reflexivity | exact IH].
Qed.

Lemma dict_set_mem {A} (k k' : string) (v : A) (d : list (string * A)) :
  dict_mem k' (dict_set k v d) = (k' =? k) || dict_mem k' d.
Proof.
  apply eq_true_iff_eq. rewrite orb_true_iff, !dict_mem_In.
  fold (keys (dict_set k v d)). rewrite dict_set_keys. fold (keys d).
  destruct (dict_mem k d) eqn:E.
  - apply dict_mem_In in E. rewrite String.eqb_eq.
    split; [now right | intros [->|H]; assumption].
  - rewrite in_app_iff, String.eqb_eq. cbn [In]. split.
    + intros [H|[<-|[]]]; [now right | now left].
    + intros [->|H]; [right; now left | now left].
Qed.

Lemma wf_dict_set (k : string) (v : value) (d : dict) :
  wf_value v -> wf_value (VDict d) -> wf_value (VDict (dict_set k v d)).
Proof.
  rewrite !wf_value_dict. intros Hv [Hnd Hall]. split.
  - now apply dict_set_NoDup.
  - rewrite Forall_forall in *. intros kv Hin.
    destruct (dict_set_In _ _ _ _ Hin) as [->|H]; [exact Hv | auto].
Qed.

Lemma wf_dict_of_pairs (ps : list (string * value)) :
  Forall (fun kv => wf_value (snd kv)) ps ->
  wf_value (VDict (Json.dict_of_pairs ps)).
Proof.
  unfold Json.dict_of_pairs.
  assert (G : forall acc, wf_value (VDict acc) ->
            Forall (fun kv => wf_value (snd kv)) ps ->
            wf_value (VDict (fold_left
                               (fun d kv => dict_set (fst kv) (snd kv) d)
                               ps acc))).
  { induction ps as [|[k v] r IH]; intros acc Hacc Hps; [exact Hacc|].
    inversion Hps; subst. cbn [fold_left fst snd].
    apply IH; [|assumption]. now apply wf_dict_set. }
  apply G. simpl. split; constructor.
Qed.

Lemma scan_number_int (s : string) (v : value) (rest : string) :
  Json.scan_number s = Some (Ok (v, rest)) -> exists n, v = VInt n.
Proof.
  assert (U : forall neg s1, Json.scan_unsigned neg s1 = Some (Ok (v, rest)) ->
                exists n, v = VInt n).
  { intros neg s1. unfold Json.scan_unsigned.
    destruct s1 as [|c r]; [discriminate|].
    destruct (Json.is_digit c); [|discriminate].
    destruct (if Ascii.eqb c "0" then ("0", r)
              else Json.span_digits (String c r)) as [ds rest'].
    destruct (Json.starts_float_tail rest'); [discriminate|].
    destruct (NilEmpty.uint_of_string ds); [|discriminate].
    intros [= <- _]. eauto. }
  unfold Json.scan_number. destruct s as [|c r]; [discriminate|].
  destruct (Ascii.eqb c "-"); apply U.
Qed.

Lemma parse_wf (fuel : nat) :
  (forall s v r, Json.parse_value fuel s = Ok (v, r) -> wf_value v) /\
  (forall s vs r, Json.parse_elements fuel s = Ok (vs, r) ->
                  Forall wf_value vs) /\
  (forall s ps r, Json.parse_members fuel s = Ok (ps, r) ->
                  Forall (fun kv => wf_value (snd kv)) ps).
Proof.
  induction fuel as [|f (IHv & IHe & IHm)];
    [repeat split; intros; discriminate|].
  split; [|split].
  - intros s v r H. cbn [Json.parse_value] in H.
    destruct s as [|c s]; [discriminate|].
    destruct (Ascii.eqb c Json.dq).
    { destruct (Json.scan_string s) as [[str rest]|]; cbn [bind] in H;
        [|discriminate].
      injection H as <- _. exact I. }
    destruct (Ascii.eqb c "{").
    { destruct (Json.skip_ws s) as [|c1 r1]; [discriminate|].
      destruct (Ascii.eqb c1 "}").
      { injection H as <- _. simpl. split; constructor. }
      destruct (Ascii.eqb c1 Json.dq); [|discriminate].
      destruct (Json.parse_members f r1) as [[ps rest]|] eqn:E;
        cbn [bind] in H; [|discriminate].
      injection H as <- _. apply wf_dict_of_pairs. exact (IHm _ _ _ E). }
    destruct (Ascii.eqb c "[").
    { destruct (Json.skip_ws s) as [|c1 r1]; [discriminate|].
      destruct (Ascii.eqb c1 "]").
      { injection H as <- _. exact I. }
      destruct (Json.parse_elements f (String c1 r1)) as [[vs rest]|] eqn:E;
        cbn [bind] in H; [|discriminate].
      injection H as <- _. apply wf_value_list. exact (IHe _ _ _ E). }
    destruct (Json.strip_prefix "null" (String c s)).
    { injection H as <- _. exact I. }
    destruct (Json.strip_prefix "true" (String c s)).
    { injection H as <- _. exact I. }
    destruct (Json.strip_prefix "false" (String c s)).
    { injection H as <- _. exact I. }
    destruct (Json.scan_number (String c s)) as [res|] eqn:En.
    { subst res. destruct (scan_number_int _ _ _ En) as [n ->]. exact I. }
    destruct (Json.strip_prefix "NaN" (String c s));
      [discriminate|].
    destruct (Json.strip_prefix "Infinity" (String c s));
      [discriminate|].
    destruct (Json.strip_prefix "-Infinity" (String c s)); discriminate.
  - intros s vs r H. cbn [Json.parse_elements] in H.
    destruct (Json.parse_value f s) as [[v s1]|] eqn:Ev; cbn [bind] in H;
      [|discriminate].
    destruct (Json.skip_ws s1) as [|c r1]; [discriminate|].
    destruct (Ascii.eqb c "]").
    { injection H as <- _. constructor; [exact (IHv _ _ _ Ev) | constructor]. }
    destruct (Ascii.eqb c ","); [|discriminate].
    destruct (Json.parse_elements f (Json.skip_ws r1)) as [[vs' rest]|] eqn:E;
      cbn [bind] in H; [|discriminate].
    injection H as <- _.
    constructor; [exact (IHv _ _ _ Ev) | exact (IHe _ _ _ E)].
  - intros s ps r H. cbn [Json.parse_members] in H.
    destruct (Json.scan_string s) as [[key s1]|]; cbn [bind] in H;
      [|discriminate].
    destruct (Json.skip_ws s1) as [|c r1]; [discriminate|].
    destruct (Ascii.eqb c ":"); [|discriminate].
    destruct (Json.parse_value f (Json.skip_ws r1)) as [[v s2]|] eqn:Ev;
      cbn [bind] in H; [|discriminate].
    destruct (Json.skip_ws s2) as [|c2 r2]; [discriminate|].
    destruct (Ascii.eqb c2 "}").
    { injection H as <- _. constructor; [exact (IHv _ _ _ Ev) | constructor]. }
    destruct (Ascii.eqb c2 ","); [|discriminate].
    destruct (Json.skip_ws r2) as [|c3 r3]; [discriminate|].
    destruct (Ascii.eqb c3 Json.dq); [|discriminate].
    destruct (Json.parse_members f r3) as [[ps' rest]|] eqn:E;
      cbn [bind] in H; [|discriminate].
    injection H as <- _.
    constructor; [exact (IHv _ _ _ Ev) | exact (IHm _ _ _ E)].
Qed.

Lemma loads_wf (s : string) (v : value) :
  Json.loads s = Ok v -> wf_value v.
Proof.
  unfold Json.loads.
  destruct (Json.parse_value _ _) as [[v' rest]|] eqn:E; cbn [bind];
    [|discriminate].
  destruct (Json.skip_ws rest); [|discriminate].
  intros [= <-]. exact (proj1 (parse_wf _) _ _ _ E).
Qed.

(** *** The snapshot [fetch_events] returns *)

Lemma index_by_id_spec (events : list value) (acc d : dict) :
  index_by_id events acc = Ok d ->
  Forall wf_value events -> keyed_by_id acc -> wf_value (VDict acc) ->
  keyed_by_id d /\ wf_value (VDict d) /\
  (forall k, dict_mem k acc = true -> dict_mem k d = true) /\
  (forall ev, In ev events ->
     exists id, py_getitem ev "id" = Ok id /\
                dict_mem (py_str id) d = true) /\
  (forall kv, In kv d -> In kv acc \/ In (snd kv) events).
Proof.
  revert acc. induction events as [|ev rest IH]; intros acc H Hev Hk Hwf.
  - injection H as <-. split; [exact Hk|]. split; [exact Hwf|].
    split; [auto|]. split; [intros ev [] | intros kv Hkv; now left].
  - cbn [index_by_id] in H.
    destruct (py_getitem ev "id") as [id|] eqn:Eid; cbn [bind] in H;
      [|discriminate].
    inversion Hev as [|? ? Hwev Hrest]; subst.
    assert (Hfields : exists fields, ev = VDict fields /\
                                     dict_get "id" fields = Some id).
    { destruct ev as [ | | | | |fields]; try discriminate Eid.
      exists fields. split; [reflexivity|]. cbn [py_getitem] in Eid.
      destruct (dict_get "id" fields); [congruence | discriminate]. }
    destruct (IH (dict_set (py_str id) ev acc) H Hrest)
      as (Hk' & Hwf' & Hmem & Hev' & Hin).
    + destruct Hk as [Hnd Hall]. split; [now apply dict_set_NoDup|].
      intros k e Hke.
      destruct (dict_set_In _ _ _ _ Hke) as [E|Hold];
        [|exact (Hall k e Hold)].
      injection E as -> ->. destruct Hfields as (fields & -> & Hid).
      exists fields, id. auto.
    + now apply wf_dict_set.
    + split; [exact Hk'|]. split; [exact Hwf'|]. split; [|split].
      * intros k Hm. apply Hmem. rewrite dict_set_mem, Hm.
        apply orb_true_r.
      * intros e [<-|He]; [|exact (Hev' e He)].
        exists id. split; [exact Eid|]. apply Hmem.
        rewrite dict_set_mem, String.eqb_refl. reflexivity.
      * intros kv Hkv. destruct (Hin kv Hkv) as [Hs|Hr];
          [|right; now right].
        destruct (dict_set_In _ _ _ _ Hs) as [->|Ha];
          [right; now left | now left].
Qed.

Lemma keyed_by_id_nil : keyed_by_id [].
Proof. split; [constructor | intros k ev []]. Qed.

Lemma wf_nil : wf_value (VDict []).
Proof. simpl. split; constructor. Qed.

Lemma fetch_events_spec (r : http_result) (v : value) :
  fetch_events r = Ok v ->
  exists d, v = VDict d /\ keyed_by_id d /\ wf_value (VDict d).
Proof.
  assert (Hnil : exists d, VDict [] = VDict d /\ keyed_by_id d /\
                           wf_value (VDict d)).
  { exists []. split; [reflexivity|]. split; [apply keyed_by_id_nil|].
    apply wf_nil. }
  destruct r as [|status_code text]; cbn [fetch_events].
  - intros [= <-]. exact Hnil.
  - destruct (negb (status_code =? 200)%Z); [intros [= <-]; exact Hnil|].
    destruct (Json.loads text) as [data|e] eqn:El.
    + pose proof (loads_wf _ _ El) as Hwf.
      destruct data as [ | | | | |o]; try discriminate.
      cbn [py_items py_get py_get_default bind].
      fold (dget o "error"). fold (dget o "response").
      destruct (negb (truthy (dget o "error")) && truthy (dget o "response"));
        [|intros [= <-]; exact Hnil].
      pose proof (wf_dget o "response" Hwf) as Hr.
      destruct (dget o "response") as [ | | | |events| ]; try discriminate.
      cbn [py_len bind].
      destruct (index_by_id events []) as [d|] eqn:Ei; cbn [bind];
        [|discriminate].
      intros [= <-]. exists d. split; [reflexivity|].
      apply wf_value_list in Hr.
      destruct (index_by_id_spec events [] d Ei Hr keyed_by_id_nil wf_nil)
        as (Hk & Hw & _). auto.
    + destruct e; try discriminate. intros [= <-]. exact Hnil.
Qed.

Lemma keyed_events (d : dict) :
  keyed_by_id d -> wf_value (VDict d) ->
  NoDup (keys d) /\ Forall (fun kv => wf_event (snd kv)) d.
Proof.
  intros [Hnd Hall] Hwf. split; [exact Hnd|].
  apply wf_value_dict in Hwf. destruct Hwf as [_ Hwf].
  rewrite Forall_forall in *. intros [k ev] Hin.
  destruct (Hall k ev Hin) as (fields & id & -> & _).
  exists fields. split; [reflexivity|]. exact (Hwf _ Hin).
Qed.

(** *** The notifier payload *)

Lemma getitem_spec (d : dict) (k : string) :
  match py_getitem (VDict d) k with
  | Ok _ => dict_mem k d = true
  | Raise e => dict_mem k d = false /\ lookup_error e
  end.
Proof.
  unfold py_getitem, dict_mem. destruct (dict_get k d); [reflexivity|].
  split; [reflexivity | right; eauto].
Qed.

Lemma getitem2_spec (d : dict) (a b : string) :
  match getitem2 (VDict d) a b with
  | Ok _ => has2 d a b = true
  | Raise e => has2 d a b = false /\ lookup_error e
  end.
Proof.
  unfold getitem2, has2, py_getitem, dict_mem. cbn [bind].
  destruct (dict_get a d) as [[ | | | | |x]|]; cbn [bind];
    try (split; [reflexivity | left; reflexivity]).
  - destruct (dict_get b x); [reflexivity|].
    split; [reflexivity | right; eauto].
  - split; [reflexivity | right; eauto].
Qed.

Ltac embed_step :=
  match goal with
  | |- context [bind (py_getitem (VDict ?d) ?k) _] =>
      let H := fresh "H" in
      pose proof (getitem_spec d k) as H;
      destruct (py_getitem (VDict d) k); cbn [bind];
      [| destruct H as [H ?]; split;
         [unfold notifiable; rewrite H, ?andb_false_r; reflexivity
         | assumption]]
  | |- context [bind (getitem2 (VDict ?d) ?a ?b) _] =>
      let H := fresh "H" in
      pose proof (getitem2_spec d a b) as H;
      destruct (getitem2 (VDict d) a b); cbn [bind];
      [| destruct H as [H ?]; split;
         [unfold notifiable; rewrite H, ?andb_false_r; reflexivity
         | assumption]]
  end.

Ltac embed_rest change_type :=
  repeat embed_step;
  destruct (change_type =? "created");
    [|destruct (change_type =? "removed")]; repeat embed_step;
  cbn [py_get_default bind];
  (split;
   [unfold notifiable;
    repeat match goal with H : _ = true |- _ => rewrite H end; reflexivity
   | eexists; split; reflexivity]).

Lemma build_embed_spec (utcnow : string) (d : dict) (change_type : string)
    (diffs : option diff_map) :
  match build_embed utcnow (VDict d) change_type diffs with
  | Ok embed =>
      notifiable d = true /\
      exists fields,
        embed_fields embed
        = Ok (VList (fields ++ appended_fields change_type diffs)) /\
        List.length fields = 6%nat
  | Raise e => notifiable d = false /\ lookup_error e
  end.
Proof.
  unfold build_embed.
  cbn [py_get py_get_default bind].
  destruct (truthy match dict_get "meetup_at" d with
                   | Some x => x | None => VNone end) eqn:Hm.
  - destruct (dict_get "meetup_at" d) as [m|] eqn:Em; [|discriminate Hm].
    assert (E : py_getitem (VDict d) "meetup_at" = Ok m)
      by (unfold py_getitem; now rewrite Em).
    rewrite E. cbn [bind].
    destruct (truthy match dict_get "start_at" d with
                   | Some x => x | None => VNone end) eqn:Hs;
      cbn [bind]; embed_rest change_type.
  - cbn [bind].
    destruct (truthy match dict_get "start_at" d with
                   | Some x => x | None => VNone end) eqn:Hs;
      cbn [bind]; embed_rest change_type.
Qed.

Lemma build_embed_sendable (utcnow : string) (c : change) :
  match build_embed utcnow (event_of c) (kind_of c) (diffs_of c) with
  | Ok _ => sendable c = true
  | Raise _ => sendable c = false
  end.
Proof.
  destruct c as [[ct ev] ds]. unfold sendable, event_of, kind_of, diffs_of.
  cbn [fst snd].
  destruct ev as [ | | | | |d]; try reflexivity.
  pose proof (build_embed_spec utcnow d ct ds) as H.
  destruct (build_embed utcnow (VDict d) ct ds); apply H.
Qed.

Lemma join_nonempty (sep x : string) (r : list string) :
  x <> "" -> join sep (x :: r) <> "".
Proof.
  intros Hx. cbn [join]. destruct r as [|y r]; [exact Hx|].
  destruct x as [|c x]; [contradiction | discriminate].
Qed.

Lemma diff_line_nonempty (entry : string * (value * value)) :
  diff_line entry <> "".
Proof.
  destruct entry as [f [old new]]. unfold diff_line.
  destruct (f =? "Description"); discriminate.
Qed.

Lemma changes_field_text (e : string * (value * value)) (ds : diff_map) :
  changes_field (e :: ds)
  = field "🔧 Changes" (join nl (map diff_line (e :: ds))) false.
Proof.
  unfold changes_field. cbn zeta.
  destruct (String.eqb_spec (join nl (map diff_line (e :: ds))) "")
    as [E|_]; [|reflexivity].
  exfalso. revert E. cbn [map]. apply join_nonempty, diff_line_nonempty.
Qed.

(** X10.  [build_embed] returns for a dictionary exactly when every subscript
    it evaluates is defined; otherwise it raises a [KeyError] or a
    [TypeError]. *)
Theorem build_embed_needs_keys (utcnow : string) (d : dict)
    (change_type : string) (diffs : option diff_map) :
  match build_embed utcnow (VDict d) change_type diffs with
  | Ok _ => notifiable d = true
  | Raise e => notifiable d = false /\ lookup_error e
  end.
Proof.
  pose proof (build_embed_spec utcnow d change_type diffs) as H.
  destruct (build_embed utcnow (VDict d) change_type diffs);
    [apply H | exact H].
Qed.

(** X11.  The payload has the six fixed fields; an update with a non-empty
    field diff adds the Changes field, whose text is one line per entry and
    never the fallback text. *)
Theorem changes_field_of_updates (utcnow : string) (d : dict)
    (change_type : string) (diffs : option diff_map) (embed : value) :
  build_embed utcnow (VDict d) change_type diffs = Ok embed ->
  exists fields,
    List.length fields = 6%nat /\
    embed_fields embed
    = Ok (VList
            (fields ++
             match diffs with
             | Some (e :: ds) =>
                 if change_type =? "updated"
                 then [field "🔧 Changes"
                             (join nl (map diff_line (e :: ds))) false]
                 else []
             | _ => []
             end)) /\
    forall e ds, join nl (map diff_line (e :: ds)) <> "".
Proof.
  intros Hb. pose proof (build_embed_spec utcnow d change_type diffs) as H.
  rewrite Hb in H. destruct H as (_ & fields & Hf & Hl).
  exists fields. split; [exact Hl|]. split.
  - rewrite Hf. unfold appended_fields.
    destruct diffs as [[|e ds]|]; try reflexivity.
    now rewrite changes_field_text.
  - intros e ds. cbn [map]. apply join_nonempty, diff_line_nonempty.
Qed.

Lemma changes_field_of_updates_witness :
  exists embed fields,
    build_embed "now" Examples.evA' "updated"
      (Some [("Description", (VStr "old text", VStr "new text"))])
    = Ok embed /\
    List.length fields = 6%nat /\
    embed_fields embed
    = Ok (VList (fields ++ [field "🔧 Changes"
                                  "📝 **Description changed**" false])).
Proof.
  destruct (build_embed "now" Examples.evA' "updated"
              (Some [("Description", (VStr "old text", VStr "new text"))]))
    as [embed|e] eqn:Hb; [|discriminate Hb].
  destruct (changes_field_of_updates "now"
              (Examples.event_fields 1 "X" "2024-01-01 10:00:00" "new text")
              "updated"
              (Some [("Description", (VStr "old text", VStr "new text"))])
              embed Hb) as (fields & Hl & Hf & _).
  exists embed, fields. auto.
Defined.

(** *** The notification loop *)


(** X12.  [notify_all] posts the payloads of the change records in order, each
    built at the clock reading of its turn, up to the first record whose
    payload cannot be built; it raises there, and the payloads posted before
    stay posted.  It never touches the store. *)
Theorem notify_all_outcome (clock : nat -> string) (changes : list change)
    (w : world) :
  match notify_all clock changes w with
  | (r, w') =>
      db_file w' = db_file w /\
      exists sent,
        posted w' = (posted w ++ sent)%list /\
        forallb sendable (firstn (List.length sent) changes) = true /\
        (forall i embed,
           nth_error sent i = Some embed ->
           exists c,
             nth_error changes i = Some c /\
             build_embed (clock (List.length (posted w) + i))
                         (event_of c) (kind_of c) (diffs_of c) = Ok embed) /\
        match r with
        | Ok _ => List.length sent = List.length changes
        | Raise _ =>
            exists c, nth_error changes (List.length sent) = Some c /\
                      sendable c = false
        end
  end.
Proof.
  revert w. induction changes as [|c rest IH]; intros w.
  - cbn [notify_all]. split; [reflexivity|]. exists [].
    rewrite app_nil_r. repeat split.
    intros [|i] embed; discriminate.
  - pose proof (build_embed_sendable (clock (List.length (posted w))) c)
      as Hc.
    destruct c as [[ct ev] ds]. cbn [notify_all]. unfold send_to_discord.
    unfold event_of, kind_of, diffs_of in Hc. cbn [fst snd] in Hc.
    destruct (build_embed _ ev ct ds) as [embed|e] eqn:Hb.
    + specialize (IH (mk_world (db_file w) (posted w ++ [embed])%list)).
      destruct (notify_all clock rest _) as [r w'].
      destruct IH as (Hf & sent & Hp & Hall & Hnth & Hr).
      cbn [db_file posted] in Hf, Hp, Hnth.
      split; [exact Hf|]. exists (embed :: sent).
      split; [now rewrite Hp, <- app_assoc|].
      split; [cbn [List.length firstn forallb]; now rewrite Hc, Hall|].
      split.
      * intros [|i] em Hi.
        -- injection Hi as <-. exists (ct, ev, ds).
           split; [reflexivity|]. now rewrite Nat.add_0_r.
        -- destruct (Hnth i em Hi) as (c & Hci & Hbi). exists c.
           split; [exact Hci|].
           rewrite length_app in Hbi. cbn [List.length] in Hbi.
           now replace (List.length (posted w) + S i)
             with (List.length (posted w) + 1 + i) by lia.
      * destruct r as [u|e]; cbn [List.length nth_error];
          [now rewrite Hr | exact Hr].
    + split; [reflexivity|]. exists []. rewrite app_nil_r.
      split; [reflexivity|]. split; [reflexivity|]. split.
      * intros [|i] em; discriminate.
      * exists (ct, ev, ds). split; [reflexivity | exact Hc].
Qed.

(** *** One polling cycle *)


Lemma load_saved (data : value) (w : world) :
  wf_value data -> load_db (save_db data w) = Ok data.
Proof.
  intros Hwf. unfold load_db, save_db. cbn [db_file].
  now rewrite loads_dumps.
Qed.

Lemma fetched_unchanged (r : http_result) (new_db : value) :
  fetch_events r = Ok new_db ->
  wf_value new_db /\ detect_changes new_db new_db = Ok [].
Proof.
  intros Hf. destruct (fetch_events_spec r new_db Hf) as (d & -> & Hk & Hw).
  split; [exact Hw|].
  destruct (keyed_events d Hk Hw) as [Hnd Hev].
  now apply detect_changes_unchanged.
Qed.

(** X14.  After a cycle that returned, a cycle that fetches the same
    response finds nothing to announce: it posts nothing and leaves the store
    as it is. *)
Theorem poll_cycle_settles (clock clock' : nat -> string) (r : http_result)
    (w w1 : world) :
  poll_cycle clock r w = (Ok tt, w1) ->
  poll_cycle clock' r w1 = (Ok tt, w1).
Proof.
  unfold poll_cycle at 1.
  destruct (load_db w) as [old_db|] eqn:El; [|discriminate].
  destruct (fetch_events r) as [new_db|] eqn:Ef; [|discriminate].
  destruct (detect_changes old_db new_db) as [[|c cs]|] eqn:Ed;
    [| |discriminate].
  - intros [= <-]. unfold poll_cycle. now rewrite El, Ef, Ed.
  - destruct (notify_all clock (c :: cs) w) as [[u|e] w'];
      [|discriminate].
    intros [= <-]. destruct (fetched_unchanged r new_db Ef) as [Hw Hd].
    unfold poll_cycle. now rewrite (load_saved new_db w' Hw), Ef, Hd.
Qed.

Lemma poll_cycle_settles_witness :
  let r := Response 200
             (Json.dumps (VDict [("error", VBool false);
                                 ("response", VList [Examples.evA])])) in
  let w1 := mk_world (Some (Json.dumps (VDict [("1", Examples.evA)])))
              match build_embed (Examples.clock0 0) Examples.evA
                                "created" None with
              | Ok embed => [embed]
              | Raise _ => []
              end in
  List.length (posted w1) = 1%nat /\
  poll_cycle Examples.clock0 r w1 = (Ok tt, w1).
Proof.
  intros r w1. split; [reflexivity|].
  apply (poll_cycle_settles Examples.clock0 Examples.clock0 r
           (mk_world None [])).
  vm_compute. reflexivity.
Defined.

(** *** The first run *)

(** X15.  With a store that is missing, unreadable or empty, the start of
    [main] writes the fetched snapshot and posts nothing, and the cycle that
    follows with the same response does nothing. *)
Theorem first_run_is_silent (clock clock' : nat -> string)
    (r : http_result) (w : world) (new_db : value) :
  load_db w = Ok (VDict []) -> fetch_events r = Ok new_db ->
  bootstrap clock r w = (Ok tt, save_db new_db w) /\
  posted (save_db new_db w) = posted w /\
  poll_cycle clock' r (save_db new_db w) = (Ok tt, save_db new_db w).
Proof.
  intros Hl Hf. destruct (fetched_unchanged r new_db Hf) as [Hw Hd].
  split; [|split; [reflexivity|]].
  - unfold bootstrap. rewrite Hl, Hf.
    destruct (fetch_events_spec r new_db Hf) as (d & -> & _). reflexivity.
  - unfold poll_cycle. now rewrite (load_saved new_db w Hw), Hf, Hd.
Qed.

Lemma first_run_is_silent_witness :
  let r := Response 200
             (Json.dumps (VDict [("error", VBool false);
                                 ("response", VList [Examples.evA])])) in
  let w1 := save_db (VDict [("1", Examples.evA)]) (mk_world None []) in
  bootstrap Examples.clock0 r (mk_world None []) = (Ok tt, w1) /\
  posted w1 = [] /\
  poll_cycle Examples.clock0 r w1 = (Ok tt, w1).
Proof.
  intros r w1.
  apply (first_run_is_silent Examples.clock0 Examples.clock0 r
           (mk_world None []) (VDict [("1", Examples.evA)])).
  - reflexivity.
  - vm_compute. reflexivity.
Defined.

(** X16.  With a store that is missing, unreadable or empty, a polling cycle
    announces every fetched event as created, in the order of the response. *)
Theorem empty_store_announces_all (clock : nat -> string) (r : http_result)
    (w : world) (new : dict) :
  load_db w = Ok (VDict []) -> fetch_events r = Ok (VDict new) ->
  new <> [] ->
  detect_changes (VDict []) (VDict new) = Ok (map created new) /\
  poll_cycle clock r w
  = (match notify_all clock (map created new) w with
     | (Ok _, w') => (Ok tt, save_db (VDict new) w')
     | (Raise e, w') => (Raise e, w')
     end).
Proof.
  intros Hl Hf Hne.
  assert (Hd : detect_changes (VDict []) (VDict new)
               = Ok (map created new)).
  { rewrite (detect_changes_no_common_id [] new).
    - cbn [map]. now rewrite app_nil_r.
    - intros k _. reflexivity. }
  split; [exact Hd|].
  unfold poll_cycle. rewrite Hl, Hf, Hd.
  destruct new as [|kv rest]; [contradiction|]. reflexivity.
Qed.

Lemma empty_store_announces_all_witness :
  let r := Response 200
             (Json.dumps (VDict [("error", VBool false);
                                 ("response",
                                  VList [Examples.evB; Examples.evA])])) in
  detect_changes (VDict []) (VDict [("2", Examples.evB); ("1", Examples.evA)])
  = Ok [("created", Examples.evB, None); ("created", Examples.evA, None)] /\
  poll_cycle Examples.clock0 r (mk_world (Some "not json") [])
  = (match notify_all Examples.clock0
             [("created", Examples.evB, None);
              ("created", Examples.evA, None)]
             (mk_world (Some "not json") []) with
     | (Ok _, w') =>
         (Ok tt,
          save_db (VDict [("2", Examples.evB); ("1", Examples.evA)]) w')
     | (Raise e, w') => (Raise e, w')
     end).
Proof.
  intros r.
  apply (empty_store_announces_all Examples.clock0 r
           (mk_world (Some "not json") [])
           [("2", Examples.evB); ("1", Examples.evA)]).
  - vm_compute. reflexivity.
  - vm_compute. reflexivity.
  - discriminate.
Defined.

(** *** A store that is not an object *)

Lemma scan_new_not_object (v : value) (items : dict) (acc : list change) :
  (forall d, v <> VDict d) ->
  match scan_new v items acc with
  | Ok _ => True
  | Raise e => e = TypeError
  end.
Proof.
  intros Hv. revert acc.
  induction items as [|[k ev] rest IH]; intros acc; cbn [scan_new];
    [exact I|].
  destruct v as [ | | |s|l|d]; cbn [py_contains bind]; try reflexivity.
  - destruct (is_substring k s); cbn [negb]; [reflexivity | apply IH].
  - destruct (existsb (py_eq (VStr k)) l); cbn [negb];
      [reflexivity | apply IH].
  - now destruct (Hv d).
Qed.

(** X17.  When the store file holds valid JSON that is not an object, every
    polling cycle raises before anything is posted or written. *)
Theorem store_not_object_raises (clock : nat -> string) (r : http_result)
    (w : world) (v new_db : value) :
  load_db w = Ok v -> (forall d, v <> VDict d) ->
  fetch_events r = Ok new_db ->
  exists e, poll_cycle clock r w = (Raise e, w) /\
            (e = TypeError \/ e = AttributeError).
Proof.
  intros Hl Hv Hf.
  destruct (fetch_events_spec r new_db Hf) as (new & -> & _).
  unfold poll_cycle. rewrite Hl, Hf. unfold detect_changes.
  cbn [py_items bind].
  pose proof (scan_new_not_object v new [] Hv) as Hs.
  destruct (scan_new v new []) as [cs|e]; cbn [bind].
  - exists AttributeError. split; [|now right].
    destruct v; try reflexivity. now destruct (Hv d).
  - exists e. split; [reflexivity | now left].
Qed.

Lemma store_not_object_raises_witness :
  exists e,
    poll_cycle Examples.clock0 RequestException (mk_world (Some "[1]") [])
    = (Raise e, mk_world (Some "[1]") []) /\
    (e = TypeError \/ e = AttributeError).
Proof.
  apply (store_not_object_raises Examples.clock0 RequestException
           (mk_world (Some "[1]") []) (VList [VInt 1]) (VDict [])).
  - vm_compute. reflexivity.
  - discriminate.
  - reflexivity.
Defined.

(** *** When the field diff raises *)

Lemma compare_field_returns (o n : dict) (key label : string)
    (acc : diff_map) :
  (key =? "description") = false ->
  exists ds, compare_field (VDict o) (VDict n) key label acc = Ok ds.
Proof.
  intros Hk. unfold compare_field. cbn [py_get py_get_default bind].
  rewrite Hk. destruct (py_ne _ _); eauto.
Qed.

(** X18.  On two dictionaries [compare_events] raises in one case only: the
    descriptions differ and the new event has no [id] or no [name]; the
    exception is the [KeyError] of the log line, for [id] first. *)
Theorem compare_events_raises_from_log (o n : dict) :
  match compare_events (VDict o) (VDict n) with
  | Ok _ =>
      py_ne (dget o "description") (dget n "description") = false \/
      is_event (VDict n) = true
  | Raise e =>
      py_ne (dget o "description") (dget n "description") = true /\
      is_event (VDict n) = false /\
      e = KeyError (if dict_mem "id" n then "name" else "id")
  end.
Proof.
  unfold compare_events, fields_to_check. cbn [compare_loop].
  repeat match goal with
         | |- context [compare_field (VDict o) (VDict n) ?k ?l ?acc] =>
             let ds := fresh "ds" in
             destruct (compare_field_returns o n k l acc eq_refl) as [ds ->];
             cbn [bind]
         end.
  unfold compare_field. cbn [py_get py_get_default bind String.eqb Ascii.eqb Bool.eqb].
  fold (dget o "description") (dget n "description").
  rewrite !normalize_description.
  destruct (py_ne (dget o "description") (dget n "description"));
    [|now left].
  unfold is_event, dict_mem. cbn [py_getitem].
  destruct (dict_get "id" n); cbn [bind andb].
  - destruct (dict_get "name" n); cbn [bind]; [now right | auto].
  - auto.
Qed.

(** X19.  Whatever [fetch_events] returns is a snapshot: a dictionary that
    holds each key once and, under each key, an event dictionary whose [id],
    written as text, is the key; no dictionary inside it holds a key twice. *)
Theorem fetch_events_snapshot (r : http_result) (v : value) :
  fetch_events r = Ok v ->
  exists d, v = VDict d /\ keyed_by_id d /\
            Forall (fun kv => wf_event (snd kv)) d.
Proof.
  intros Hf. destruct (fetch_events_spec r v Hf) as (d & -> & Hk & Hw).
  exists d. split; [reflexivity|]. split; [exact Hk|].
  exact (proj2 (keyed_events d Hk Hw)).
Qed.

Lemma fetch_events_snapshot_witness :
  exists d,
    VDict [("1", Examples.evA'); ("2", Examples.evB)] = VDict d /\
    keyed_by_id d /\ Forall (fun kv => wf_event (snd kv)) d.
Proof.
  apply (fetch_events_snapshot
           (Response 200
              (Json.dumps
                 (VDict [("error", VBool false);
                         ("response",
                          VList [Examples.evA; Examples.evB;
                                 Examples.evA'])])))).
  vm_compute. reflexivity.
Defined.

(** X20.  What [load_db] returns holds no key twice, at any depth, whatever
    the file holds. *)
Theorem load_db_keys_once (w : world) (v : value) :
  load_db w = Ok v -> wf_value v.
Proof.
  unfold load_db. destruct (db_file w) as [text|].
  - destruct (Json.loads text) as [x|e] eqn:El.
    + intros [= <-]. exact (loads_wf _ _ El).
    + destruct e; try discriminate. intros [= <-]. apply wf_nil.
  - intros [= <-]. apply wf_nil.
Qed.

Lemma load_db_keys_once_witness :
  let text := "{" ++ Json.encode_str "a" ++ ": 1, "
                  ++ Json.encode_str "a" ++ ": 2}" in
  load_db (mk_world (Some text) []) = Ok (VDict [("a", VInt 2)]) /\
  wf_value (VDict [("a", VInt 2)]).
Proof.
  intros text. split; [vm_compute; reflexivity|].
  apply (load_db_keys_once (mk_world (Some text) [])).
  vm_compute. reflexivity.
Defined.

(** X21.  With a store that holds at least one event, the start of [main] does
    what a polling cycle does. *)
Theorem bootstrap_is_poll_cycle (clock : nat -> string) (r : http_result)
    (w : world) (old : dict) :
  load_db w = Ok (VDict old) -> old <> [] ->
  bootstrap clock r w = poll_cycle clock r w.
Proof.
  intros Hl Hne. unfold bootstrap, poll_cycle. rewrite Hl.
  destruct (fetch_events r) as [new_db|e] eqn:Hf; [|reflexivity].
  destruct (fetch_events_spec r new_db Hf) as (new & -> & _).
  cbn [py_len bind]. destruct old as [|kv rest]; [contradiction|].
  cbn [truthy negb].
  destruct (detect_changes _ _) as [[|c cs]|e]; reflexivity.
Qed.

Lemma bootstrap_is_poll_cycle_witness :
  let w := mk_world (Some (Json.dumps (VDict [("1", Examples.evA)]))) [] in
  bootstrap Examples.clock0 RequestException w
  = poll_cycle Examples.clock0 RequestException w.
Proof.
  intros w.
  apply (bootstrap_is_poll_cycle Examples.clock0 RequestException w
           [("1", Examples.evA)]).
  - vm_compute. reflexivity.
  - discriminate.
Defined.
